(** * proyecto_progra: the data-processing core, modelled and verified

    A shallow embedding of the Python sources under
    [src/proyecto_progra/src]: the data model ([modelos]), the cleaner and
    the transformer ([procesadores]), the two analyzers ([analizadores]) and
    the operation journal ([persistencia]).

    Conventions of the embedding.
    - A field value is [option string]: the CSV loader stores stripped text
      or [None]; a [Registro] is a finite map from field names to values.
    - [print] calls are omitted: they do not influence any returned value,
      and so is the copy of its last results that an analyzer keeps.
    - A method that mutates [self] is a function returning the new state.
      The operations that change a record in place ([limpiar_valores_nulos],
      [agregar_campo_calculado]) work on a store of record objects
      ([Objetos]), where one object can stand in several places; the other
      operations never change a record and take records as plain values.
    - The order of the fields inside a record is not kept; the fields of a
      dataset are those of its first record, as in the sources.
    - Python's [float] and the functions of the interpreter and of the
      [statistics] module are an interface ([PyFloat]); [IEEE] implements it
      on binary64 floats and is used for the concrete scenarios.
    - Not modelled: the functions that rest on Unicode case mapping and
      whitespace ([normalizar_texto], [analizar_producto_especifico], the
      CSV loader), on the division and the formatting of floats
      ([obtener_reporte_calidad], the report generators), and on files
      other than the journal's ([exportar_historial_texto]). *)

From Stdlib Require Import ZArith String Ascii List Floats Lia.
From stdpp Require Import base option list sorting strings gmap pretty.

Open Scope string_scope.
Open Scope nat_scope.
Open Scope list_scope.
Open Scope stdpp_scope.

(** A decimal literal of [float_scope] stands for the nearest binary64
    number, as a literal of Python does. *)
Set Warnings "-inexact-float".

(** ** Python builtins *)

(** Exceptions that can escape the modelled functions. *)
Inductive excepcion : Type :=
  | StatisticsError
  | ValueError
  | OverflowError
  | AttributeError.

(** A call either returns a value or raises. *)
Inductive ejecucion (A : Type) : Type :=
  | Retorna (a : A)
  | Lanza (e : excepcion).
Arguments Retorna {A} a.
Arguments Lanza {A} e.

Definition ligar {A B : Type} (m : ejecucion A) (k : A -> ejecucion B) : ejecucion B :=
  match m with
  | Retorna a => k a
  | Lanza e => Lanza e
  end.

Notation "x <-- m ;; k" := (ligar m (fun x => k))
  (at level 100, m at next level, right associativity).

(** [for x in l: b = f(b, x)], where [f] can raise. *)
Fixpoint iterar {A B : Type} (f : B -> A -> ejecucion B) (l : list A) (b : B)
  : ejecucion B :=
  match l with
  | [] => Retorna b
  | x :: l' => b' <-- f b x ;; iterar f l' b'
  end.

(** Truth value of a field value: [None] and the empty text are false. *)
Definition py_truthy (v : option string) : bool :=
  match v with
  | Some s => negb (String.eqb s "")
  | None => false
  end.

(** [l[i:]] and [l[:i]] for a Python integer [i] (negative indices count
    from the end; out-of-range bounds are clamped). *)
Definition py_slice_bound {A : Type} (i : Z) (l : list A) : nat :=
  let n := Z.of_nat (length l) in
  Z.to_nat (if (i <? 0)%Z then Z.max 0 (i + n) else Z.min i n).

Definition py_slice_from {A : Type} (i : Z) (l : list A) : list A :=
  drop (py_slice_bound i l) l.

Definition py_slice_to {A : Type} (i : Z) (l : list A) : list A :=
  take (py_slice_bound i l) l.

(** A [dict] in insertion order, with the key comparison as a parameter
    ([==] on the keys: text equality, or float equality for a [Counter]). *)
Section DictOrdenado.
  Context {K V : Type} (eqk : K -> K -> bool).

Fixpoint dict_get (d : list (K * V)) (k : K) : option V :=
  match d with
  | [] => None
  | (k', v) :: d' => if eqk k' k then Some v else dict_get d' k
  end.

(** [d[k] = v]: an existing key keeps its place (and its key object). *)
Fixpoint dict_set (d : list (K * V)) (k : K) (v : V) : list (K * V) :=
  match d with
  | [] => [(k, v)]
  | (k', v') :: d' =>
      if eqk k' k then (k', v) :: d' else (k', v') :: dict_set d' k v
  end.

End DictOrdenado.

(** [for x in l: c[x] = c.get(x, 0) + 1], the loop of [collections.Counter]
    and of the frequency table of the categorical statistics. *)
Definition contar_elementos {K : Type} (eqk : K -> K -> bool) (l : list K)
  : list (K * nat) :=
  foldl (fun c x => dict_set eqk c x (default 0 (dict_get eqk c x) + 1)) [] l.

(** [max(l, key=key)]: the first element whose key is maximal. *)
Definition py_max_key {A : Type} (key : A -> nat) (l : list A) : option A :=
  match l with
  | [] => None
  | x :: l' => Some (foldl (fun m y => if key m <? key y then y else m) x l')
  end.

(** [list.sort(key=..., reverse=...)] and [sorted]: a stable sort that only
    uses [<] on the keys. It is modelled by a stable insertion sort; with
    [reverse=True] the list is reversed before and after sorting, as CPython
    does to keep equal elements in their original order. *)
Section PySort.
  Context {A K : Type} (ltk : K -> K -> bool) (key : A -> K).

Fixpoint sort_insert (x : A) (l : list A) : list A :=
  match l with
  | [] => [x]
  | y :: l' => if ltk (key y) (key x) then y :: sort_insert x l' else x :: y :: l'
  end.

Definition stable_sort (l : list A) : list A := foldr sort_insert [] l.

Definition py_sort (descending : bool) (l : list A) : list A :=
  if descending then reverse (stable_sort (reverse l)) else stable_sort l.

End PySort.

(** Python's [float]: the type, the operators and builtins the sources use
    on it, and the functions of the [statistics] module that they call.
    [float_of_str s] is [float(s)] on text, [None] standing for the
    [ValueError] that every caller catches. The [statistics] functions can
    raise (on empty data, or [OverflowError] on huge values). *)
Class PyFloat : Type := {
  pyfloat : Type;
  float_of_str : string -> option pyfloat;
  fzero : pyfloat;
  fadd : pyfloat -> pyfloat -> pyfloat;
  fleb : pyfloat -> pyfloat -> bool;
  fltb : pyfloat -> pyfloat -> bool;
  feqb : pyfloat -> pyfloat -> bool;
  round2 : pyfloat -> pyfloat;
  py_sum : list pyfloat -> pyfloat;
  stat_mean : list pyfloat -> ejecucion pyfloat;
  stat_median : list pyfloat -> ejecucion pyfloat;
  stat_stdev : list pyfloat -> ejecucion pyfloat;
  stat_variance : list pyfloat -> ejecucion pyfloat;
}.

(** What the proofs use of an implementation: [float("")] raises
    [ValueError], and [==] on floats is symmetric and transitive (it is not
    reflexive: a NaN differs from itself). *)
Class PyFloatLaws (PF : PyFloat) : Prop := {
  float_of_str_empty : float_of_str "" = None;
  feqb_sym : forall x y, feqb x y = true -> feqb y x = true;
  feqb_trans : forall x y z, feqb x y = true -> feqb y z = true -> feqb x z = true;
}.

(** [min(l)] and [max(l)] on a non-empty list [x :: l]: the first minimal
    (maximal) element. *)
Definition py_min `{PyFloat} (x : pyfloat) (l : list pyfloat) : pyfloat :=
  foldl (fun m y => if fltb y m then y else m) x l.

Definition py_max `{PyFloat} (x : pyfloat) (l : list pyfloat) : pyfloat :=
  foldl (fun m y => if fltb m y then y else m) x l.

(** [statistics.mode(data)] (Python 3.8 and later):
    [Counter(iter(data)).most_common(1)], the first value encountered among
    the most frequent ones; [StatisticsError] on empty data only. *)
Definition statistics_mode `{PyFloat} (data : list pyfloat) : ejecucion pyfloat :=
  match py_max_key snd (contar_elementos feqb data) with
  | Some p => Retorna (fst p)
  | None => Lanza StatisticsError
  end.

(** ** A binary64 implementation of [PyFloat]

    Python's [float] is the IEEE 754 binary64 format, which is the format
    of Rocq's primitive floats. The conversions from text and the
    [statistics] functions follow CPython 3.11 on ASCII text; they work on
    exact integers and round once, to nearest with ties to even. Three
    limits: text outside ASCII is rejected (CPython also reads Unicode
    digits and spaces); [sorted] inside [statistics.median] is the stable
    insertion sort of [py_sort], which agrees with CPython on data without
    NaN; and [sum] adds from left to right (CPython 3.12 and later
    compensate the rounding errors). *)
Module IEEE.

(** The binary64 nearest to [num / den] for [0 <= num] and [0 < den], with
    the sign [negativo]: the quotient is taken with 55 bits or more and a
    sticky bit, and rounded by [binary_normalize]. An overflow gives an
    infinity. *)
Definition redondear (negativo : bool) (num den : Z) : spec_float :=
  if (num =? 0)%Z then S754_zero negativo
  else
    let k := Z.max 0 (56 + Z.log2 den - Z.log2 num) in
    let n := (num * 2 ^ k)%Z in
    let q := (n / den)%Z in
    let sticky := if (n mod den =? 0)%Z then 0%Z else 1%Z in
    let m := (2 * q + sticky)%Z in
    binary_normalize prec emax (if negativo then (- m)%Z else m) (- (k + 1))%Z negativo.

(** [a / b] on Python integers with [0 < b]: correctly rounded, and
    [OverflowError] when the quotient is too large for a float. *)
Definition dividir_enteros (a b : Z) : ejecucion float :=
  match redondear (a <? 0)%Z (Z.abs a) b with
  | S754_infinity _ => Lanza OverflowError
  | r => Retorna (SF2Prim r)
  end.

(** [float(n)] for a small integer [n]. *)
Definition de_entero (n : Z) : float :=
  SF2Prim (binary_normalize prec emax n 0 false).

(** A finite float as [m * 2 ^ e], exactly. *)
Definition exacto (x : float) : option (Z * Z) :=
  match Prim2SF x with
  | S754_zero _ => Some (0, 0)%Z
  | S754_finite s m e => Some (if s then Z.neg m else Z.pos m, e)
  | _ => None
  end.

Definition es_finito (x : float) : bool :=
  match exacto x with Some _ => true | None => false end.

(** Arithmetic on exact values [m * 2 ^ e]. *)
Definition diadico_suma (a b : Z * Z) : Z * Z :=
  let e := Z.min a.2 b.2 in
  (a.1 * 2 ^ (a.2 - e) + b.1 * 2 ^ (b.2 - e), e)%Z.

Definition diadico_producto (a b : Z * Z) : Z * Z :=
  (a.1 * b.1, a.2 + b.2)%Z.

(** [m * 2 ^ e] as a fraction of integers. *)
Definition fraccion (a : Z * Z) : Z * Z :=
  if (0 <=? a.2)%Z then (a.1 * 2 ^ a.2, 1)%Z else (a.1, 2 ^ (- a.2))%Z.

(** *** [float(s)] *)

Definition es_espacio (c : ascii) : bool :=
  let n := nat_of_ascii c in (9 <=? n) && (n <=? 13) || (n =? 32).

Definition es_digito (c : ascii) : bool :=
  let n := nat_of_ascii c in (48 <=? n) && (n <=? 57).

Definition valor_digito (c : ascii) : Z := Z.of_nat (nat_of_ascii c - 48).

Definition minuscula (c : ascii) : ascii :=
  let n := nat_of_ascii c in
  if (65 <=? n) && (n <=? 90) then ascii_of_nat (n + 32) else c.

Definition es_guion (c : ascii) : bool := Ascii.eqb c "_".

(** Underscores are dropped; each must stand between two digits. *)
Fixpoint quitar_guiones (prev : option ascii) (s : list ascii) : option (list ascii) :=
  match s with
  | [] => if from_option es_guion false prev then None else Some []
  | c :: s' =>
      if es_guion c
      then if from_option es_digito false prev
           then quitar_guiones (Some c) s'
           else None
      else if from_option es_guion false prev && negb (es_digito c)
           then None
           else cons c <$> quitar_guiones (Some c) s'
  end.

Fixpoint quitar_espacios (s : list ascii) : list ascii :=
  match s with
  | c :: s' => if es_espacio c then quitar_espacios s' else s
  | [] => []
  end.

Fixpoint leer_digitos (s : list ascii) : list ascii * list ascii :=
  match s with
  | c :: s' =>
      if es_digito c
      then let '(ds, resto) := leer_digitos s' in (c :: ds, resto)
      else ([], s)
  | [] => ([], [])
  end.

Definition numero (ds : list ascii) : Z :=
  foldl (fun n c => (10 * n + valor_digito c)%Z) 0%Z ds.

Definition leer_signo (s : list ascii) : bool * list ascii :=
  match s with
  | c :: s' =>
      if Ascii.eqb c "-" then (true, s')
      else if Ascii.eqb c "+" then (false, s')
      else (false, s)
  | [] => (false, [])
  end.

(** An exponent part, when it has a digit; else nothing is read. *)
Definition leer_exponente (s : list ascii) : Z * list ascii :=
  match s with
  | c :: s' =>
      if Ascii.eqb (minuscula c) "e"
      then let '(negativo, s1) := leer_signo s' in
           let '(ds, resto) := leer_digitos s1 in
           match ds with
           | [] => (0%Z, s)
           | _ :: _ => (if negativo then (- numero ds)%Z else numero ds, resto)
           end
      else (0%Z, s)
  | [] => (0%Z, [])
  end.

(** Digits, with a point and an exponent if any: the number is
    [m * 10 ^ e]; one digit at least is needed. *)
Definition leer_decimal (s : list ascii) : option (Z * Z * list ascii) :=
  let '(d1, r1) := leer_digitos s in
  let '(d2, r2) :=
    match r1 with
    | c :: r => if Ascii.eqb c "." then leer_digitos r else ([], r1)
    | [] => ([], r1)
    end in
  match d1 ++ d2 with
  | [] => None
  | _ :: _ =>
      let '(e, r3) := leer_exponente r2 in
      Some (numero (d1 ++ d2), (e - Z.of_nat (length d2))%Z, r3)
  end.

Definition empieza_con (palabra : string) (s : list ascii) : bool :=
  bool_decide (take (String.length palabra) (minuscula <$> s)
               = list_ascii_of_string palabra).

(** "inf", "infinity" and "nan" in any case, with a sign if any. *)
Definition leer_inf_nan (s : list ascii) : option (spec_float * list ascii) :=
  let '(negativo, r) := leer_signo s in
  if empieza_con "inf" r
  then if empieza_con "inity" (drop 3 r)
       then Some (S754_infinity negativo, drop 8 r)
       else Some (S754_infinity negativo, drop 3 r)
  else if empieza_con "nan" r
       then Some (S754_nan, drop 3 r)
       else None.

Definition float_of_str (s : string) : option float :=
  match quitar_guiones None (list_ascii_of_string s) with
  | None => None
  | Some t =>
      let t := rev (quitar_espacios (rev (quitar_espacios t))) in
      let '(negativo, r) := leer_signo t in
      match leer_decimal r with
      | Some (m, e, resto) =>
          match resto with
          | [] => Some (SF2Prim (if (0 <=? e)%Z
                                 then redondear negativo (m * 10 ^ e) 1
                                 else redondear negativo m (10 ^ (- e))))
          | _ :: _ => None
          end
      | None =>
          match leer_inf_nan t with
          | Some (x, []) => Some (SF2Prim x)
          | _ => None
          end
      end
  end.

(** *** [round(x, 2)] *)

(** The integer nearest to [num / den], ties to even ([0 <= num], [0 < den]). *)
Definition entero_mas_cercano (num den : Z) : Z :=
  let q := (num / den)%Z in
  let r := (num mod den)%Z in
  match (2 * r ?= den)%Z with
  | Lt => q
  | Gt => (q + 1)%Z
  | Eq => if Z.even q then q else (q + 1)%Z
  end.

(** The decimal with two places nearest to [x], read back as a float;
    infinities and NaN round to themselves. *)
Definition round2 (x : float) : float :=
  match Prim2SF x with
  | S754_finite s m e =>
      let '(num, den) := fraccion (Z.pos m, e) in
      SF2Prim (redondear s (entero_mas_cercano (num * 100) den) 100)
  | _ => x
  end.

(** *** [sum] and [statistics] *)

Definition py_sum (data : list float) : float := foldl PrimFloat.add 0%float data.

Definition suma_exacta (data : list float) : Z * Z :=
  foldl (fun a x => diadico_suma a (default (0, 0)%Z (exacto x))) (0, 0)%Z data.

Definition suma_cuadrados_exacta (data : list float) : Z * Z :=
  foldl (fun a x => let v := default (0, 0)%Z (exacto x) in
                    diadico_suma a (diadico_producto v v)) (0, 0)%Z data.

(** The sum of the infinities and NaN of [data], which stands for the sum
    of [data] when there is one. *)
Definition suma_no_finitos (data : list float) : float :=
  foldl PrimFloat.add 0%float (List.filter (fun x => negb (es_finito x)) data).

Definition stat_mean (data : list float) : ejecucion float :=
  let n := Z.of_nat (length data) in
  if (n <? 1)%Z then Lanza StatisticsError
  else if forallb es_finito data
       then let '(num, den) := fraccion (suma_exacta data) in
            dividir_enteros num (den * n)
       else Retorna (suma_no_finitos data / de_entero n)%float.

Definition stat_median (data : list float) : ejecucion float :=
  let ordenados := py_sort PrimFloat.ltb id false data in
  let n := length ordenados in
  if n =? 0 then Lanza StatisticsError
  else if n mod 2 =? 1 then Retorna (nth (n / 2) ordenados 0%float)
       else Retorna ((nth (n / 2 - 1) ordenados 0 + nth (n / 2) ordenados 0) / 2)%float.

(** [count * sxx - sx * sx], exactly: the sum of the squared deviations
    times [count]. *)
Definition desviaciones_exactas (data : list float) : Z * Z :=
  let n := Z.of_nat (length data) in
  let sx := suma_exacta data in
  let sxx := suma_cuadrados_exacta data in
  diadico_suma (diadico_producto (n, 0%Z) sxx)
               (diadico_producto (-1, 0)%Z (diadico_producto sx sx)).

Definition stat_variance (data : list float) : ejecucion float :=
  let n := Z.of_nat (length data) in
  if (n <? 2)%Z then Lanza StatisticsError
  else if forallb es_finito data
       then let '(num, den) := fraccion (desviaciones_exactas data) in
            dividir_enteros num (den * n * (n - 1))
       else Retorna (suma_no_finitos data / de_entero (n - 1))%float.

Definition bit_length (n : Z) : Z := if (n =? 0)%Z then 0%Z else (Z.log2 n + 1)%Z.

(** The square root of [n / m] rounded to an integer, to odd. *)
Definition integer_sqrt_of_frac_rto (n m : Z) : Z :=
  let a := Z.sqrt (n / m) in
  Z.lor a (if (a * a * m =? n)%Z then 0 else 1)%Z.

Definition float_sqrt_of_frac (n m : Z) : ejecucion float :=
  let q := ((bit_length n - bit_length m - 109) / 2)%Z in
  if (0 <=? q)%Z
  then dividir_enteros (Z.shiftl (integer_sqrt_of_frac_rto n (Z.shiftl m (2 * q))) q) 1
  else dividir_enteros (integer_sqrt_of_frac_rto (Z.shiftl n (- 2 * q)) m)
                       (Z.shiftl 1 (- q)).

Definition stat_stdev (data : list float) : ejecucion float :=
  let n := Z.of_nat (length data) in
  if (n <? 2)%Z then Lanza StatisticsError
  else if forallb es_finito data
       then let '(num, den) := fraccion (desviaciones_exactas data) in
            let den := (den * n * (n - 1))%Z in
            let g := Z.gcd num den in
            float_sqrt_of_frac (num / g) (den / g)
       else Lanza AttributeError.

End IEEE.

#[export] Instance ieee : PyFloat := {|
  pyfloat := float;
  float_of_str := IEEE.float_of_str;
  fzero := 0%float;
  fadd := PrimFloat.add;
  fleb := PrimFloat.leb;
  fltb := PrimFloat.ltb;
  feqb := PrimFloat.eqb;
  round2 := IEEE.round2;
  py_sum := IEEE.py_sum;
  stat_mean := IEEE.stat_mean;
  stat_median := IEEE.stat_median;
  stat_stdev := IEEE.stat_stdev;
  stat_variance := IEEE.stat_variance;
|}.

(** ** modelos/registro.py *)

(** A record: the [dict] of its fields. Equality of records is the
    structural equality of [Registro.__eq__]. *)
Abbreviation Registro := (gmap string (option string)).

Module Registro.

(** [self._datos.get(nombre_campo)]: [None] for a missing field too. *)
Definition obtener_campo (self : Registro) (nombre_campo : string) : option string :=
  match self !! nombre_campo with
  | Some valor => valor
  | None => None
  end.

Definition establecer_campo (nombre_campo : string) (valor : option string)
    (self : Registro) : Registro :=
  <[nombre_campo := valor]> self.

Definition obtener_todos_campos (self : Registro) : Registro := self.

Definition tiene_campo (self : Registro) (nombre_campo : string) : bool :=
  bool_decide (is_Some (self !! nombre_campo)).

Definition es_valido (self : Registro) : bool :=
  bool_decide (0 < size self).

(** [valor is None or valor == '' or valor == 'NULL']. *)
Definition es_vacio (valor : option string) : bool :=
  match valor with
  | None => true
  | Some s => String.eqb s "" || String.eqb s "NULL"
  end.

(** The names of the empty fields, in the order of the map. *)
Definition obtener_campos_vacios (self : Registro) : list string :=
  foldl (fun campos_vacios '(campo, valor) =>
           if es_vacio valor then campos_vacios ++ [campo] else campos_vacios)
        []
        (map_to_list self).

End Registro.

(** ** modelos/dataset.py *)

Record Dataset : Type := {
  registros : list Registro;
  nombre : string;
}.

Module Dataset.

Definition nuevo (nombre : string) : Dataset :=
  {| registros := []; nombre := nombre |}.

Definition agregar_registro (registro : Registro) (self : Dataset) : Dataset :=
  {| registros := registros self ++ [registro]; nombre := nombre self |}.

Definition agregar_registros (nuevos : list Registro) (self : Dataset) : Dataset :=
  foldl (fun d registro => agregar_registro registro d) self nuevos.

Definition obtener_registros (self : Dataset) : list Registro := registros self.

Definition cantidad_registros (self : Dataset) : nat := length (registros self).

Definition esta_vacio (self : Dataset) : bool :=
  Nat.eqb (length (registros self)) 0.

Definition limpiar (self : Dataset) : Dataset :=
  {| registros := []; nombre := nombre self |}.

Definition filtrar (condicion : Registro -> bool) (self : Dataset) : Dataset :=
  foldl (fun dataset_filtrado registro =>
           if condicion registro
           then agregar_registro registro dataset_filtrado
           else dataset_filtrado)
        (nuevo (nombre self ++ "_filtrado")%string)
        (registros self).

(** The sort key [r.obtener_campo(campo) or ""]. Keys are compared with
    [String.ltb], the lexicographic order on the characters' codes, which
    is Python's order on text. *)
Definition clave_orden (campo : string) (r : Registro) : string :=
  let valor := Registro.obtener_campo r campo in
  if py_truthy valor then default "" valor else "".

Definition ordenar (campo : string) (reverso : bool) (self : Dataset) : Dataset :=
  {| registros := py_sort String.ltb (clave_orden campo) reverso (registros self);
     nombre := nombre self |}.

Definition obtener_campos (self : Dataset) : list string :=
  match registros self with
  | [] => []
  | primero :: _ => (map_to_list (Registro.obtener_todos_campos primero)).*1
  end.

Definition obtener_valores_campo (nombre_campo : string) (self : Dataset)
  : list string :=
  omap (fun registro => Registro.obtener_campo registro nombre_campo) (registros self).

(** [list(set(valores))]: the distinct values, in an unspecified order. *)
Definition obtener_valores_unicos (nombre_campo : string) (self : Dataset)
  : list string :=
  elements (list_to_set (obtener_valores_campo nombre_campo self) : gset string).

Definition obtener_nombre (self : Dataset) : string := nombre self.

End Dataset.

(** ** Records as objects

    [establecer_campo] changes a record in place, and one record object can
    stand in several datasets, or several times in one. The operations that
    change records are therefore modelled on a store of objects: the store
    maps the identity of a record object to its current fields, and the
    records of a dataset are the list of their identities. An identity
    without an object in the store does not occur in Python; the
    operations skip it. *)
Abbreviation Objetos := (gmap nat Registro).

Module Objetos.

(** [registro.establecer_campo(campo, valor)] on the object [registro]. *)
Definition establecer_campo (registro : nat) (campo : string) (valor : option string)
    (objetos : Objetos) : Objetos :=
  alter (Registro.establecer_campo campo valor) registro objetos.

(** The records of a dataset as values: the current fields of its objects. *)
Definition leer (objetos : Objetos) (registros : list nat) : list Registro :=
  omap (fun registro => objetos !! registro) registros.

End Objetos.

(** ** procesadores/limpiador.py *)

Module Limpiador.

(** Returns the dataset after the call and the number of duplicates. *)
Definition eliminar_duplicados (self : Dataset) : Dataset * nat :=
  let '(registros_unicos, duplicados) :=
    foldl (fun '(registros_unicos, duplicados) registro =>
             if bool_decide (registro ∈ registros_unicos)
             then (registros_unicos, duplicados + 1)
             else (registros_unicos ++ [registro], duplicados))
          ([], 0)
          (Dataset.obtener_registros self) in
  (Dataset.agregar_registros registros_unicos (Dataset.limpiar self), duplicados).

(** [valor is not None and valor != '' and valor != 'NULL']. *)
Definition con_dato (valor : option string) : bool :=
  match valor with
  | None => false
  | Some s => negb (String.eqb s "") && negb (String.eqb s "NULL")
  end.

(** The inner loop of [eliminar_registros_vacios], with its [break]. *)
Definition tiene_datos (registro : Registro) : bool :=
  existsb (fun '(campo, valor) => con_dato valor)
          (map_to_list (Registro.obtener_todos_campos registro)).

(** Returns the dataset after the call and the number of removed records. *)
Definition eliminar_registros_vacios (self : Dataset) : Dataset * nat :=
  let '(registros_validos, eliminados) :=
    foldl (fun '(registros_validos, eliminados) registro =>
             if Registro.es_valido registro
             then if tiene_datos registro
                  then (registros_validos ++ [registro], eliminados)
                  else (registros_validos, eliminados + 1)
             else (registros_validos, eliminados + 1))
          ([], 0)
          (Dataset.obtener_registros self) in
  (Dataset.agregar_registros registros_validos (Dataset.limpiar self), eliminados).

(** [limpiar_valores_nulos] changes the records in place: it works on the
    store of objects and on the identities [registros] of the records of
    the dataset. [datos] is the copy of the fields taken before the fields
    of the record are changed; [campos] is [None] when the argument is left
    out, and an empty list counts as left out. *)
Definition limpiar_valores_nulos (campos : option (list string))
    (valor_reemplazo : option string) (registros : list nat) (objetos : Objetos)
  : Objetos * nat :=
  foldl (fun '(objetos, reemplazos) registro =>
           match objetos !! registro with
           | None => (objetos, reemplazos)
           | Some datos =>
               let campos_a_limpiar :=
                 match campos with
                 | Some (campo :: resto) => campo :: resto
                 | _ => (map_to_list datos).*1
                 end in
               foldl (fun '(objetos, reemplazos) campo =>
                        match datos !! campo with
                        | Some valor =>
                            if Registro.es_vacio valor
                            then (Objetos.establecer_campo registro campo
                                    valor_reemplazo objetos,
                                  reemplazos + 1)
                            else (objetos, reemplazos)
                        | None => (objetos, reemplazos)
                        end)
                     (objetos, reemplazos)
                     campos_a_limpiar
           end)
        (objetos, 0)
        registros.

Record ValidacionNumerica : Type := {
  total_registros : nat;
  campos_validados : nat;
  errores_por_campo : list (string * nat);
}.

Record ResultadoLimpieza : Type := {
  duplicados_eliminados : nat;
  vacios_eliminados : nat;
  registros_finales : nat;
}.

(** Returns the dataset after the call and the dictionary of the counts. *)
Definition limpiar_completo (self : Dataset) : Dataset * ResultadoLimpieza :=
  let '(self, duplicados) := eliminar_duplicados self in
  let '(self, vacios) := eliminar_registros_vacios self in
  (self, {| duplicados_eliminados := duplicados;
            vacios_eliminados := vacios;
            registros_finales := Dataset.cantidad_registros self |}).

Section Limpiador.
  Context `{PyFloat}.

(** The inner loop of [validar_tipos_numericos]: the records whose value of
    [campo] is neither [None] nor empty and is refused by [float]. *)
Definition contar_errores (campo : string) (registros : list Registro) : nat :=
  foldl (fun errores registro =>
           match Registro.obtener_campo registro campo with
           | None => errores
           | Some valor =>
               if negb (String.eqb valor "")
               then match float_of_str valor with
                    | Some _ => errores
                    | None => errores + 1
                    end
               else errores
           end)
        0
        registros.

Definition validar_tipos_numericos (campos : list string) (self : Dataset)
  : ValidacionNumerica :=
  {| total_registros := Dataset.cantidad_registros self;
     campos_validados := length campos;
     errores_por_campo :=
       foldl (fun errores_por_campo campo =>
                dict_set String.eqb errores_por_campo campo
                  (contar_errores campo (Dataset.obtener_registros self)))
             []
             campos |}.

End Limpiador.

End Limpiador.

(** ** procesadores/transformador.py *)

Module Transformador.
Section Transformador.
  Context `{PyFloat}.

Definition filtrar_por_campo (nombre_campo : string) (valor : option string)
    (self : Dataset) : Dataset :=
  Dataset.filtrar
    (fun registro => bool_decide (Registro.obtener_campo registro nombre_campo = valor))
    self.

Definition filtrar_por_rango_numerico (nombre_campo : string)
    (minimo maximo : pyfloat) (self : Dataset) : Dataset :=
  Dataset.filtrar
    (fun registro =>
       match Registro.obtener_campo registro nombre_campo with
       | None => false
       | Some valor =>
           match float_of_str valor with
           | Some valor_num => fleb minimo valor_num && fleb valor_num maximo
           | None => false
           end
       end)
    self.

Definition ordenar_por_campo (nombre_campo : string) (descendente : bool)
    (self : Dataset) : Dataset :=
  Dataset.ordenar nombre_campo descendente self.

Definition agrupar_por_campo (nombre_campo : string) (self : Dataset)
  : gmap string Dataset :=
  foldl (fun grupos valor =>
           <[valor := filtrar_por_campo nombre_campo (Some valor) self]> grupos)
        ∅
        (Dataset.obtener_valores_unicos nombre_campo self).

(** The inner loop of [calcular_totales_por_grupo]: the sum of the values of
    [campo_suma] that are not [None] and that [float] accepts. The sum
    starts at the integer 0, which [fzero] stands for: Python's 0 and 0.0
    are equal, and adding a float to either gives the same float. *)
Definition sumar_campo (campo_suma : string) (grupo : list Registro) : pyfloat :=
  foldl (fun total registro =>
           match Registro.obtener_campo registro campo_suma with
           | None => total
           | Some valor_campo =>
               match float_of_str valor_campo with
               | Some x => fadd total x
               | None => total
               end
           end)
        fzero
        grupo.

Definition calcular_totales_por_grupo (campo_agrupacion campo_suma : string)
    (self : Dataset) : gmap string pyfloat :=
  let grupos := agrupar_por_campo campo_agrupacion self in
  foldl (fun totales '(valor, dataset_grupo) =>
           let total := sumar_campo campo_suma (Dataset.obtener_registros dataset_grupo) in
           <[valor := round2 total]> totales)
        ∅
        (map_to_list grupos).

Definition filtrar_por_condicion_personalizada (condicion : Registro -> bool)
    (self : Dataset) : Dataset :=
  Dataset.filtrar condicion self.

(** [agregar_campo_calculado] changes the records in place: it works on the
    store of objects and on the identities [registros] of the records of
    the dataset; [funcion_calculo] reads the current fields of the record. *)
Definition agregar_campo_calculado (nombre_nuevo_campo : string)
    (funcion_calculo : Registro -> option string) (registros : list nat)
    (objetos : Objetos) : Objetos :=
  foldl (fun objetos registro =>
           match objetos !! registro with
           | None => objetos
           | Some datos =>
               let valor_calculado := funcion_calculo datos in
               Objetos.establecer_campo registro nombre_nuevo_campo valor_calculado
                 objetos
           end)
        objetos
        registros.

Definition seleccionar_campos (campos : list string) (self : Dataset) : Dataset :=
  foldl (fun dataset_nuevo registro =>
           let datos_filtrados :=
             foldl (fun datos_filtrados campo =>
                      if Registro.tiene_campo registro campo
                      then <[campo := Registro.obtener_campo registro campo]>
                             datos_filtrados
                      else datos_filtrados)
                   (∅ : Registro)
                   campos in
           Dataset.agregar_registro datos_filtrados dataset_nuevo)
        (Dataset.nuevo (Dataset.obtener_nombre self ++ "_proyectado")%string)
        (Dataset.obtener_registros self).

(** [n] is a Python integer: [registros[:n]] with a negative [n] leaves
    out the last records, and the name shows [n] in decimal. *)
Definition obtener_primeros_n (n : Z) (self : Dataset) : Dataset :=
  let dataset_limitado :=
    Dataset.nuevo (Dataset.obtener_nombre self ++ "_top" ++ pretty n)%string in
  let registros := py_slice_to n (Dataset.obtener_registros self) in
  Dataset.agregar_registros registros dataset_limitado.

End Transformador.
End Transformador.

(** ** analizadores/analizador_estadistico.py *)

Module AnalizadorEstadistico.

(** The dictionary of numeric statistics, over the type [F] of the floats;
    a missing key is [None] in [desviacion_estandar] and [varianza], and
    [moda] holds Python's [None] as [None]. *)
Record EstadisticasNumericas (F : Type) : Type := {
  num_total_valores : nat;
  suma : F;
  promedio : F;
  mediana : F;
  minimo : F;
  maximo : F;
  desviacion_estandar : option F;
  varianza : option F;
  moda : option F;
}.
Arguments num_total_valores {F} _.
Arguments suma {F} _.
Arguments promedio {F} _.
Arguments mediana {F} _.
Arguments minimo {F} _.
Arguments maximo {F} _.
Arguments desviacion_estandar {F} _.
Arguments varianza {F} _.
Arguments moda {F} _.

Record EstadisticasCategoricas : Type := {
  cat_total_valores : nat;
  valores_unicos : nat;
  valor_mas_comun : option string;
  frecuencia_mas_comun : nat;
  distribucion : list (string * nat);
}.

Inductive Estadisticas (F : Type) : Type :=
  | Numerico (e : EstadisticasNumericas F)
  | Categorico (e : EstadisticasCategoricas).
Arguments Numerico {F} e.
Arguments Categorico {F} e.

Record Resultados (F : Type) : Type := {
  total_registros : nat;
  campos : gmap string (Estadisticas F);
  resumen_general : gmap string string;
}.
Arguments total_registros {F} _.
Arguments campos {F} _.
Arguments resumen_general {F} _.

Section AnalizadorEstadistico.
  Context `{PyFloat}.

(** The [try]/[except statistics.StatisticsError] around the mode. *)
Definition calcular_moda (valores : list pyfloat) : ejecucion (option pyfloat) :=
  match statistics_mode valores with
  | Retorna m => Retorna (Some (round2 m))
  | Lanza StatisticsError => Retorna None
  | Lanza e => Lanza e
  end.

Definition estadisticas_numericas (valores : list pyfloat)
  : ejecucion (EstadisticasNumericas pyfloat) :=
  media <-- stat_mean valores ;;
  med <-- stat_median valores ;;
  extremos <-- match valores with
               | [] => Lanza ValueError
               | x :: resto => Retorna (py_min x resto, py_max x resto)
               end ;;
  dispersion <-- (if Nat.ltb 1 (length valores)
                  then de <-- stat_stdev valores ;;
                       var <-- stat_variance valores ;;
                       Retorna (Some (round2 de), Some (round2 var))
                  else Retorna (None, None)) ;;
  mo <-- calcular_moda valores ;;
  Retorna {| num_total_valores := length valores;
             suma := round2 (py_sum valores);
             promedio := round2 media;
             mediana := round2 med;
             minimo := round2 (fst extremos);
             maximo := round2 (snd extremos);
             desviacion_estandar := fst dispersion;
             varianza := snd dispersion;
             moda := mo |}.

Definition estadisticas_categoricas (valores : list string) : EstadisticasCategoricas :=
  let frecuencias := contar_elementos String.eqb valores in
  let mas_comun :=
    py_max_key (fun k => default 0 (dict_get String.eqb frecuencias k))
               (frecuencias.*1) in
  {| cat_total_valores := length valores;
     valores_unicos := size (list_to_set valores : gset string);
     valor_mas_comun := mas_comun;
     frecuencia_mas_comun :=
       if py_truthy mas_comun
       then default 0 (dict_get String.eqb frecuencias (default "" mas_comun))
       else 0;
     distribucion := frecuencias |}.

(** [None] is the [None] that [_analizar_campo] returns for a field without
    values. *)
Definition analizar_campo (nombre_campo : string) (dataset : Dataset)
  : ejecucion (option (Estadisticas pyfloat)) :=
  let valores := Dataset.obtener_valores_campo nombre_campo dataset in
  if Nat.eqb (length valores) 0 then Retorna None
  else
    let valores_numericos := omap float_of_str valores in
    if Nat.leb 2 (length valores_numericos)
    then e <-- estadisticas_numericas valores_numericos ;;
         Retorna (Some (Numerico e))
    else Retorna (Some (Categorico (estadisticas_categoricas valores))).

Definition analizar (dataset : Dataset) : ejecucion (Resultados pyfloat) :=
  let resultados :=
    {| total_registros := Dataset.cantidad_registros dataset;
       campos := ∅;
       resumen_general := ∅ |} in
  if Dataset.esta_vacio dataset then Retorna resultados
  else
    cs <-- iterar (fun cs campo =>
                     estadisticas <-- analizar_campo campo dataset ;;
                     Retorna (match estadisticas with
                              | Some e => <[campo := e]> cs
                              | None => cs
                              end))
                  (Dataset.obtener_campos dataset)
                  (campos resultados) ;;
    Retorna {| total_registros := total_registros resultados;
               campos := cs;
               resumen_general := resumen_general resultados |}.

(** The analyzer object keeps the results of its last analysis in
    [_resultados], here [guardados], with [None] for the empty dictionary
    it starts with. The dataset is shared with the caller, who can change
    it between two calls: the methods take its current state. [analizar]
    returns before [_guardar_resultados] on an empty dataset. *)
Definition analizar_y_guardar (dataset : Dataset)
    (guardados : option (Resultados pyfloat))
  : ejecucion (option (Resultados pyfloat) * Resultados pyfloat) :=
  resultados <-- analizar dataset ;;
  Retorna (if Dataset.esta_vacio dataset then guardados else Some resultados,
           resultados).

(** [if not self._resultados: self.analizar()]. *)
Definition asegurar_resultados (dataset : Dataset)
    (guardados : option (Resultados pyfloat))
  : ejecucion (option (Resultados pyfloat)) :=
  match guardados with
  | Some _ => Retorna guardados
  | None => p <-- analizar_y_guardar dataset guardados ;; Retorna (fst p)
  end.

(** Returns the results kept after the call and the summary, with [None]
    for the empty dictionary. *)
Definition obtener_resumen_campo (nombre_campo : string) (dataset : Dataset)
    (guardados : option (Resultados pyfloat))
  : ejecucion (option (Resultados pyfloat) * option (Estadisticas pyfloat)) :=
  guardados <-- asegurar_resultados dataset guardados ;;
  Retorna (guardados,
           match guardados with
           | Some resultados => campos resultados !! nombre_campo
           | None => None
           end).

(** The numeric fields, in the order of the map. *)
Definition obtener_campos_numericos (dataset : Dataset)
    (guardados : option (Resultados pyfloat))
  : ejecucion (option (Resultados pyfloat) * list string) :=
  guardados <-- asegurar_resultados dataset guardados ;;
  Retorna (guardados,
           match guardados with
           | Some resultados =>
               foldl (fun campos_numericos '(campo, stats) =>
                        match stats with
                        | Numerico _ => campos_numericos ++ [campo]
                        | Categorico _ => campos_numericos
                        end)
                     []
                     (map_to_list (campos resultados))
           | None => []
           end).

End AnalizadorEstadistico.
End AnalizadorEstadistico.

(** ** analizadores/analizador_ventas.py *)

Module AnalizadorVentas.

Record Resultados (F : Type) : Type := {
  total_registros : nat;
  ventas_totales : F;
  por_region : list (string * F);
  por_producto : list (string * F);
  por_categoria : list (string * F);
  por_vendedor : list (string * F);
  top_productos : list (string * F);
  top_vendedores : list (string * F);
}.
Arguments total_registros {F} _.
Arguments ventas_totales {F} _.
Arguments por_region {F} _.
Arguments por_producto {F} _.
Arguments por_categoria {F} _.
Arguments por_vendedor {F} _.
Arguments top_productos {F} _.
Arguments top_vendedores {F} _.

Section AnalizadorVentas.
  Context `{PyFloat}.

Definition calcular_ventas_totales (dataset : Dataset) : pyfloat :=
  round2
    (foldl (fun total registro =>
              let valor_total := Registro.obtener_campo registro "total" in
              if py_truthy valor_total
              then match float_of_str (default "" valor_total) with
                   | Some x => fadd total x
                   | None => total
                   end
              else total)
           fzero
           (Dataset.obtener_registros dataset)).

(** [agrupacion[clave] += float(valor)] on a [defaultdict(float)]: the entry
    is read first, which creates it with [0.0] when it is missing, and only
    then is [float(valor)] evaluated; a [ValueError] leaves the new entry. *)
Definition acumular (agrupacion : list (string * pyfloat)) (clave valor : string)
  : list (string * pyfloat) :=
  let anterior := default fzero (dict_get String.eqb agrupacion clave) in
  let agrupacion := dict_set String.eqb agrupacion clave anterior in
  match float_of_str valor with
  | Some x => dict_set String.eqb agrupacion clave (fadd anterior x)
  | None => agrupacion
  end.

(** One turn of the loop of [_analizar_por_campo]. *)
Definition paso_analizar_por_campo (campo_agrupacion campo_suma : string)
    (agrupacion : list (string * pyfloat)) (registro : Registro)
  : list (string * pyfloat) :=
  let clave := Registro.obtener_campo registro campo_agrupacion in
  let valor := Registro.obtener_campo registro campo_suma in
  if py_truthy clave && py_truthy valor
  then acumular agrupacion (default "" clave) (default "" valor)
  else agrupacion.

Definition analizar_por_campo (campo_agrupacion campo_suma : string)
    (dataset : Dataset) : list (string * pyfloat) :=
  let agrupacion :=
    foldl (paso_analizar_por_campo campo_agrupacion campo_suma)
          []
          (Dataset.obtener_registros dataset) in
  prod_map id round2 <$> agrupacion.

Definition obtener_top_n (campo_agrupacion campo_suma : string) (n : Z)
    (dataset : Dataset) : list (string * pyfloat) :=
  let agrupacion := analizar_por_campo campo_agrupacion campo_suma dataset in
  let ordenados := py_sort (fun x y => fltb x y) snd true agrupacion in
  py_slice_to n ordenados.

Definition analizar (dataset : Dataset) : Resultados pyfloat :=
  if Dataset.esta_vacio dataset
  then {| total_registros := Dataset.cantidad_registros dataset;
          ventas_totales := fzero;
          por_region := []; por_producto := []; por_categoria := [];
          por_vendedor := []; top_productos := []; top_vendedores := [] |}
  else {| total_registros := Dataset.cantidad_registros dataset;
          ventas_totales := calcular_ventas_totales dataset;
          por_region := analizar_por_campo "region" "total" dataset;
          por_producto := analizar_por_campo "producto" "total" dataset;
          por_categoria := analizar_por_campo "categoria" "total" dataset;
          por_vendedor := analizar_por_campo "vendedor" "total" dataset;
          top_productos := obtener_top_n "producto" "total" 5 dataset;
          top_vendedores := obtener_top_n "vendedor" "total" 5 dataset |}.

End AnalizadorVentas.
End AnalizadorVentas.

(** ** persistencia/registro_operaciones.py *)

Record Operacion : Type := {
  timestamp : string;
  dataset : string;
  operacion : string;
  parametros : list (string * string);
  resultado : string;
}.

(** The journal: the list in memory and the content of the file at
    [ruta_bd] as [pickle.load] would read it back ([None]: no file, or an
    unreadable one). *)
Record RegistroOperaciones : Type := {
  operaciones : list Operacion;
  archivo : option (list Operacion);
}.

(** Outcome of a write to the file: the list is written, or the write
    raises and leaves the file as [queda]. *)
Inductive escritura : Type :=
  | Escrita
  | Fallida (queda : option (list Operacion)).

Module RegistroOperaciones.

Definition cargar_operaciones (archivo : option (list Operacion)) : list Operacion :=
  match archivo with
  | Some ops => ops
  | None => []
  end.

Definition crear (archivo : option (list Operacion)) : RegistroOperaciones :=
  {| operaciones := cargar_operaciones archivo; archivo := archivo |}.

Definition guardar_operaciones (e : escritura) (self : RegistroOperaciones)
  : RegistroOperaciones * bool :=
  match e with
  | Escrita => ({| operaciones := operaciones self;
                   archivo := Some (operaciones self) |}, true)
  | Fallida queda => ({| operaciones := operaciones self; archivo := queda |}, false)
  end.

(** [ahora] is the text of [datetime.now()] at the call. *)
Definition registrar_operacion (ahora : string) (e : escritura)
    (dataset operacion : string) (parametros : option (list (string * string)))
    (resultado : string) (self : RegistroOperaciones) : RegistroOperaciones :=
  let nueva_operacion :=
    {| timestamp := ahora; dataset := dataset; operacion := operacion;
       parametros := default [] parametros; resultado := resultado |} in
  let self := {| operaciones := operaciones self ++ [nueva_operacion];
                 archivo := archivo self |} in
  fst (guardar_operaciones e self).

Definition obtener_todas_operaciones (self : RegistroOperaciones) : list Operacion :=
  operaciones self.

Definition obtener_operaciones_por_dataset (nombre_dataset : string)
    (self : RegistroOperaciones) : list Operacion :=
  filter (fun op => dataset op = nombre_dataset) (operaciones self).

Definition obtener_ultimas_n_operaciones (n : Z) (self : RegistroOperaciones)
  : list Operacion :=
  if (n <=? Z.of_nat (length (operaciones self)))%Z
  then py_slice_from (- n) (operaciones self)
  else operaciones self.

Definition contar_operaciones (self : RegistroOperaciones) : nat :=
  length (operaciones self).

Definition limpiar_historial (e : escritura) (self : RegistroOperaciones)
  : RegistroOperaciones * bool :=
  guardar_operaciones e {| operaciones := []; archivo := archivo self |}.

Definition obtener_operaciones_por_tipo (tipo_operacion : string)
    (self : RegistroOperaciones) : list Operacion :=
  filter (fun op => operacion op = tipo_operacion) (operaciones self).

Record Estadisticas : Type := {
  total_operaciones : nat;
  datasets_usados : list string;
  tipos_operaciones : list (string * nat);
  primera_operacion : option string;
  ultima_operacion : option string;
}.

(** [datasets_usados] is [list(datasets)] of a set: the distinct names, in
    an unspecified order. *)
Definition obtener_estadisticas (self : RegistroOperaciones) : Estadisticas :=
  match operaciones self with
  | [] => {| total_operaciones := 0;
             datasets_usados := [];
             tipos_operaciones := [];
             primera_operacion := None;
             ultima_operacion := None |}
  | _ :: _ =>
      let '(tipos, datasets) :=
        foldl (fun '(tipos, datasets) op =>
                 (dict_set String.eqb tipos (operacion op)
                    (default 0 (dict_get String.eqb tipos (operacion op)) + 1),
                  ({[ dataset op ]} ∪ datasets : gset string)))
              ([], ∅)
              (operaciones self) in
      {| total_operaciones := length (operaciones self);
         datasets_usados := elements datasets;
         tipos_operaciones := tipos;
         primera_operacion := timestamp <$> head (operaciones self);
         ultima_operacion := timestamp <$> last (operaciones self) |}
  end.

End RegistroOperaciones.

(** * Data of the scenarios *)

(** Scenario A: the totals "10", "20", "30" in the regions "A", "B", "A". *)
Definition escenario_A : Dataset :=
  {| registros := [ {[ "total" := Some "10"; "region" := Some "A" ]};
                    {[ "total" := Some "20"; "region" := Some "B" ]};
                    {[ "total" := Some "30"; "region" := Some "A" ]} ];
     nombre := "ventas" |}.


(** Data of the other examples. *)
Definition datos_moda_redondeada : Dataset :=
  {| registros := [ {[ "precio" := Some "1.234" ]};
                    {[ "precio" := Some "1.234" ]};
                    {[ "precio" := Some "5" ]} ];
     nombre := "precios" |}.

Definition datos_sin_moda_unica : Dataset :=
  {| registros := [ {[ "precio" := Some "1" ]}; {[ "precio" := Some "2" ]} ];
     nombre := "precios" |}.

Definition datos_total_nulo : Dataset :=
  {| registros := [ {[ "region" := Some "Norte"; "total" := None ]} ];
     nombre := "ventas" |}.

Definition datos_campo_nulo : Dataset :=
  {| registros := [ {[ "nota" := None; "region" := Some "Norte" ]} ];
     nombre := "ventas" |}.

Definition datos_montos_enormes : Dataset :=
  {| registros := [ {[ "monto" := Some "1e308" ]}; {[ "monto" := Some "-1e308" ]} ];
     nombre := "montos" |}.

Definition diario_ejemplo : RegistroOperaciones :=
  RegistroOperaciones.registrar_operacion "2025-01-01 10:00:01" Escrita
    "sales" "filtrar" (Some [("campo", "region")]) "Exitoso"
    (RegistroOperaciones.registrar_operacion "2025-01-01 10:00:00" Escrita
       "sales" "cargar" None "Exitoso" (RegistroOperaciones.crear None)).

(** A store of two record objects, with empty values. *)
Definition objetos_ejemplo : Objetos :=
  {[ 0 := {[ "nota" := None; "region" := Some "Norte" ]};
     1 := {[ "nota" := Some "NULL"; "region" := Some "" ]} ]}.

(** The mode that [analizar()] reports for a field: [None] also when there
    is no result or no numeric entry. *)
Definition moda_reportada `{PyFloat} (campo : string)
    (r : ejecucion (AnalizadorEstadistico.Resultados pyfloat)) : option pyfloat :=
  match r with
  | Retorna res =>
      match AnalizadorEstadistico.campos res !! campo with
      | Some (AnalizadorEstadistico.Numerico e) => AnalizadorEstadistico.moda e
      | _ => None
      end
  | Lanza _ => None
  end.


(** * Vocabulary of the statements *)

(** Equal floats: two zeros, two infinities of one sign, or two finite
    numbers with the same sign, mantissa and exponent. *)
Definition sf_iguales (f1 f2 : spec_float) : Prop :=
  match f1, f2 with
  | S754_zero _, S754_zero _ => True
  | S754_infinity s1, S754_infinity s2 => s1 = s2
  | S754_finite s1 m1 e1, S754_finite s2 m2 e2 => s1 = s2 /\ m1 = m2 /\ e1 = e2
  | _, _ => False
  end.


(** The elements of [l] that do not occur earlier in [l]: the first
    occurrence of each value, in the order of [l]. *)
Definition primeras_apariciones {A : Type} `{EqDecision A} (l : list A) : list A :=
  omap (fun p : nat * A => if decide (p.2 ∈ take p.1 l) then None else Some p.2)
       (imap pair l).

(** The value of [campo] in [r] is text that [float] accepts, and the number
    lies in the closed interval from [minimo] to [maximo]. *)
Definition en_rango `{PyFloat} (campo : string) (minimo maximo : pyfloat)
    (r : Registro) : Prop :=
  exists (valor : string) (x : pyfloat),
    Registro.obtener_campo r campo = Some valor
    /\ float_of_str valor = Some x
    /\ fleb minimo x = true /\ fleb x maximo = true.

(** [r1] may stand before [r2] in the order of [ordenar(campo, reverso)]. *)
Definition en_orden (campo : string) (reverso : bool) (r1 r2 : Registro) : Prop :=
  if reverso
  then String.leb (Dataset.clave_orden campo r2) (Dataset.clave_orden campo r1) = true
  else String.leb (Dataset.clave_orden campo r1) (Dataset.clave_orden campo r2) = true.

(** The numbers that [float] accepts among the values of [campo] in the
    records [l], in order, and their sum from left to right starting at 0. *)
Definition valores_coercibles `{PyFloat} (campo : string) (l : list Registro)
  : list pyfloat :=
  omap (fun r => Registro.obtener_campo r campo ≫= float_of_str) l.

Definition suma_flotantes `{PyFloat} (xs : list pyfloat) : pyfloat :=
  foldl fadd fzero xs.

(** The records of [l] whose value of [campo] is the text [v]. *)
Definition con_valor (campo v : string) (l : list Registro) : list Registro :=
  filter (fun r => Registro.obtener_campo r campo = Some v) l.

(** The records of [l] that the sales analyzer adds to the group [k]: their
    value of [campo_agrupacion] is [k] and their value of [campo_suma] is
    neither [None] nor the empty text. *)
Definition aportan (campo_agrupacion campo_suma k : string) (l : list Registro)
  : list Registro :=
  filter (fun r => Registro.obtener_campo r campo_agrupacion = Some k
                   /\ py_truthy (Registro.obtener_campo r campo_suma)) l.

(** How the sums [sumas] that the sales analyzer reports for the grouping
    field [campo] relate to the totals of the transformer: every reported
    sum is the transformer's total for that key; the reported keys are the
    non-empty ones with a record whose 'total' is neither [None] nor empty;
    and the two maps are equal when every grouped record has a non-empty
    key and such a 'total'. *)
Definition sumas_coinciden `{PyFloat} (campo : string) (d : Dataset)
    (sumas : list (string * pyfloat)) : Prop :=
  (list_to_map sumas : gmap string pyfloat)
    ⊆ Transformador.calcular_totales_por_grupo campo "total" d
  /\ (forall k, is_Some ((list_to_map sumas : gmap string pyfloat) !! k)
                <-> k <> "" /\ aportan campo "total" k (registros d) <> [])
  /\ ((forall r k, r ∈ registros d -> Registro.obtener_campo r campo = Some k ->
          k <> "" /\ py_truthy (Registro.obtener_campo r "total"))
      -> (list_to_map sumas : gmap string pyfloat)
         = Transformador.calcular_totales_por_grupo campo "total" d).

(** How often the element [x] of [l] occurs in [l] as a dictionary key:
    the number of elements equal to it, and once when [x] is not equal to
    itself (a NaN is a key of its own at each occurrence). *)
Definition frecuencia {K : Type} (eqk : K -> K -> bool) (x : K) (l : list K) : nat :=
  if eqk x x then length (filter (fun y => eqk y x = true) l) else 1.

(** How often the text [s] occurs in [l]. *)
Definition veces (s : string) (l : list string) : nat :=
  length (filter (fun y => y = s) l).

(** What the categorical statistics [e] say of the values [valores]: their
    count, the count of the distinct ones, the frequency of each, and a
    most frequent value, with its frequency unless it is the empty text. *)
Definition categoricas_de (valores : list string)
    (e : AnalizadorEstadistico.EstadisticasCategoricas) : Prop :=
  AnalizadorEstadistico.cat_total_valores e = length valores
  /\ (exists distintos, NoDup distintos /\ (forall s, s ∈ distintos <-> s ∈ valores)
        /\ AnalizadorEstadistico.valores_unicos e = length distintos)
  /\ (forall s, dict_get String.eqb (AnalizadorEstadistico.distribucion e) s
                = if decide (s ∈ valores) then Some (veces s valores) else None)
  /\ (exists m, AnalizadorEstadistico.valor_mas_comun e = Some m /\ m ∈ valores
        /\ (forall s, veces s valores <= veces m valores)
        /\ (m <> "" -> AnalizadorEstadistico.frecuencia_mas_comun e = veces m valores)).

(** The four functions of [statistics] that the numeric statistics call
    return on [valores]. *)
Definition biblioteca_retorna `{PyFloat} (valores : list pyfloat) : Prop :=
  exists media med de var,
    stat_mean valores = Retorna media /\ stat_median valores = Retorna med
    /\ stat_stdev valores = Retorna de /\ stat_variance valores = Retorna var.

(** The numbers among the values of a field: those that [float] accepts. *)
Definition valores_numericos `{PyFloat} (campo : string) (d : Dataset) : list pyfloat :=
  omap float_of_str (Dataset.obtener_valores_campo campo d).

(** [analizar()] returned a result that has no entry for [campo]. *)
Definition sin_entrada `{PyFloat} (campo : string)
    (r : ejecucion (AnalizadorEstadistico.Resultados pyfloat)) : bool :=
  match r with
  | Retorna res =>
      match AnalizadorEstadistico.campos res !! campo with
      | None => true
      | Some _ => false
      end
  | Lanza _ => false
  end.

(** The record has data: one of its fields holds a text other than the
    empty one and "NULL". *)
Definition con_datos (r : Registro) : Prop :=
  exists k s, r !! k = Some (Some s) /\ s <> "" /\ s <> "NULL".

(** [campo] is one of the fields that [limpiar_valores_nulos(campos, ...)]
    looks at: every field when [campos] is left out or empty. *)
Definition campo_elegido (campos : option (list string)) (campo : string) : Prop :=
  match campos with
  | Some (c :: resto) => campo ∈ c :: resto
  | _ => True
  end.

#[global] Instance campo_elegido_dec (campos : option (list string)) (campo : string)
  : Decision (campo_elegido campos campo) :=
  match campos as campos' return Decision (campo_elegido campos' campo) with
  | Some (c :: resto) => decide (campo ∈ c :: resto)
  | Some [] => left I
  | None => left I
  end.

(** The fields of a record once the empty values of the chosen fields are
    replaced. *)
Definition limpiar_datos (campos : option (list string)) (valor_reemplazo : option string)
    (datos : Registro) : Registro :=
  map_imap (fun campo valor =>
              Some (if decide (campo_elegido campos campo /\ Registro.es_vacio valor = true)
                    then valor_reemplazo else valor))
           datos.

(** [campo] is a field of [datos] with an empty value. *)
Definition campo_vacio (datos : Registro) (campo : string) : bool :=
  match datos !! campo with
  | Some valor => Registro.es_vacio valor
  | None => false
  end.

(** The number of replacements in one record: its empty fields, or the
    entries of [campos] that name an empty field. *)
Definition vacios_elegidos (campos : option (list string)) (datos : Registro) : nat :=
  match campos with
  | Some (c :: resto) =>
      length (filter (fun campo => campo ∈ Registro.obtener_campos_vacios datos) (c :: resto))
  | _ => length (Registro.obtener_campos_vacios datos)
  end.

(** The fields that one turn of the loop of [limpiar_valores_nulos] goes
    through, and the effect of the turn on the store and on the count. *)
Definition campos_a_limpiar (campos : option (list string)) (datos : Registro)
  : list string :=
  match campos with
  | Some (campo :: resto) => campo :: resto
  | _ => (map_to_list datos).*1
  end.

Definition paso_registro (campos : option (list string)) (valor_reemplazo : option string)
    '((objetos, reemplazos) : Objetos * nat) (registro : nat) : Objetos * nat :=
  match objetos !! registro with
  | None => (objetos, reemplazos)
  | Some datos =>
      (<[registro := limpiar_datos campos valor_reemplazo datos]> objetos,
       reemplazos + length (filter (fun campo => campo_vacio datos campo = true)
                              (campos_a_limpiar campos datos)))
  end.

(** The call returned. *)
Definition es_retorna {A : Type} (x : ejecucion A) : bool :=
  match x with
  | Retorna _ => true
  | Lanza _ => false
  end.

(** A call of [registrar_operacion]: its arguments, the text of the clock
    and the outcome of the write to the file. *)
Record Llamada : Type := {
  ll_ahora : string;
  ll_escritura : escritura;
  ll_dataset : string;
  ll_operacion : string;
  ll_parametros : option (list (string * string));
  ll_resultado : string;
}.

(** The operation that the call appends to the journal. *)
Definition operacion_de (ll : Llamada) : Operacion :=
  {| timestamp := ll_ahora ll; dataset := ll_dataset ll; operacion := ll_operacion ll;
     parametros := default [] (ll_parametros ll); resultado := ll_resultado ll |}.

(** The calls in turn. *)
Definition registrar_llamadas (lls : list Llamada) (j : RegistroOperaciones)
  : RegistroOperaciones :=
  foldl (fun j ll =>
           RegistroOperaciones.registrar_operacion (ll_ahora ll) (ll_escritura ll)
             (ll_dataset ll) (ll_operacion ll) (ll_parametros ll) (ll_resultado ll) j)
        j lls.

(** * Properties *)

(** ** Dataset *)

Lemma registros_agregar_registros (nuevos : list Registro) (d : Dataset) :
  registros (Dataset.agregar_registros nuevos d) = registros d ++ nuevos.
Proof.
  unfold Dataset.agregar_registros.
  revert d; induction nuevos as [|r nuevos IH]; intros d; simpl.
  - by rewrite app_nil_r.
  - rewrite IH; simpl. by rewrite <- app_assoc.
Qed.

Lemma nombre_agregar_registros (nuevos : list Registro) (d : Dataset) :
  nombre (Dataset.agregar_registros nuevos d) = nombre d.
Proof.
  unfold Dataset.agregar_registros.
  revert d; induction nuevos as [|r nuevos IH]; intros d; simpl; [done|].
  by rewrite IH.
Qed.

Section Filtrar.
  Variable condicion : Registro -> bool.

Let paso (df : Dataset) (r : Registro) : Dataset :=
  if condicion r then Dataset.agregar_registro r df else df.

Lemma filtrar_foldl (l : list Registro) (df : Dataset) :
  registros (foldl paso df l) = registros df ++ List.filter condicion l
  /\ nombre (foldl paso df l) = nombre df.
Proof.
  revert df; induction l as [|r l IH]; intros df; simpl.
  - by rewrite app_nil_r.
  - destruct (IH (paso df r)) as [IHr IHn]. rewrite IHr, IHn.
    unfold paso. destruct (condicion r); simpl; [|done].
    by rewrite <- app_assoc.
Qed.

Lemma registros_filtrar (d : Dataset) :
  registros (Dataset.filtrar condicion d) = List.filter condicion (registros d).
Proof.
  exact (proj1 (filtrar_foldl (registros d) (Dataset.nuevo (nombre d ++ "_filtrado")%string))).
Qed.

Lemma nombre_filtrar (d : Dataset) :
  nombre (Dataset.filtrar condicion d) = (nombre d ++ "_filtrado")%string.
Proof.
  exact (proj2 (filtrar_foldl (registros d) (Dataset.nuevo (nombre d ++ "_filtrado")%string))).
Qed.

End Filtrar.

Lemma sublist_list_filter {A : Type} (p : A -> bool) (l : list A) :
  sublist (List.filter p l) l.
Proof.
  induction l as [|x l IH]; simpl; [constructor|].
  destruct (p x); by constructor.
Qed.

Lemma elem_of_list_filter {A : Type} (p : A -> bool) (l : list A) (x : A) :
  x ∈ List.filter p l <-> x ∈ l /\ p x = true.
Proof. rewrite !list_elem_of_In. apply filter_In. Qed.

(** C5. [D.filtrar(P)] is a new dataset holding exactly the records of [D]
    that satisfy [P], in their original relative order; its record count is
    the number of records of [D] that satisfy [P]. [D] itself is a value:
    the call returns no changed copy of it. *)
Theorem filtrar_exacto (condicion : Registro -> bool) (d : Dataset) :
  registros (Dataset.filtrar condicion d) = List.filter condicion (registros d)
  /\ Dataset.cantidad_registros (Dataset.filtrar condicion d)
     = length (List.filter condicion (registros d))
  /\ (forall r, r ∈ registros (Dataset.filtrar condicion d)
                <-> r ∈ registros d /\ condicion r = true)
  /\ sublist (registros (Dataset.filtrar condicion d)) (registros d)
  /\ nombre (Dataset.filtrar condicion d) = (nombre d ++ "_filtrado")%string.
Proof.
  unfold Dataset.cantidad_registros. rewrite registros_filtrar, nombre_filtrar.
  split_and!; try done.
  - intros r. apply elem_of_list_filter.
  - apply sublist_list_filter.
Qed.

(** ** Transformador: numeric range *)

Section RangoNumerico.
  Context `{PyFloat}.

(** C8. [filtrar_por_rango_numerico(campo, minimo, maximo)] returns (it
    cannot raise) the dataset of exactly the records whose value of [campo]
    coerces to a number within the closed interval, in their original
    order; a record whose value is absent or does not coerce is left out. *)
Theorem filtrar_por_rango_numerico_exacto (campo : string) (minimo maximo : pyfloat)
    (d : Dataset) :
  (forall r, r ∈ registros (Transformador.filtrar_por_rango_numerico campo minimo maximo d)
             <-> r ∈ registros d /\ en_rango campo minimo maximo r)
  /\ sublist (registros (Transformador.filtrar_por_rango_numerico campo minimo maximo d))
             (registros d)
  /\ (forall r, Registro.obtener_campo r campo = None ->
        r ∉ registros (Transformador.filtrar_por_rango_numerico campo minimo maximo d))
  /\ (forall r valor, Registro.obtener_campo r campo = Some valor ->
        float_of_str valor = None ->
        r ∉ registros (Transformador.filtrar_por_rango_numerico campo minimo maximo d)).
Proof.
  unfold Transformador.filtrar_por_rango_numerico. rewrite registros_filtrar.
  assert (Hiff : forall r,
    r ∈ List.filter (fun registro =>
           match Registro.obtener_campo registro campo with
           | None => false
           | Some valor =>
               match float_of_str valor with
               | Some valor_num => fleb minimo valor_num && fleb valor_num maximo
               | None => false
               end
           end) (registros d)
    <-> r ∈ registros d /\ en_rango campo minimo maximo r).
  { intros r. rewrite elem_of_list_filter. unfold en_rango. split.
    - intros [Hin Hc]. split; [done|].
      destruct (Registro.obtener_campo r campo) as [valor|]; [|done].
      destruct (float_of_str valor) as [x|] eqn:Hx; [|done].
      apply andb_true_iff in Hc as [? ?]. by exists valor, x.
    - intros [Hin (valor & x & -> & -> & H1 & H2)]. split; [done|].
      by rewrite H1, H2. }
  split_and!.
  - done.
  - apply sublist_list_filter.
  - intros r Hr (_ & valor & x & Hv & _)%Hiff. congruence.
  - intros r valor Hr Hf (_ & valor' & x & Hv & Hx & _)%Hiff. congruence.
Qed.

End RangoNumerico.

(** ** RegistroOperaciones *)

Lemma py_slice_from_neg {A : Type} (n : Z) (l : list A) :
  (1 <= n <= Z.of_nat (length l))%Z ->
  py_slice_from (- n) l = drop (length l - Z.to_nat n) l.
Proof.
  intros Hn. unfold py_slice_from, py_slice_bound.
  destruct (Z.ltb_spec (- n) 0); [|lia].
  f_equal. lia.
Qed.

Lemma operaciones_registrar_operacion ahora e ds op p r (j : RegistroOperaciones) :
  operaciones (RegistroOperaciones.registrar_operacion ahora e ds op p r j)
  = operaciones j ++ [ {| timestamp := ahora; dataset := ds; operacion := op;
                          parametros := default [] p; resultado := r |} ].
Proof. by destruct e. Qed.

Lemma ultimas_n_drop (n : Z) (j : RegistroOperaciones) :
  (1 <= n)%Z ->
  RegistroOperaciones.obtener_ultimas_n_operaciones n j
  = drop (length (operaciones j) - Nat.min (Z.to_nat n) (length (operaciones j)))
         (operaciones j).
Proof.
  intros Hn. unfold RegistroOperaciones.obtener_ultimas_n_operaciones.
  destruct (Z.leb_spec n (Z.of_nat (length (operaciones j)))) as [Hle|Hgt].
  - rewrite py_slice_from_neg by lia. f_equal. lia.
  - replace (length (operaciones j) - _) with 0 by lia. done.
Qed.

(** C9. For [n >= 1], [obtener_ultimas_n_operaciones(n)] returns the last
    [min(n, m)] of the [m] recorded operations, in the order in which they
    were appended; after two operations were recorded for the dataset
    "sales", [n = 1] gives exactly the second one. *)
Theorem ultimas_n_operaciones (n : Z) (j : RegistroOperaciones) :
  (1 <= n)%Z ->
  RegistroOperaciones.obtener_ultimas_n_operaciones n j
  = drop (length (operaciones j) - Nat.min (Z.to_nat n) (length (operaciones j)))
         (operaciones j)
  /\ length (RegistroOperaciones.obtener_ultimas_n_operaciones n j)
     = Nat.min (Z.to_nat n) (length (operaciones j))
  /\ (forall ahora1 e1 op1 p1 r1 ahora2 e2 op2 p2 r2,
        RegistroOperaciones.obtener_ultimas_n_operaciones 1
          (RegistroOperaciones.registrar_operacion ahora2 e2 "sales" op2 p2 r2
             (RegistroOperaciones.registrar_operacion ahora1 e1 "sales" op1 p1 r1 j))
        = [ {| timestamp := ahora2; dataset := "sales"; operacion := op2;
               parametros := default [] p2; resultado := r2 |} ]).
Proof.
  intros Hn. split_and!.
  - by apply ultimas_n_drop.
  - rewrite ultimas_n_drop, length_drop by done. lia.
  - intros. rewrite ultimas_n_drop by lia.
    rewrite operaciones_registrar_operacion, length_app.
    set (l := operaciones _). simpl length.
    replace (length l + 1 - Nat.min (Z.to_nat 1) (length l + 1)) with (length l) by lia.
    by rewrite drop_app_length.
Qed.

(** C10. On a journal that is not empty, [obtener_ultimas_n_operaciones(0)]
    returns all the recorded operations, not an empty list. *)
Theorem ultimas_cero_operaciones (j : RegistroOperaciones) :
  operaciones j <> [] ->
  RegistroOperaciones.obtener_ultimas_n_operaciones 0 j = operaciones j
  /\ RegistroOperaciones.obtener_ultimas_n_operaciones 0 j <> [].
Proof.
  intros Hne.
  assert (Heq : RegistroOperaciones.obtener_ultimas_n_operaciones 0 j = operaciones j).
  { unfold RegistroOperaciones.obtener_ultimas_n_operaciones.
    destruct (Z.leb_spec 0 (Z.of_nat (length (operaciones j)))); [|lia].
    unfold py_slice_from, py_slice_bound.
    change (- 0)%Z with 0%Z. change (0 <? 0)%Z with false. cbv iota.
    replace (Z.to_nat (Z.min 0 (Z.of_nat (length (operaciones j))))) with 0 by lia.
    done. }
  by rewrite Heq.
Qed.

(** ** Limpiador: duplicates *)

Lemma Dataset_eq (a b : Dataset) :
  registros a = registros b -> nombre a = nombre b -> a = b.
Proof. destruct a, b; simpl; congruence. Qed.

Lemma omap_ext_in {A B : Type} (f g : A -> option B) (l : list A) :
  (forall x, x ∈ l -> f x = g x) -> omap f l = omap g l.
Proof.
  induction l as [|x l IH]; intros Hfg; [done|]. csimpl.
  rewrite (Hfg x) by apply list_elem_of_here.
  rewrite IH; [done|]. intros y Hy. apply Hfg. by apply list_elem_of_further.
Qed.

Section PrimerasApariciones.
  Context {A : Type} `{EqDecision A}.

Lemma primeras_apariciones_snoc (l : list A) (x : A) :
  primeras_apariciones (l ++ [x])
  = primeras_apariciones l ++ (if decide (x ∈ l) then [] else [x]).
Proof.
  unfold primeras_apariciones. rewrite imap_app, omap_app. f_equal.
  - apply omap_ext_in. intros [i y] Hin; simpl.
    apply list_elem_of_lookup in Hin as [k Hk].
    rewrite list_lookup_imap in Hk.
    destruct (l !! k) eqn:Hl; simplify_eq/=.
    apply lookup_lt_Some in Hl.
    by rewrite take_app_le by lia.
  - simpl. rewrite Nat.add_0_r, take_app_length.
    by destruct (decide (x ∈ l)).
Qed.

Lemma primeras_apariciones_nil : primeras_apariciones (@nil A) = [].
Proof. done. Qed.

Lemma elem_of_primeras_apariciones (l : list A) (x : A) :
  x ∈ primeras_apariciones l <-> x ∈ l.
Proof.
  induction l as [|y l IH] using rev_ind; [done|].
  rewrite primeras_apariciones_snoc, !elem_of_app, IH.
  destruct (decide (y ∈ l)) as [Hin|Hnin]; [|done].
  rewrite elem_of_nil, list_elem_of_singleton. split; [tauto|].
  intros [?| ->]; by left.
Qed.

Lemma NoDup_primeras_apariciones (l : list A) : NoDup (primeras_apariciones l).
Proof.
  induction l as [|y l IH] using rev_ind; [constructor|].
  rewrite primeras_apariciones_snoc.
  destruct (decide (y ∈ l)) as [Hin|Hnin]; [by rewrite app_nil_r|].
  apply NoDup_app. split_and!; [done| |apply NoDup_singleton].
  intros x Hx Hy. apply (proj1 (elem_of_primeras_apariciones l x)) in Hx.
  apply list_elem_of_singleton in Hy. subst x. by apply Hnin.
Qed.

Lemma sublist_primeras_apariciones (l : list A) : sublist (primeras_apariciones l) l.
Proof.
  induction l as [|y l IH] using rev_ind; [constructor|].
  rewrite primeras_apariciones_snoc. apply sublist_app; [done|].
  destruct (decide (y ∈ l)); [apply sublist_nil_l|done].
Qed.

Lemma primeras_apariciones_NoDup (l : list A) :
  NoDup l -> primeras_apariciones l = l.
Proof.
  induction l as [|y l IH] using rev_ind; [done|].
  intros (Hl & Hy & _)%NoDup_app. rewrite primeras_apariciones_snoc, IH by done.
  destruct (decide (y ∈ l)) as [Hin|]; [|done].
  exfalso. apply (Hy y Hin). by apply list_elem_of_singleton.
Qed.

End PrimerasApariciones.

Lemma bucle_duplicados (l : list Registro) :
  foldl (fun '(registros_unicos, duplicados) registro =>
           if bool_decide (registro ∈ registros_unicos)
           then (registros_unicos, duplicados + 1)
           else (registros_unicos ++ [registro], duplicados))
        ([], 0) l
  = (primeras_apariciones l, length l - length (primeras_apariciones l)).
Proof.
  induction l as [|r l IH] using rev_ind; [done|].
  rewrite foldl_app, IH. simpl.
  rewrite primeras_apariciones_snoc.
  pose proof (sublist_length _ _ (sublist_primeras_apariciones l)) as Hlen.
  rewrite bool_decide_decide.
  destruct (decide (r ∈ primeras_apariciones l)) as [Hin|Hnin].
  - rewrite decide_True by (by apply elem_of_primeras_apariciones).
    rewrite app_nil_r, length_app. simpl. f_equal. lia.
  - rewrite decide_False by (by rewrite <- elem_of_primeras_apariciones).
    rewrite !length_app. simpl. f_equal. lia.
Qed.

Lemma eliminar_duplicados_eq (d : Dataset) :
  Limpiador.eliminar_duplicados d
  = ({| registros := primeras_apariciones (registros d); nombre := nombre d |},
     length (registros d) - length (primeras_apariciones (registros d))).
Proof.
  unfold Limpiador.eliminar_duplicados, Dataset.obtener_registros.
  rewrite bucle_duplicados. f_equal.
  apply Dataset_eq.
  - by rewrite registros_agregar_registros.
  - by rewrite nombre_agregar_registros.
Qed.

(** C7. [eliminar_duplicados()] keeps the first occurrence of every record
    and drops the later equal ones, keeping the order, and returns the
    number of records dropped; a second call right after it returns 0 and
    leaves the dataset as it is. *)
Theorem eliminar_duplicados_idempotente (d : Dataset) :
  registros (Limpiador.eliminar_duplicados d).1 = primeras_apariciones (registros d)
  /\ NoDup (registros (Limpiador.eliminar_duplicados d).1)
  /\ (forall r, r ∈ registros (Limpiador.eliminar_duplicados d).1 <-> r ∈ registros d)
  /\ sublist (registros (Limpiador.eliminar_duplicados d).1) (registros d)
  /\ (Limpiador.eliminar_duplicados d).2
     = length (registros d) - length (registros (Limpiador.eliminar_duplicados d).1)
  /\ Limpiador.eliminar_duplicados (Limpiador.eliminar_duplicados d).1
     = ((Limpiador.eliminar_duplicados d).1, 0).
Proof.
  rewrite eliminar_duplicados_eq. simpl. split_and!.
  - done.
  - apply NoDup_primeras_apariciones.
  - intros r. apply elem_of_primeras_apariciones.
  - apply sublist_primeras_apariciones.
  - done.
  - rewrite eliminar_duplicados_eq. simpl.
    rewrite primeras_apariciones_NoDup by apply NoDup_primeras_apariciones.
    by rewrite Nat.sub_diag.
Qed.

(** ** Sorting *)

Section OrdenEstable.
  Context {A K : Type} (ltk : K -> K -> bool) (key : A -> K).
  Hypothesis ltk_asym : forall a b, ltk a b = true -> ltk b a = false.

(** [x] may stand before [y]: the key of [y] is not below the key of [x]. *)
Let antes (x y : A) : Prop := ltk (key y) (key x) = false.

Lemma sort_insert_Permutation (x : A) (l : list A) :
  sort_insert ltk key x l ≡ₚ x :: l.
Proof.
  induction l as [|y l IH]; simpl; [done|].
  destruct (ltk (key y) (key x)); [|done].
  rewrite IH. apply Permutation_swap.
Qed.

Lemma stable_sort_Permutation (l : list A) : stable_sort ltk key l ≡ₚ l.
Proof.
  induction l as [|x l IH]; simpl; [done|].
  by rewrite sort_insert_Permutation, IH.
Qed.

Lemma sort_insert_HdRel (a x : A) (l : list A) :
  antes a x -> HdRel antes a l -> HdRel antes a (sort_insert ltk key x l).
Proof.
  intros Hax Hal. destruct l as [|y l]; simpl; [by constructor|].
  destruct (ltk (key y) (key x)); constructor; [|done].
  by inversion Hal.
Qed.

Lemma sort_insert_Sorted (x : A) (l : list A) :
  Sorted antes l -> Sorted antes (sort_insert ltk key x l).
Proof.
  induction 1 as [|y l Hl IH Hhd]; simpl; [by repeat constructor|].
  destruct (ltk (key y) (key x)) eqn:Hyx.
  - constructor; [done|]. apply sort_insert_HdRel; [|done].
    by apply ltk_asym.
  - constructor; [by constructor|]. by constructor.
Qed.

Lemma stable_sort_Sorted (l : list A) : Sorted antes (stable_sort ltk key l).
Proof.
  induction l as [|x l IH]; simpl; [constructor|].
  by apply sort_insert_Sorted.
Qed.

(** Stability: elements none of which is below another keep their order. *)
Section Estable.
  Context (P : A -> Prop) `{forall x, Decision (P x)}.
  Hypothesis P_clase : forall a b, P a -> P b -> ltk (key a) (key b) = false.

Lemma filter_sort_insert (x : A) (l : list A) :
  filter P (sort_insert ltk key x l) = filter P (x :: l).
Proof.
  induction l as [|y l IH]; simpl; [done|].
  destruct (ltk (key y) (key x)) eqn:Hyx; [|done].
  rewrite (filter_cons _ y), IH, !filter_cons.
  destruct (decide (P y)) as [Hy|Hy], (decide (P x)) as [Hx|Hx]; try done.
  rewrite (P_clase y x Hy Hx) in Hyx. done.
Qed.

Lemma filter_stable_sort (l : list A) :
  filter P (stable_sort ltk key l) = filter P l.
Proof.
  induction l as [|x l IH]; simpl; [done|].
  by rewrite filter_sort_insert, !filter_cons, IH.
Qed.

Lemma filter_py_sort (descending : bool) (l : list A) :
  filter P (py_sort ltk key descending l) = filter P l.
Proof.
  unfold py_sort. destruct descending; [|apply filter_stable_sort].
  by rewrite filter_reverse, filter_stable_sort, filter_reverse, reverse_involutive.
Qed.

End Estable.

Lemma py_sort_Permutation (descending : bool) (l : list A) :
  py_sort ltk key descending l ≡ₚ l.
Proof.
  unfold py_sort. destruct descending; [|apply stable_sort_Permutation].
  by rewrite reverse_Permutation, stable_sort_Permutation, reverse_Permutation.
Qed.

Lemma py_sort_Sorted (descending : bool) (l : list A) :
  Sorted (if descending then flip antes else antes) (py_sort ltk key descending l).
Proof.
  unfold py_sort. destruct descending; [|apply stable_sort_Sorted].
  apply Sorted_reverse, stable_sort_Sorted.
Qed.

End OrdenEstable.

(** The order on text. *)
Lemma string_leb_trans (a b c : string) :
  String.leb a b = true -> String.leb b c = true -> String.leb a c = true.
Proof.
  unfold String.leb. revert b c.
  induction a as [|x a IH]; intros [|y b] [|z c]; simpl; try done.
  unfold Ascii.compare.
  destruct (N.compare_spec (N_of_ascii x) (N_of_ascii y)) as [Hxy|Hxy|Hxy];
    destruct (N.compare_spec (N_of_ascii y) (N_of_ascii z)) as [Hyz|Hyz|Hyz];
    destruct (N.compare_spec (N_of_ascii x) (N_of_ascii z)) as [Hxz|Hxz|Hxz];
    try done; try lia.
  apply IH.
Qed.

Lemma string_ltb_leb (a b : string) :
  String.ltb b a = false <-> String.leb a b = true.
Proof.
  unfold String.ltb, String.leb. rewrite (String.compare_antisym a b).
  by destruct (String.compare b a).
Qed.

Lemma string_ltb_asym (a b : string) :
  String.ltb a b = true -> String.ltb b a = false.
Proof.
  unfold String.ltb. rewrite (String.compare_antisym b a).
  by destruct (String.compare a b).
Qed.

Lemma string_ltb_irrefl (a : string) : String.ltb a a = false.
Proof.
  destruct (String.ltb a a) eqn:Hlt; [|done].
  by rewrite (string_ltb_asym a a Hlt) in Hlt.
Qed.

Lemma Sorted_mono {A : Type} (R R' : A -> A -> Prop) (l : list A) :
  (forall x y, R x y -> R' x y) -> Sorted R l -> Sorted R' l.
Proof.
  intros HR. induction 1 as [|x l Hl IH Hhd]; constructor; [done|].
  destruct Hhd; constructor. by apply HR.
Qed.

(** The key is the value of the field as text, and the empty text when the
    field is absent or holds [None]. *)
Lemma clave_orden_default (campo : string) (r : Registro) :
  Dataset.clave_orden campo r = default "" (Registro.obtener_campo r campo).
Proof.
  unfold Dataset.clave_orden.
  destruct (Registro.obtener_campo r campo) as [s|]; simpl; [|done].
  destruct (String.eqb_spec s ""); simpl; congruence.
Qed.

(** C4. [ordenar(campo, reverso)] reorders the records of the dataset: the
    result is a permutation of them, ordered by the text of the field (the
    empty text for an absent value), ascending or, with [reverso], descending;
    records with the same key keep their relative order. *)
Theorem ordenar_estable (campo : string) (reverso : bool) (d : Dataset) :
  registros (Dataset.ordenar campo reverso d) ≡ₚ registros d
  /\ StronglySorted (en_orden campo reverso) (registros (Dataset.ordenar campo reverso d))
  /\ (forall k : string,
        filter (fun r => Dataset.clave_orden campo r = k)
               (registros (Dataset.ordenar campo reverso d))
        = filter (fun r => Dataset.clave_orden campo r = k) (registros d))
  /\ (forall r, Dataset.clave_orden campo r
                = default "" (Registro.obtener_campo r campo))
  /\ nombre (Dataset.ordenar campo reverso d) = nombre d.
Proof.
  simpl. split_and!.
  - apply py_sort_Permutation.
  - apply Sorted_StronglySorted.
    { intros r1 r2 r3. unfold en_orden. destruct reverso; eauto using string_leb_trans. }
    pose proof (py_sort_Sorted String.ltb (Dataset.clave_orden campo)
                  string_ltb_asym reverso (registros d)) as Hs.
    eapply Sorted_mono; [|exact Hs].
    intros r1 r2. unfold en_orden. destruct reverso; simpl; apply string_ltb_leb.
  - intros k. apply filter_py_sort.
    intros a b -> ->. apply string_ltb_irrefl.
  - apply clave_orden_default.
  - done.
Qed.

(** ** Transformador: groups and totals *)

Lemma foldl_insert_lookup {V : Type} (g : string -> V) (l : list string)
    (m : gmap string V) (k : string) :
  foldl (fun m v => <[v := g v]> m) m l !! k
  = if decide (k ∈ l) then Some (g k) else m !! k.
Proof.
  revert m; induction l as [|v l IH]; intros m.
  - destruct (decide (k ∈ [])) as [Hin|]; [by apply elem_of_nil in Hin|done].
  - change (foldl _ m (v :: l)) with (foldl (fun m v => <[v := g v]> m) (<[v := g v]> m) l).
    rewrite IH. destruct (decide (k ∈ l)) as [Hin|Hnin].
    + by rewrite decide_True by (by apply list_elem_of_further).
    + destruct (decide (k = v)) as [->|Hne].
      * rewrite lookup_insert_eq. by rewrite decide_True by apply list_elem_of_here.
      * rewrite lookup_insert_ne by done.
        rewrite decide_False; [done|].
        by intros [?|?]%elem_of_cons.
Qed.

Lemma foldl_insert_items {V W : Type} (h : V -> W) (l : list (string * V))
    (m : gmap string W) :
  NoDup l.*1 ->
  foldl (fun m '(k, x) => <[k := h x]> m) m l
  = (h <$> (list_to_map l : gmap string V)) ∪ m.
Proof.
  revert m; induction l as [|[k x] l IH]; intros m Hnd.
  - by rewrite list_to_map_nil, fmap_empty, (left_id_L ∅ (∪)).
  - rewrite fmap_cons in Hnd. apply NoDup_cons in Hnd as [Hk Hnd]. simpl in Hk.
    rewrite list_to_map_cons, fmap_insert.
    change (foldl _ m ((k, x) :: l))
      with (foldl (fun m '(k, x) => <[k := h x]> m) (<[k := h x]> m) l).
    rewrite IH by done. apply map_eq. intros k'.
    rewrite !lookup_union, lookup_fmap.
    destruct (decide (k = k')) as [<-|Hne].
    + rewrite !lookup_insert_eq.
      rewrite (not_elem_of_list_to_map_1 l k) by done.
      by destruct (m !! k).
    + rewrite !lookup_insert_ne by done. by rewrite lookup_fmap.
Qed.

Section Totales.
  Context `{PyFloat}.

Lemma registros_filtrar_por_campo (campo : string) (v : string) (d : Dataset) :
  registros (Transformador.filtrar_por_campo campo (Some v) d)
  = con_valor campo v (registros d).
Proof.
  unfold Transformador.filtrar_por_campo, con_valor. rewrite registros_filtrar.
  induction (registros d) as [|r l IH]; simpl; [done|].
  rewrite filter_cons, bool_decide_decide.
  destruct (decide _); by rewrite IH.
Qed.

Lemma agrupar_por_campo_lookup (campo : string) (d : Dataset) (v : string) :
  Transformador.agrupar_por_campo campo d !! v
  = if decide (v ∈ Dataset.obtener_valores_campo campo d)
    then Some (Transformador.filtrar_por_campo campo (Some v) d)
    else None.
Proof.
  unfold Transformador.agrupar_por_campo, Dataset.obtener_valores_unicos.
  rewrite (foldl_insert_lookup
             (fun v => Transformador.filtrar_por_campo campo (Some v) d)).
  rewrite lookup_empty.
  destruct (decide (v ∈ elements _)) as [Hin|Hnin].
  - apply elem_of_elements, elem_of_list_to_set in Hin. by rewrite decide_True.
  - rewrite decide_False; [done|]. intros Hin. apply Hnin.
    by apply elem_of_elements, elem_of_list_to_set.
Qed.

Lemma sumar_campo_suma (campo_suma : string) (grupo : list Registro) :
  Transformador.sumar_campo campo_suma grupo
  = suma_flotantes (valores_coercibles campo_suma grupo).
Proof.
  unfold Transformador.sumar_campo, suma_flotantes, valores_coercibles.
  generalize fzero. induction grupo as [|r l IH]; intros total; csimpl; [done|].
  rewrite IH. destruct (Registro.obtener_campo r campo_suma) as [v|]; csimpl; [|done].
  by destruct (float_of_str v).
Qed.

Lemma calcular_totales_por_grupo_fmap (campo_agrupacion campo_suma : string) (d : Dataset) :
  Transformador.calcular_totales_por_grupo campo_agrupacion campo_suma d
  = (fun g => round2 (Transformador.sumar_campo campo_suma (Dataset.obtener_registros g)))
    <$> Transformador.agrupar_por_campo campo_agrupacion d.
Proof.
  unfold Transformador.calcular_totales_por_grupo.
  rewrite (foldl_insert_items
             (fun g => round2 (Transformador.sumar_campo campo_suma (Dataset.obtener_registros g))))
    by apply NoDup_fst_map_to_list.
  by rewrite list_to_map_to_list, (right_id_L ∅ (∪)).
Qed.

Lemma calcular_totales_por_grupo_lookup (campo_agrupacion campo_suma : string)
    (d : Dataset) (v : string) :
  Transformador.calcular_totales_por_grupo campo_agrupacion campo_suma d !! v
  = if decide (v ∈ Dataset.obtener_valores_campo campo_agrupacion d)
    then Some (round2 (suma_flotantes
                 (valores_coercibles campo_suma
                    (con_valor campo_agrupacion v (registros d)))))
    else None.
Proof.
  rewrite calcular_totales_por_grupo_fmap, lookup_fmap, agrupar_por_campo_lookup.
  destruct (decide _); simpl; [|done].
  unfold Dataset.obtener_registros.
  by rewrite registros_filtrar_por_campo, sumar_campo_suma.
Qed.

End Totales.

(** ** Dictionaries keyed by text *)

Section DictTexto.
  Context {V : Type}.

Lemma dict_get_set (d : list (string * V)) (k : string) (v : V) (k' : string) :
  dict_get String.eqb (dict_set String.eqb d k v) k'
  = if decide (k = k') then Some v else dict_get String.eqb d k'.
Proof.
  induction d as [|[k0 v0] d IH]; simpl.
  - destruct (String.eqb_spec k k'), (decide (k = k')); congruence.
  - destruct (String.eqb_spec k0 k) as [->|Hne]; simpl.
    + destruct (String.eqb_spec k k'), (decide (k = k')); congruence.
    + rewrite IH. destruct (String.eqb_spec k0 k'), (decide (k = k')); congruence.
Qed.

Lemma dict_get_fmap {W : Type} (g : V -> W) (d : list (string * V)) (k : string) :
  dict_get String.eqb (prod_map id g <$> d) k = g <$> dict_get String.eqb d k.
Proof.
  induction d as [|[k0 v0] d IH]; csimpl; [done|].
  by destruct (String.eqb k0 k).
Qed.

Lemma list_to_map_dict_get (d : list (string * V)) (k : string) :
  (list_to_map d : gmap string V) !! k = dict_get String.eqb d k.
Proof.
  induction d as [|[k0 v0] d IH]; [done|].
  rewrite list_to_map_cons. simpl.
  destruct (String.eqb_spec k0 k) as [->|Hne].
  - apply lookup_insert_eq.
  - by rewrite lookup_insert_ne.
Qed.

End DictTexto.

(** ** AnalizadorVentas: sums by group *)

Section Ventas.
  Context `{PF : PyFloat}.

Lemma dict_get_acumular (ag : list (string * pyfloat)) (k v k' : string) :
  dict_get String.eqb (AnalizadorVentas.acumular ag k v) k'
  = if decide (k = k')
    then Some (match float_of_str v with
               | Some x => fadd (default fzero (dict_get String.eqb ag k)) x
               | None => default fzero (dict_get String.eqb ag k)
               end)
    else dict_get String.eqb ag k'.
Proof.
  unfold AnalizadorVentas.acumular.
  destruct (float_of_str v) as [x|]; rewrite ?dict_get_set;
    destruct (decide (k = k')); done.
Qed.

Lemma py_truthy_Some (v : option string) :
  py_truthy v -> exists s, v = Some s /\ s <> "".
Proof.
  destruct v as [s|]; simpl; [|done]. intros Hs. exists s. split; [done|].
  intros ->. done.
Qed.

Lemma dict_get_paso (cg cs : string) (ag : list (string * pyfloat)) (r : Registro)
    (k : string) :
  k <> "" ->
  dict_get String.eqb (AnalizadorVentas.paso_analizar_por_campo cg cs ag r) k
  = if decide (Registro.obtener_campo r cg = Some k
               /\ py_truthy (Registro.obtener_campo r cs))
    then Some (match Registro.obtener_campo r cs ≫= float_of_str with
               | Some x => fadd (default fzero (dict_get String.eqb ag k)) x
               | None => default fzero (dict_get String.eqb ag k)
               end)
    else dict_get String.eqb ag k.
Proof.
  intros Hk. unfold AnalizadorVentas.paso_analizar_por_campo.
  destruct (decide _) as [[Hc Hv]|Hn].
  - rewrite Hc. apply py_truthy_Some in Hv as (v & Hv & Hvne). rewrite Hv. simpl.
    destruct (String.eqb_spec k ""); [done|].
    destruct (String.eqb_spec v ""); [done|]. simpl.
    rewrite dict_get_acumular. by rewrite decide_True.
  - destruct (py_truthy (Registro.obtener_campo r cg)) eqn:Hc; simpl; [|done].
    destruct (py_truthy (Registro.obtener_campo r cs)) eqn:Hv; simpl; [|done].
    rewrite dict_get_acumular.
    apply Is_true_true_2, py_truthy_Some in Hc as (c & Hc & Hcne). rewrite Hc. simpl.
    rewrite decide_False; [done|]. intros ->. apply Hn. split; [done|].
    by apply Is_true_true_2.
Qed.

Lemma bucle_analizar_por_campo (cg cs : string) (l : list Registro)
    (ag : list (string * pyfloat)) (k : string) :
  k <> "" ->
  dict_get String.eqb (foldl (AnalizadorVentas.paso_analizar_por_campo cg cs) ag l) k
  = match aportan cg cs k l with
    | [] => dict_get String.eqb ag k
    | _ :: _ =>
        Some (foldl fadd (default fzero (dict_get String.eqb ag k))
                (valores_coercibles cs (aportan cg cs k l)))
    end.
Proof.
  intros Hk. revert ag. induction l as [|r l IH]; intros ag; [done|].
  cbn [foldl]. rewrite IH, dict_get_paso by done. clear IH.
  unfold aportan. rewrite filter_cons.
  destruct (decide _) as [[Hc Hv]|Hn]; [|done].
  unfold valores_coercibles. csimpl.
  destruct (Registro.obtener_campo r cs ≫= float_of_str); by destruct (filter _ l).
Qed.

Lemma bucle_analizar_por_campo_vacia (cg cs : string) (l : list Registro)
    (ag : list (string * pyfloat)) :
  dict_get String.eqb (foldl (AnalizadorVentas.paso_analizar_por_campo cg cs) ag l) ""
  = dict_get String.eqb ag "".
Proof.
  revert ag. induction l as [|r l IH]; intros ag; [done|]. cbn [foldl]. rewrite IH.
  unfold AnalizadorVentas.paso_analizar_por_campo.
  destruct (py_truthy (Registro.obtener_campo r cg)) eqn:Hc; simpl; [|done].
  destruct (py_truthy (Registro.obtener_campo r cs)); simpl; [|done].
  rewrite dict_get_acumular. rewrite decide_False; [done|].
  apply Is_true_true_2, py_truthy_Some in Hc as (s & -> & Hs). done.
Qed.

Lemma analizar_por_campo_lookup (cg cs : string) (d : Dataset) (k : string) :
  (list_to_map (AnalizadorVentas.analizar_por_campo cg cs d) : gmap string pyfloat) !! k
  = if decide (k <> "" /\ aportan cg cs k (registros d) <> [])
    then Some (round2 (suma_flotantes (valores_coercibles cs (aportan cg cs k (registros d)))))
    else None.
Proof.
  rewrite list_to_map_dict_get. unfold AnalizadorVentas.analizar_por_campo.
  rewrite dict_get_fmap. unfold Dataset.obtener_registros.
  destruct (decide (k = "")) as [->|Hk].
  - rewrite decide_False by (by intros [? _]).
    by rewrite bucle_analizar_por_campo_vacia.
  - rewrite bucle_analizar_por_campo by done. simpl.
    destruct (aportan cg cs k (registros d)) as [|r l] eqn:Ha.
    + rewrite decide_False by (by intros [_ ?]). done.
    + rewrite decide_True by done. done.
Qed.

Lemma valores_coercibles_aportan `{!PyFloatLaws PF} (cg cs k : string)
    (l : list Registro) :
  valores_coercibles cs (aportan cg cs k l)
  = valores_coercibles cs (con_valor cg k l).
Proof.
  unfold valores_coercibles, aportan, con_valor.
  induction l as [|r l IH]; [done|]. rewrite !filter_cons.
  destruct (decide (Registro.obtener_campo r cg = Some k)) as [Hc|Hc].
  - destruct (Registro.obtener_campo r cs) as [v|] eqn:Hv.
    + destruct (String.eqb_spec v "") as [->|Hvne].
      * rewrite decide_False by (simpl; by intros [_ ?]).
        csimpl. rewrite Hv. csimpl. by rewrite float_of_str_empty.
      * rewrite decide_True.
        { csimpl. rewrite Hv. csimpl. by rewrite IH. }
        split; [done|]. simpl. by destruct (String.eqb_spec v "").
    + rewrite decide_False by (simpl; by intros [_ ?]).
      csimpl. by rewrite Hv.
  - rewrite decide_False by (by intros [? _]). done.
Qed.

Lemma aportan_valores (cg cs k : string) (l : list Registro) :
  aportan cg cs k l <> [] ->
  k ∈ omap (fun registro => Registro.obtener_campo registro cg) l.
Proof.
  intros Hne. destruct (aportan cg cs k l) as [|r l'] eqn:Ha; [done|].
  assert (Hr : r ∈ aportan cg cs k l) by (rewrite Ha; apply list_elem_of_here).
  apply list_elem_of_filter in Hr as [[Hc _] Hin].
  apply list_elem_of_omap. by exists r.
Qed.

Lemma sumas_coinciden_analizar_por_campo `{!PyFloatLaws PF} (cg : string) (d : Dataset) :
  sumas_coinciden cg d (AnalizadorVentas.analizar_por_campo cg "total" d).
Proof.
  unfold sumas_coinciden. split_and!.
  - apply map_subseteq_spec. intros k v.
    rewrite analizar_por_campo_lookup, calcular_totales_por_grupo_lookup.
    destruct (decide (k <> "" /\ _)) as [[Hk Ha]|]; [|done].
    intros <-. unfold Dataset.obtener_valores_campo.
    rewrite decide_True by (by eapply aportan_valores).
    by rewrite valores_coercibles_aportan.
  - intros k. rewrite analizar_por_campo_lookup.
    destruct (decide (k <> "" /\ _)) as [Hd|Hd]; split; try done.
  - intros Hlimpio. apply map_eq. intros k.
    rewrite analizar_por_campo_lookup, calcular_totales_por_grupo_lookup.
    unfold Dataset.obtener_valores_campo.
    destruct (decide (k ∈ omap _ (registros d))) as [Hin|Hnin].
    + apply list_elem_of_omap in Hin as (r & Hr & Hc).
      destruct (Hlimpio r k Hr Hc) as [Hk Hv].
      rewrite decide_True.
      { by rewrite valores_coercibles_aportan. }
      split; [done|]. intros Ha.
      assert (Hin : r ∈ aportan cg "total" k (registros d))
        by (by apply list_elem_of_filter).
      rewrite Ha in Hin. by apply elem_of_nil in Hin.
    + rewrite decide_False; [done|]. intros [_ Ha]. apply Hnin.
      by eapply aportan_valores.
Qed.

Lemma analizar_por_campo_vacio (cg cs : string) (d : Dataset) :
  Dataset.esta_vacio d = true -> AnalizadorVentas.analizar_por_campo cg cs d = [].
Proof.
  unfold Dataset.esta_vacio, AnalizadorVentas.analizar_por_campo, Dataset.obtener_registros.
  by destruct (registros d).
Qed.

(** C2, as the code has it. For each of the grouping fields region,
    producto, categoria and vendedor, every sum that [analizar()] reports is
    the total of [calcular_totales_por_grupo] for that key; [analizar()]
    reports the non-empty keys that have a record whose 'total' is neither
    [None] nor empty; and the two maps are equal when every record with a
    grouping value has a non-empty one and such a 'total'. *)
Theorem ventas_por_grupo_en_totales `{!PyFloatLaws PF} (d : Dataset) :
  sumas_coinciden "region" d (AnalizadorVentas.por_region (AnalizadorVentas.analizar d))
  /\ sumas_coinciden "producto" d (AnalizadorVentas.por_producto (AnalizadorVentas.analizar d))
  /\ sumas_coinciden "categoria" d (AnalizadorVentas.por_categoria (AnalizadorVentas.analizar d))
  /\ sumas_coinciden "vendedor" d (AnalizadorVentas.por_vendedor (AnalizadorVentas.analizar d)).
Proof.
  unfold AnalizadorVentas.analizar.
  destruct (Dataset.esta_vacio d) eqn:Hv; simpl.
  - rewrite <- (analizar_por_campo_vacio "region" "total" d Hv) at 1.
    rewrite <- (analizar_por_campo_vacio "producto" "total" d Hv) at 1.
    rewrite <- (analizar_por_campo_vacio "categoria" "total" d Hv) at 1.
    rewrite <- (analizar_por_campo_vacio "vendedor" "total" d Hv).
    split_and!; apply sumas_coinciden_analizar_por_campo.
  - split_and!; apply sumas_coinciden_analizar_por_campo.
Qed.

End Ventas.

(** ** Counting elements ([Counter] and frequency tables) *)

Lemma py_max_key_elem {A : Type} (f : A -> nat) (l : list A) (m : A) :
  py_max_key f l = Some m -> m ∈ l /\ forall y, y ∈ l -> f y <= f m.
Proof.
  destruct l as [|x l]; [done|]. simpl. intros [= <-].
  assert (Hgen : forall (l : list A) (x : A),
    let m := foldl (fun m y => if f m <? f y then y else m) x l in
    (m = x \/ m ∈ l) /\ f x <= f m /\ forall y, y ∈ l -> f y <= f m).
  { clear. induction l as [|z l IH]; intros x; simpl.
    - split_and!; [by left|done|]. by intros y ?%elem_of_nil.
    - destruct (IH (if f x <? f z then z else x)) as (Hm & Hle & Hall).
      destruct (Nat.ltb_spec (f x) (f z)) as [Hlt|Hge].
      + split_and!.
        * right. destruct Hm as [->|?]; [apply list_elem_of_here|by apply list_elem_of_further].
        * lia.
        * intros y [->|?]%elem_of_cons; auto.
      + split_and!.
        * destruct Hm as [->|?]; [by left|right; by apply list_elem_of_further].
        * done.
        * intros y [->|?]%elem_of_cons; [lia|auto]. }
  destruct (Hgen l x) as (Hm & Hle & Hall). split.
  - destruct Hm as [->|?]; [apply list_elem_of_here|by apply list_elem_of_further].
  - intros y [->|?]%elem_of_cons; auto.
Qed.

Lemma py_max_key_is_Some {A : Type} (f : A -> nat) (l : list A) :
  l <> [] -> is_Some (py_max_key f l).
Proof. destruct l; [done|]. by eexists. Qed.

(** The element whose key is above all the others is the maximum. *)
Lemma py_max_key_unico {A : Type} (f : A -> nat) (l : list A) (i : nat) (p : A) :
  l !! i = Some p ->
  (forall j q, l !! j = Some q -> j <> i -> f q < f p) ->
  py_max_key f l = Some p.
Proof.
  intros Hi Hmax.
  destruct (py_max_key_is_Some f l) as [m Hm].
  { intros ->. by rewrite lookup_nil in Hi. }
  rewrite Hm. f_equal.
  apply py_max_key_elem in Hm as [Hin Hle].
  apply list_elem_of_lookup in Hin as [j Hj].
  destruct (decide (j = i)) as [->|Hne]; [congruence|].
  pose proof (Hmax j m Hj Hne) as Hlt.
  pose proof (Hle p (list_elem_of_lookup_2 _ _ _ Hi)). lia.
Qed.

Section Contar.
  Context {K : Type} (eqk : K -> K -> bool).
  Hypothesis eqk_sym : forall x y, eqk x y = true -> eqk y x = true.
  Hypothesis eqk_trans : forall x y z, eqk x y = true -> eqk y z = true -> eqk x z = true.

Lemma eqk_sym_false (x y : K) : eqk x y = false -> eqk y x = false.
Proof.
  intros Hxy. destruct (eqk y x) eqn:Hyx; [|done].
  by rewrite (eqk_sym _ _ Hyx) in Hxy.
Qed.

(** The entry that [dict_get] and [dict_set] reach for [x]: the first one
    whose key equals [x], if there is one. *)
Lemma dict_primero {V : Type} (c : list (K * V)) (x : K) :
  (Forall (fun p => eqk p.1 x = false) c
   /\ dict_get eqk c x = None
   /\ forall v, dict_set eqk c x v = c ++ [(x, v)])
  \/ (exists i k n, c !! i = Some (k, n) /\ eqk k x = true
      /\ dict_get eqk c x = Some n
      /\ forall v, dict_set eqk c x v = <[i := (k, v)]> c).
Proof.
  induction c as [|[k n] c IH]; simpl.
  - left. by split_and!.
  - destruct (eqk k x) eqn:Hk.
    + right. exists 0, k, n. by split_and!.
    + destruct IH as [(Hall & Hget & Hset)|(i & k' & n' & Hi & Hk' & Hget & Hset)].
      * left. split_and!; [by constructor|done|]. intros v. by rewrite Hset.
      * right. exists (S i), k', n'. split_and!; try done.
        intros v. by rewrite Hset.
Qed.

Lemma frecuencia_snoc (k x : K) (l : list K) :
  frecuencia eqk k (l ++ [x])
  = if eqk k k then frecuencia eqk k l + (if eqk x k then 1 else 0) else 1.
Proof.
  unfold frecuencia. destruct (eqk k k); [|done].
  rewrite filter_app, length_app, filter_cons, filter_nil.
  destruct (eqk x k) eqn:Hx.
  - by rewrite decide_True.
  - by rewrite decide_False.
Qed.

Lemma frecuencia_eqk (k v : K) (l : list K) :
  eqk k v = true -> frecuencia eqk k l = frecuencia eqk v l.
Proof.
  intros Hkv. unfold frecuencia.
  rewrite (eqk_trans k v k Hkv (eqk_sym _ _ Hkv)).
  rewrite (eqk_trans v k v (eqk_sym _ _ Hkv) Hkv).
  f_equal. induction l as [|y l IH]; [done|].
  rewrite !filter_cons, IH.
  destruct (eqk y k) eqn:Hyk.
  - rewrite (eqk_trans y k v Hyk Hkv). done.
  - destruct (eqk y v) eqn:Hyv; [|done].
    by rewrite (eqk_trans y v k Hyv (eqk_sym _ _ Hkv)) in Hyk.
Qed.

Lemma filter_vacio {A : Type} (P : A -> Prop) `{forall x, Decision (P x)} (l : list A) :
  (forall x, x ∈ l -> ~ P x) -> filter P l = [].
Proof.
  induction l as [|x l IH]; intros Hl; [done|].
  rewrite filter_cons, decide_False by (apply Hl, list_elem_of_here).
  apply IH. intros y Hy. by apply Hl, list_elem_of_further.
Qed.

(** What the counting loop maintains: every entry holds an element of [l]
    with its frequency; keys at different places are different; and every
    element that equals itself has a key. *)
Lemma contar_elementos_inv (l : list K) :
  (forall i p, contar_elementos eqk l !! i = Some p ->
     p.1 ∈ l /\ p.2 = frecuencia eqk p.1 l)
  /\ (forall i j p q, contar_elementos eqk l !! i = Some p ->
        contar_elementos eqk l !! j = Some q -> eqk p.1 q.1 = true -> i = j)
  /\ (forall y, y ∈ l -> eqk y y = true ->
        exists i p, contar_elementos eqk l !! i = Some p /\ eqk p.1 y = true).
Proof.
  induction l as [|x l (IHA & IHB & IHC)] using rev_ind.
  { split_and!; try done. by intros y ?%elem_of_nil. }
  unfold contar_elementos in *. rewrite foldl_app. simpl.
  set (c := foldl _ [] l) in *.
  destruct (dict_primero c x) as [(Hall & Hget & Hset)|(i0 & k & n & Hi0 & Hk & Hget & Hset)];
    rewrite Hget, Hset; simpl.
  - (* a new key *)
    rewrite Forall_forall in Hall.
    assert (Hnuevo : forall y, y ∈ l -> eqk y x = false).
    { intros y Hy. destruct (eqk y x) eqn:Hyx; [|done].
      assert (Hyy : eqk y y = true) by eauto using eqk_trans, eqk_sym.
      destruct (IHC y Hy Hyy) as (i & p & Hp & Hpy).
      rewrite <- (Hall p (list_elem_of_lookup_2 _ _ _ Hp)).
      symmetry. by apply (eqk_trans _ y). }
    split_and!.
    + intros i p Hp. apply lookup_app_Some in Hp as [Hp|[_ Hp]].
      * destruct (IHA i p Hp) as [Hin Hf]. split; [apply elem_of_app; by left|].
        rewrite frecuencia_snoc, Hf.
        rewrite (eqk_sym_false _ _ (Hall p (list_elem_of_lookup_2 _ _ _ Hp))).
        unfold frecuencia. destruct (eqk p.1 p.1); lia.
      * apply list_lookup_singleton_Some in Hp as [_ <-]. simpl.
        split; [apply elem_of_app; right; apply list_elem_of_here|].
        rewrite frecuencia_snoc. unfold frecuencia.
        destruct (eqk x x) eqn:Hxx; [|done].
        rewrite filter_vacio; [done|]. intros y Hy. by rewrite (Hnuevo y Hy).
    + intros i j p q Hp Hq Hpq.
      apply lookup_app_Some in Hp as [Hp|[Hi Hp]];
        apply lookup_app_Some in Hq as [Hq|[Hj Hq]].
      * eauto.
      * apply list_lookup_singleton_Some in Hq as [_ <-]. simpl in Hpq.
        by rewrite (Hall p (list_elem_of_lookup_2 _ _ _ Hp)) in Hpq.
      * apply list_lookup_singleton_Some in Hp as [_ <-]. simpl in Hpq.
        apply eqk_sym in Hpq.
        by rewrite (Hall q (list_elem_of_lookup_2 _ _ _ Hq)) in Hpq.
      * apply list_lookup_singleton_Some in Hp as [? _].
        apply list_lookup_singleton_Some in Hq as [? _]. lia.
    + intros y [Hy|Hy%list_elem_of_singleton]%elem_of_app Hyy.
      * destruct (IHC y Hy Hyy) as (i & p & Hp & Hpy).
        exists i, p. split; [|done]. by apply lookup_app_l_Some.
      * subst y. exists (length c), (x, 1). split; [|done].
        by rewrite lookup_app_r, Nat.sub_diag.
  - (* an existing key *)
    assert (Hotros : forall j q, c !! j = Some q -> j <> i0 -> eqk x q.1 = false).
    { intros j q Hq Hne. destruct (eqk x q.1) eqn:Hxq; [|done].
      exfalso. apply Hne. symmetry. eapply (IHB i0 j (k, n) q); eauto. }
    assert (Hkk : eqk k k = true) by eauto using eqk_trans, eqk_sym.
    split_and!.
    + intros i p Hp. destruct (decide (i = i0)) as [->|Hne].
      * rewrite list_lookup_insert_eq in Hp by (by eapply lookup_lt_Some).
        injection Hp as <-. simpl.
        destruct (IHA i0 (k, n) Hi0) as [Hin Hf]. simpl in *.
        split; [apply elem_of_app; by left|].
        rewrite frecuencia_snoc, Hkk, (eqk_sym _ _ Hk). lia.
      * rewrite list_lookup_insert_ne in Hp by done.
        destruct (IHA i p Hp) as [Hin Hf]. split; [apply elem_of_app; by left|].
        rewrite frecuencia_snoc, Hf, (Hotros i p Hp Hne).
        unfold frecuencia. destruct (eqk p.1 p.1); lia.
    + assert (Hclave : forall i p, <[i0 := (k, n + 1)]> c !! i = Some p ->
                exists p', c !! i = Some p' /\ p'.1 = p.1).
      { intros i p Hp. destruct (decide (i = i0)) as [->|Hne].
        - rewrite list_lookup_insert_eq in Hp by (by eapply lookup_lt_Some).
          injection Hp as <-. by exists (k, n).
        - rewrite list_lookup_insert_ne in Hp by done. by exists p. }
      intros i j p q Hp Hq Hpq.
      destruct (Hclave i p Hp) as (p' & Hp' & Ep).
      destruct (Hclave j q Hq) as (q' & Hq' & Eq).
      eapply (IHB i j p' q'); eauto. by rewrite Ep, Eq.
    + intros y [Hy|Hy%list_elem_of_singleton]%elem_of_app Hyy.
      * destruct (IHC y Hy Hyy) as (i & p & Hp & Hpy).
        destruct (decide (i = i0)) as [->|Hne].
        -- exists i0, (k, n + 1). split.
           ++ by rewrite list_lookup_insert_eq by (by eapply lookup_lt_Some).
           ++ rewrite Hi0 in Hp. by injection Hp as <-.
        -- exists i, p. split; [|done]. by rewrite list_lookup_insert_ne.
      * subst y. exists i0, (k, n + 1). split; [|done].
        by rewrite list_lookup_insert_eq by (by eapply lookup_lt_Some).
Qed.

(** The value that is more frequent than every other is the one that
    [max(items, key=count)] finds in the table. *)
Lemma contar_elementos_maximo (l : list K) (v : K) :
  v ∈ l ->
  (forall w, w ∈ l -> eqk w v = false -> frecuencia eqk w l < frecuencia eqk v l) ->
  exists k, py_max_key snd (contar_elementos eqk l) = Some (k, frecuencia eqk v l)
            /\ k ∈ l /\ eqk k v = true.
Proof.
  intros Hv Hmax.
  assert (Hvv : eqk v v = true).
  { destruct (eqk v v) eqn:Hvv; [done|]. pose proof (Hmax v Hv Hvv). lia. }
  destruct (contar_elementos_inv l) as (HA & HB & HC).
  destruct (HC v Hv Hvv) as (i & [k n] & Hp & Hkv). simpl in Hkv.
  destruct (HA i _ Hp) as [Hk Hn]. simpl in Hk, Hn.
  rewrite (frecuencia_eqk k v l Hkv) in Hn. subst n.
  exists k. split_and!; [|done|done].
  apply (py_max_key_unico snd _ i); [done|].
  intros j q Hq Hne. destruct (HA j q Hq) as [Hqin ->]. simpl.
  apply Hmax; [done|].
  destruct (eqk q.1 v) eqn:Hqv; [|done].
  exfalso. apply Hne. eapply (HB j i q (k, _)); [done|done|]. simpl.
  apply (eqk_trans _ v); [done|]. by apply eqk_sym.
Qed.

Lemma dict_get_contar_None (l : list K) (x : K) :
  (forall y, y ∈ l -> eqk y x = false) ->
  dict_get eqk (contar_elementos eqk l) x = None.
Proof.
  intros Hx. destruct (contar_elementos_inv l) as (HA & HB & HC).
  destruct (dict_primero (contar_elementos eqk l) x)
    as [(_ & Hget & _)|(i & k & n & Hi & Hk & _ & _)]; [done|].
  destruct (HA i _ Hi) as [Hin _]. simpl in Hin.
  by rewrite (Hx k Hin) in Hk.
Qed.

Lemma dict_get_contar_Some (l : list K) (x y : K) :
  y ∈ l -> eqk y x = true ->
  dict_get eqk (contar_elementos eqk l) x = Some (frecuencia eqk x l).
Proof.
  intros Hy Hyx. destruct (contar_elementos_inv l) as (HA & HB & HC).
  destruct (dict_primero (contar_elementos eqk l) x)
    as [(Hall & _ & _)|(i & k & n & Hi & Hk & Hget & _)].
  - rewrite Forall_forall in Hall.
    destruct (HC y Hy) as (i & p & Hp & Hpy); [eauto using eqk_trans, eqk_sym|].
    assert (Hpx : eqk p.1 x = true) by (by apply (eqk_trans _ y)).
    by rewrite (Hall p (list_elem_of_lookup_2 _ _ _ Hp)) in Hpx.
  - rewrite Hget. destruct (HA i _ Hi) as [_ Hn]. simpl in Hn. rewrite Hn.
    f_equal. by apply frecuencia_eqk.
Qed.

Lemma claves_contar (l : list K) (k : K) :
  k ∈ (contar_elementos eqk l).*1 -> k ∈ l.
Proof.
  intros (p & -> & Hp)%list_elem_of_fmap.
  apply list_elem_of_lookup in Hp as [i Hi].
  by destruct (contar_elementos_inv l) as (HA & _ & _), (HA i p Hi).
Qed.

End Contar.

(** Frequency tables of text. *)
Lemma string_eqb_sym (x y : string) : String.eqb x y = true -> String.eqb y x = true.
Proof. rewrite !String.eqb_eq. congruence. Qed.

Lemma string_eqb_trans (x y z : string) :
  String.eqb x y = true -> String.eqb y z = true -> String.eqb x z = true.
Proof. rewrite !String.eqb_eq. congruence. Qed.

Lemma frecuencia_veces (s : string) (l : list string) :
  frecuencia String.eqb s l = veces s l.
Proof.
  unfold frecuencia, veces. rewrite String.eqb_refl. f_equal.
  induction l as [|y l IH]; [done|]. rewrite !filter_cons, IH.
  destruct (String.eqb_spec y s).
  - by rewrite !decide_True.
  - by rewrite !decide_False.
Qed.

Lemma veces_pos (s : string) (l : list string) : s ∈ l -> 0 < veces s l.
Proof.
  intros Hs. unfold veces.
  assert (Hin : s ∈ filter (fun y => y = s) l) by (by apply list_elem_of_filter).
  destruct (filter _ l); [by apply elem_of_nil in Hin|simpl; lia].
Qed.

Lemma distribucion_lookup (l : list string) (s : string) :
  dict_get String.eqb (contar_elementos String.eqb l) s
  = if decide (s ∈ l) then Some (veces s l) else None.
Proof.
  destruct (decide (s ∈ l)) as [Hs|Hs].
  - rewrite (dict_get_contar_Some String.eqb string_eqb_sym string_eqb_trans l s s Hs)
      by apply String.eqb_refl.
    by rewrite frecuencia_veces.
  - apply (dict_get_contar_None String.eqb string_eqb_sym string_eqb_trans).
    intros y Hy. destruct (String.eqb_spec y s); [by subst|done].
Qed.

Lemma claves_distribucion (l : list string) (s : string) :
  s ∈ (contar_elementos String.eqb l).*1 <-> s ∈ l.
Proof.
  split; [apply (claves_contar String.eqb string_eqb_sym string_eqb_trans)|].
  intros Hs.
  destruct (contar_elementos_inv String.eqb string_eqb_sym string_eqb_trans l)
    as (_ & _ & HC).
  destruct (HC s Hs (String.eqb_refl s)) as (i & p & Hp & Hps).
  apply String.eqb_eq in Hps. subst s.
  apply list_elem_of_fmap. exists p. split; [done|].
  by eapply list_elem_of_lookup_2.
Qed.

(** ** AnalizadorEstadistico *)

Lemma veces_0 (s : string) (l : list string) : s ∉ l -> veces s l = 0.
Proof.
  intros Hs. unfold veces. rewrite filter_vacio; [done|]. by intros y Hy ->.
Qed.

Lemma estadisticas_categoricas_correctas (valores : list string) :
  valores <> [] ->
  categoricas_de valores (AnalizadorEstadistico.estadisticas_categoricas valores).
Proof.
  intros Hne. unfold categoricas_de, AnalizadorEstadistico.estadisticas_categoricas.
  simpl. split_and!.
  - done.
  - exists (elements (list_to_set valores : gset string)). split_and!.
    + apply NoDup_elements.
    + intros s. by rewrite elem_of_elements, elem_of_list_to_set.
    + done.
  - apply distribucion_lookup.
  - set (c := contar_elementos String.eqb valores).
    destruct (py_max_key_is_Some
                (fun k => default 0 (dict_get String.eqb c k)) (c.*1)) as [m Hm].
    { destruct valores as [|s l]; [done|].
      assert (Hs : s ∈ c.*1) by (apply claves_distribucion, list_elem_of_here).
      intros Hnil. rewrite Hnil in Hs. by apply elem_of_nil in Hs. }
    exists m. rewrite Hm.
    apply py_max_key_elem in Hm as [Hin Hmax].
    apply (proj1 (claves_distribucion valores m)) in Hin.
    assert (Hf : forall s, default 0 (dict_get String.eqb c s) = veces s valores).
    { intros s. unfold c. rewrite distribucion_lookup.
      destruct (decide (s ∈ valores)); [done|]. simpl. by rewrite veces_0. }
    split_and!; [done|done| |].
    + intros s. destruct (decide (s ∈ valores)) as [Hs|Hs].
      * rewrite <- !Hf. by apply Hmax, claves_distribucion.
      * rewrite (veces_0 s) by done. lia.
    + intros Hm0. simpl. destruct (String.eqb_spec m ""); [done|]. simpl. apply Hf.
Qed.

(** X2. When the most frequent value of a categorical field is the empty
    text, the reported frequency of the most frequent value is 0, although
    the empty text occurs among the values, and at least as often as every
    other value. *)
Theorem frecuencia_cero_del_texto_vacio (valores : list string) :
  AnalizadorEstadistico.valor_mas_comun
    (AnalizadorEstadistico.estadisticas_categoricas valores) = Some "" ->
  AnalizadorEstadistico.frecuencia_mas_comun
    (AnalizadorEstadistico.estadisticas_categoricas valores) = 0
  /\ 0 < veces "" valores
  /\ forall s, veces s valores <= veces "" valores.
Proof.
  intros Hm. split.
  - unfold AnalizadorEstadistico.estadisticas_categoricas in *.
    cbn [AnalizadorEstadistico.valor_mas_comun
         AnalizadorEstadistico.frecuencia_mas_comun] in *.
    by rewrite Hm.
  - assert (Hne : valores <> []).
    { intros ->. discriminate Hm. }
    destruct (estadisticas_categoricas_correctas valores Hne)
      as (_ & _ & _ & m & Hm' & Hin & Hmax & _).
    rewrite Hm in Hm'. injection Hm' as <-.
    split; [by apply veces_pos|done].
Qed.

Lemma dict_set_no_vacio {K V : Type} (eqk : K -> K -> bool) (c : list (K * V))
    (x : K) (v : V) :
  dict_set eqk c x v <> [].
Proof. destruct c as [|[k n] c]; simpl; [done|]. by destruct (eqk k x). Qed.

Lemma contar_elementos_no_vacio {K : Type} (eqk : K -> K -> bool) (l : list K) :
  l <> [] -> contar_elementos eqk l <> [].
Proof.
  destruct l as [|x l _] using rev_ind; [done|]. intros _.
  unfold contar_elementos. rewrite foldl_app. apply dict_set_no_vacio.
Qed.

Section Estadistico.
  Context `{PF : PyFloat} `{!PyFloatLaws PF}.

(** On data that is not empty the mode is never [None]: it is an element
    of the data, rounded. *)
Lemma calcular_moda_retorna (valores : list pyfloat) :
  valores <> [] ->
  exists m, m ∈ valores
            /\ AnalizadorEstadistico.calcular_moda valores = Retorna (Some (round2 m)).
Proof.
  intros Hne. unfold AnalizadorEstadistico.calcular_moda, statistics_mode.
  destruct (py_max_key_is_Some snd (contar_elementos feqb valores)) as [p Hp].
  { by apply contar_elementos_no_vacio. }
  rewrite Hp. exists p.1. split; [|done].
  apply py_max_key_elem in Hp as [Hin _].
  apply (claves_contar feqb feqb_sym feqb_trans).
  apply list_elem_of_fmap. by exists p.
Qed.

Lemma estadisticas_numericas_moda (valores : list pyfloat)
    (e : AnalizadorEstadistico.EstadisticasNumericas pyfloat) :
  AnalizadorEstadistico.estadisticas_numericas valores = Retorna e ->
  AnalizadorEstadistico.calcular_moda valores = Retorna (AnalizadorEstadistico.moda e).
Proof.
  unfold AnalizadorEstadistico.estadisticas_numericas.
  destruct (stat_mean valores); simpl; [|done].
  destruct (stat_median valores); simpl; [|done].
  destruct valores as [|x resto]; simpl; [done|].
  destruct (Nat.ltb 1 (S (length resto))); simpl.
  - destruct (stat_stdev (x :: resto)); simpl; [|done].
    destruct (stat_variance (x :: resto)); simpl; [|done].
    destruct (AnalizadorEstadistico.calcular_moda (x :: resto)); simpl; [|done].
    by intros [= <-].
  - destruct (AnalizadorEstadistico.calcular_moda (x :: resto)); simpl; [|done].
    by intros [= <-].
Qed.

Lemma estadisticas_numericas_retorna (valores : list pyfloat) :
  valores <> [] -> biblioteca_retorna valores ->
  exists e, AnalizadorEstadistico.estadisticas_numericas valores = Retorna e.
Proof.
  intros Hne (media & med & de & var & Hmedia & Hmed & Hde & Hvar).
  destruct (calcular_moda_retorna valores Hne) as (m & _ & Hm).
  unfold AnalizadorEstadistico.estadisticas_numericas.
  rewrite Hmedia, Hmed, Hde, Hvar, Hm. simpl.
  destruct valores as [|x resto]; [done|]. simpl.
  destruct (Nat.ltb 1 (S (length resto))); simpl; by eexists.
Qed.

(** C1, as the code has it. When one value of the data is more frequent
    than every other, the reported mode is that value rounded to two
    decimals. *)
Theorem moda_valor_mas_frecuente (valores : list pyfloat) (v : pyfloat) :
  v ∈ valores ->
  (forall w, w ∈ valores -> feqb w v = false ->
     frecuencia feqb w valores < frecuencia feqb v valores) ->
  exists m, m ∈ valores /\ feqb m v = true
    /\ AnalizadorEstadistico.calcular_moda valores = Retorna (Some (round2 m))
    /\ forall e, AnalizadorEstadistico.estadisticas_numericas valores = Retorna e ->
                 AnalizadorEstadistico.moda e = Some (round2 m).
Proof.
  intros Hv Hmax.
  destruct (contar_elementos_maximo feqb feqb_sym feqb_trans valores v Hv Hmax)
    as (m & Hm & Hin & Hmv).
  assert (Hmoda : AnalizadorEstadistico.calcular_moda valores = Retorna (Some (round2 m))).
  { unfold AnalizadorEstadistico.calcular_moda, statistics_mode. by rewrite Hm. }
  exists m. split_and!; try done.
  intros e He%estadisticas_numericas_moda. congruence.
Qed.

(** X1. On data that is not empty the reported mode is never [None]: it is
    an element of the data, rounded to two decimals, also when no value is
    more frequent than all the others. *)
Theorem moda_nunca_nula (valores : list pyfloat) :
  valores <> [] ->
  exists m, m ∈ valores
    /\ AnalizadorEstadistico.calcular_moda valores = Retorna (Some (round2 m))
    /\ forall e, AnalizadorEstadistico.estadisticas_numericas valores = Retorna e ->
                 AnalizadorEstadistico.moda e = Some (round2 m).
Proof.
  intros Hne. destruct (calcular_moda_retorna valores Hne) as (m & Hin & Hm).
  exists m. split_and!; try done.
  intros e He%estadisticas_numericas_moda. congruence.
Qed.

(** The loop of [analizar] over the fields. *)
Lemma iterar_campos_otros (d : Dataset) (l : list string)
    (cs0 cs : gmap string (AnalizadorEstadistico.Estadisticas pyfloat)) (c : string) :
  iterar (fun cs campo =>
            estadisticas <-- AnalizadorEstadistico.analizar_campo campo d ;;
            Retorna (match estadisticas with
                     | Some e => <[campo := e]> cs
                     | None => cs
                     end)) l cs0 = Retorna cs ->
  c ∉ l -> cs !! c = cs0 !! c.
Proof.
  revert cs0. induction l as [|x l IH]; intros cs0; simpl.
  - by intros [= <-].
  - destruct (AnalizadorEstadistico.analizar_campo x d) as [est|]; simpl; [|done].
    intros Hit Hc. apply not_elem_of_cons in Hc as [Hcx Hcl].
    rewrite (IH _ Hit Hcl). destruct est; [|done]. by rewrite lookup_insert_ne.
Qed.

Lemma iterar_campos_lookup (d : Dataset) (l : list string)
    (cs0 cs : gmap string (AnalizadorEstadistico.Estadisticas pyfloat)) (c : string) :
  iterar (fun cs campo =>
            estadisticas <-- AnalizadorEstadistico.analizar_campo campo d ;;
            Retorna (match estadisticas with
                     | Some e => <[campo := e]> cs
                     | None => cs
                     end)) l cs0 = Retorna cs ->
  c ∈ l ->
  exists est, AnalizadorEstadistico.analizar_campo c d = Retorna est
              /\ forall e, est = Some e -> cs !! c = Some e.
Proof.
  revert cs0. induction l as [|x l IH]; intros cs0; simpl.
  - by intros _ ?%elem_of_nil.
  - destruct (AnalizadorEstadistico.analizar_campo x d) as [est|] eqn:Hx; simpl; [|done].
    intros Hit Hc. destruct (decide (c ∈ l)) as [Hcl|Hcl]; [by eapply IH|].
    apply elem_of_cons in Hc as [->|?]; [|done].
    exists est. split; [done|]. intros e ->.
    rewrite (iterar_campos_otros _ _ _ _ _ Hit Hcl). apply lookup_insert_eq.
Qed.

Lemma iterar_campos_retorna (d : Dataset) (l : list string)
    (cs0 : gmap string (AnalizadorEstadistico.Estadisticas pyfloat)) :
  (forall c, c ∈ l -> exists est, AnalizadorEstadistico.analizar_campo c d = Retorna est) ->
  exists cs,
    iterar (fun cs campo =>
              estadisticas <-- AnalizadorEstadistico.analizar_campo campo d ;;
              Retorna (match estadisticas with
                       | Some e => <[campo := e]> cs
                       | None => cs
                       end)) l cs0 = Retorna cs.
Proof.
  revert cs0. induction l as [|x l IH]; intros cs0 Hl; simpl; [by eexists|].
  destruct (Hl x (list_elem_of_here _ _)) as [est ->]. simpl.
  apply IH. intros c Hc. by apply Hl, list_elem_of_further.
Qed.

Lemma analizar_campo_casos (c : string) (d : Dataset) :
  Dataset.obtener_valores_campo c d <> [] ->
  AnalizadorEstadistico.analizar_campo c d
  = if Nat.leb 2 (length (valores_numericos c d))
    then e <-- AnalizadorEstadistico.estadisticas_numericas (valores_numericos c d) ;;
         Retorna (Some (AnalizadorEstadistico.Numerico e))
    else Retorna (Some (AnalizadorEstadistico.Categorico
           (AnalizadorEstadistico.estadisticas_categoricas
              (Dataset.obtener_valores_campo c d)))).
Proof.
  intros Hne. unfold AnalizadorEstadistico.analizar_campo, valores_numericos.
  by destruct (Dataset.obtener_valores_campo c d).
Qed.

Lemma analizar_campo_retorna (c : string) (d : Dataset) :
  (2 <= length (valores_numericos c d) -> biblioteca_retorna (valores_numericos c d)) ->
  exists est, AnalizadorEstadistico.analizar_campo c d = Retorna est.
Proof.
  intros Hbib. unfold AnalizadorEstadistico.analizar_campo.
  destruct (Nat.eqb _ 0); [by eexists|]. fold (valores_numericos c d).
  destruct (Nat.leb_spec 2 (length (valores_numericos c d))) as [Hle|Hlt]; [|by eexists].
  destruct (estadisticas_numericas_retorna (valores_numericos c d)) as [e ->].
  - intros Hnil. rewrite Hnil in Hle. simpl in Hle. lia.
  - by apply Hbib.
  - by eexists.
Qed.

(** C3, as the code has it. On a dataset that is not empty, [analizar()]
    returns when the [statistics] functions return on every field with two
    numbers or more; and in its result every field of the schema that has a
    value other than [None] has an entry: the numeric statistics of its
    numbers when two or more of its values coerce, and else categorical
    statistics (count of values, count of distinct values, the full table of
    frequencies, a most frequent value, and its frequency when that value is
    not the empty text). *)
Theorem analizar_entrada_por_campo (d : Dataset) (c : string) :
  registros d <> [] ->
  c ∈ Dataset.obtener_campos d ->
  Dataset.obtener_valores_campo c d <> [] ->
  ((forall c', c' ∈ Dataset.obtener_campos d ->
      2 <= length (valores_numericos c' d) -> biblioteca_retorna (valores_numericos c' d))
   -> exists r, AnalizadorEstadistico.analizar d = Retorna r)
  /\ forall r, AnalizadorEstadistico.analizar d = Retorna r ->
       AnalizadorEstadistico.total_registros r = length (registros d)
       /\ if Nat.leb 2 (length (valores_numericos c d))
          then exists e,
                 AnalizadorEstadistico.estadisticas_numericas (valores_numericos c d)
                 = Retorna e
                 /\ AnalizadorEstadistico.campos r !! c
                    = Some (AnalizadorEstadistico.Numerico e)
          else exists e,
                 AnalizadorEstadistico.campos r !! c
                 = Some (AnalizadorEstadistico.Categorico e)
                 /\ categoricas_de (Dataset.obtener_valores_campo c d) e.
Proof.
  intros Hd Hc Hv. unfold AnalizadorEstadistico.analizar.
  assert (Hvacio : Dataset.esta_vacio d = false).
  { unfold Dataset.esta_vacio. by destruct (registros d). }
  rewrite Hvacio. split.
  - intros Hbib.
    destruct (iterar_campos_retorna d (Dataset.obtener_campos d) ∅) as [cs Hcs].
    + intros c' Hc'. apply analizar_campo_retorna. by apply Hbib.
    + cbn [AnalizadorEstadistico.campos]. rewrite Hcs. by eexists.
  - intros r. cbn [AnalizadorEstadistico.campos].
    destruct (iterar _ _ _) as [cs|] eqn:Hit; cbn [ligar]; [|done].
    intros [= <-]. cbn [AnalizadorEstadistico.campos AnalizadorEstadistico.total_registros].
    split; [done|].
    destruct (iterar_campos_lookup d _ _ _ c Hit Hc) as (est & Hest & Hcs).
    rewrite analizar_campo_casos in Hest by done.
    destruct (Nat.leb 2 (length (valores_numericos c d))).
    + destruct (AnalizadorEstadistico.estadisticas_numericas _) as [e|]; [|done].
      cbn [ligar] in Hest. injection Hest as <-. exists e. split; [done|]. by apply Hcs.
    + injection Hest as <-. eexists. split; [by apply Hcs|].
      by apply estadisticas_categoricas_correctas.
Qed.

End Estadistico.

(** ** The binary64 implementation satisfies the laws *)

Lemma SFeqb_iguales (f1 f2 : spec_float) : SFeqb f1 f2 = true <-> sf_iguales f1 f2.
Proof.
  unfold SFeqb, SFcompare, sf_iguales.
  destruct f1 as [s1|s1| |s1 m1 e1], f2 as [s2|s2| |s2 m2 e2];
    try (split; (done || discriminate));
    try (destruct s1; split; (done || discriminate));
    try (destruct s2; split; (done || discriminate));
    try (destruct s1, s2; split; (done || discriminate)).
  change (PosDef.Pos.compare_cont Eq m1 m2) with (Pos.compare m1 m2).
  destruct s1, s2; try (split; [discriminate|by intros [? _]]);
    destruct (Z.compare_spec e1 e2) as [->|?|?];
    destruct (Pos.compare_spec m1 m2) as [->|?|?]; simpl;
    (split; [done || discriminate | try done; intros (_ & ? & ?); lia]).
Qed.

Lemma sf_iguales_sym (f1 f2 : spec_float) : sf_iguales f1 f2 -> sf_iguales f2 f1.
Proof.
  destruct f1, f2; simpl; try done.
  intros (-> & -> & ->). done.
Qed.

Lemma sf_iguales_trans (f1 f2 f3 : spec_float) :
  sf_iguales f1 f2 -> sf_iguales f2 f3 -> sf_iguales f1 f3.
Proof.
  destruct f1, f2, f3; simpl; try done; try congruence.
  intros (-> & -> & ->) (-> & -> & ->). done.
Qed.

#[export] Instance ieee_leyes : PyFloatLaws ieee.
Proof.
  split.
  - reflexivity.
  - intros x y. simpl. rewrite !FloatAxioms.eqb_spec, !SFeqb_iguales.
    apply sf_iguales_sym.
  - intros x y z. simpl. rewrite !FloatAxioms.eqb_spec, !SFeqb_iguales.
    apply sf_iguales_trans.
Qed.

(** ** The claims on concrete data *)

Lemma sin_entrada_true `{PyFloat} (campo : string)
    (x : ejecucion (AnalizadorEstadistico.Resultados pyfloat)) :
  sin_entrada campo x = true ->
  exists r, x = Retorna r /\ AnalizadorEstadistico.campos r !! campo = None.
Proof.
  destruct x as [r|e]; simpl; [|done].
  destruct (AnalizadorEstadistico.campos r !! campo) eqn:Hc; [done|]. by exists r.
Qed.

(** C6. The totals by group are the sums, group by group, over the groups
    of [agrupar_por_campo]: for every value [v] of the grouping field other
    than [None], the group of [v] holds the records with that value, and
    its total is the sum, rounded to two decimals, of the values of
    [campo_suma] in them that coerce to a number. On binary64 floats, for
    the totals "10", "20", "30" in the regions "A", "B", "A", the grand
    total is 60.0 and the totals by region are A: 40.0 and B: 20.0. *)
Theorem totales_por_grupo_suma :
  (forall (PF : PyFloat) (campo_agrupacion campo_suma : string) (d : Dataset),
     Transformador.calcular_totales_por_grupo campo_agrupacion campo_suma d
     = (fun g => round2 (suma_flotantes (valores_coercibles campo_suma (registros g))))
       <$> Transformador.agrupar_por_campo campo_agrupacion d
     /\ forall v : string,
          Transformador.agrupar_por_campo campo_agrupacion d !! v
          = (if decide (v ∈ Dataset.obtener_valores_campo campo_agrupacion d)
             then Some (Transformador.filtrar_por_campo campo_agrupacion (Some v) d)
             else None)
          /\ registros (Transformador.filtrar_por_campo campo_agrupacion (Some v) d)
             = con_valor campo_agrupacion v (registros d)
          /\ Transformador.calcular_totales_por_grupo campo_agrupacion campo_suma d !! v
             = if decide (v ∈ Dataset.obtener_valores_campo campo_agrupacion d)
               then Some (round2 (suma_flotantes
                            (valores_coercibles campo_suma
                               (con_valor campo_agrupacion v (registros d)))))
               else None)
  /\ @AnalizadorVentas.calcular_ventas_totales ieee escenario_A = 60%float
  /\ @Transformador.calcular_totales_por_grupo ieee "region" "total" escenario_A
     = {[ "A" := 40%float; "B" := 20%float ]}.
Proof.
  split_and!.
  - intros PF campo_agrupacion campo_suma d. split.
    + rewrite calcular_totales_por_grupo_fmap. apply map_fmap_ext.
      intros v g _. unfold Dataset.obtener_registros. by rewrite sumar_campo_suma.
    + intros v. split_and!.
      * apply agrupar_por_campo_lookup.
      * apply registros_filtrar_por_campo.
      * apply calcular_totales_por_grupo_lookup.
  - vm_compute. reflexivity.
  - vm_compute. reflexivity.
Qed.

(** C1: on the prices 1.234, 1.234 and 5 the one most frequent value is
    1.234 and the reported mode is 1.23; on the prices 1 and 2, which have no
    single most frequent value, the reported mode is 1.0 and not [None]. *)
Lemma moda_contraejemplo :
  @valores_numericos ieee "precio" datos_moda_redondeada = [1.234; 1.234; 5]%float
  /\ moda_reportada "precio" (AnalizadorEstadistico.analizar datos_moda_redondeada)
     = Some 1.23%float
  /\ PrimFloat.eqb 1.23 1.234 = false
  /\ @valores_numericos ieee "precio" datos_sin_moda_unica = [1; 2]%float
  /\ moda_reportada "precio" (AnalizadorEstadistico.analizar datos_sin_moda_unica)
     = Some 1%float.
Proof. split_and!; vm_compute; reflexivity. Qed.

Lemma moda_valor_mas_frecuente_testigo :
  exists m : float,
    m ∈ [1.234; 1.234; 5]%float /\ PrimFloat.eqb m 1.234 = true
    /\ AnalizadorEstadistico.calcular_moda [1.234; 1.234; 5]%float
       = Retorna (Some (IEEE.round2 m))
    /\ forall e, AnalizadorEstadistico.estadisticas_numericas [1.234; 1.234; 5]%float
                 = Retorna e ->
                 AnalizadorEstadistico.moda e = Some (IEEE.round2 m).
Proof.
  apply (@moda_valor_mas_frecuente ieee ieee_leyes [1.234; 1.234; 5]%float 1.234%float).
  - apply list_elem_of_here.
  - intros w Hw.
    repeat (apply elem_of_cons in Hw as [->|Hw]);
      [vm_compute; discriminate | vm_compute; discriminate
       | intros _; vm_compute; lia | by apply elem_of_nil in Hw].
Defined.

(** C2: a record of the region "Norte" whose 'total' is [None]:
    [analizar()] reports no sum for the region, and
    [calcular_totales_por_grupo] the total 0. *)
Lemma ventas_por_grupo_contraejemplo :
  (list_to_map (AnalizadorVentas.por_region (AnalizadorVentas.analizar datos_total_nulo))
     : gmap string float) = ∅
  /\ @Transformador.calcular_totales_por_grupo ieee "region" "total" datos_total_nulo
     = {[ "Norte" := 0%float ]}
  /\ (list_to_map (AnalizadorVentas.por_region (AnalizadorVentas.analizar datos_total_nulo))
        : gmap string float)
     <> @Transformador.calcular_totales_por_grupo ieee "region" "total" datos_total_nulo.
Proof.
  split_and!; [vm_compute; reflexivity..|].
  intros Heq. apply (f_equal (fun m : gmap string float => m !! "Norte")) in Heq.
  vm_compute in Heq. discriminate.
Qed.

Lemma ventas_por_grupo_testigo :
  sumas_coinciden "region" escenario_A
    (AnalizadorVentas.por_region (AnalizadorVentas.analizar escenario_A))
  /\ sumas_coinciden "producto" escenario_A
       (AnalizadorVentas.por_producto (AnalizadorVentas.analizar escenario_A))
  /\ sumas_coinciden "categoria" escenario_A
       (AnalizadorVentas.por_categoria (AnalizadorVentas.analizar escenario_A))
  /\ sumas_coinciden "vendedor" escenario_A
       (AnalizadorVentas.por_vendedor (AnalizadorVentas.analizar escenario_A)).
Proof. exact (@ventas_por_grupo_en_totales ieee ieee_leyes escenario_A). Defined.

(** C3: the field "nota" of the schema holds [None] in every record, and the
    result of [analizar()] has no entry for it. *)
Lemma analizar_entrada_contraejemplo :
  "nota" ∈ Dataset.obtener_campos datos_campo_nulo
  /\ registros datos_campo_nulo <> []
  /\ exists r, @AnalizadorEstadistico.analizar ieee datos_campo_nulo = Retorna r
               /\ AnalizadorEstadistico.campos r !! "nota" = None.
Proof.
  split_and!.
  - vm_compute. apply list_elem_of_In. vm_compute. tauto.
  - done.
  - apply sin_entrada_true. vm_compute. reflexivity.
Qed.

Lemma analizar_entrada_por_campo_testigo :
  ((forall c', c' ∈ Dataset.obtener_campos escenario_A ->
      2 <= length (@valores_numericos ieee c' escenario_A) ->
      biblioteca_retorna (@valores_numericos ieee c' escenario_A))
   -> exists r, AnalizadorEstadistico.analizar escenario_A = Retorna r)
  /\ forall r, AnalizadorEstadistico.analizar escenario_A = Retorna r ->
       AnalizadorEstadistico.total_registros r = length (registros escenario_A)
       /\ if Nat.leb 2 (length (@valores_numericos ieee "total" escenario_A))
          then exists e,
                 AnalizadorEstadistico.estadisticas_numericas
                   (@valores_numericos ieee "total" escenario_A) = Retorna e
                 /\ AnalizadorEstadistico.campos r !! "total"
                    = Some (AnalizadorEstadistico.Numerico e)
          else exists e,
                 AnalizadorEstadistico.campos r !! "total"
                 = Some (AnalizadorEstadistico.Categorico e)
                 /\ categoricas_de (Dataset.obtener_valores_campo "total" escenario_A) e.
Proof.
  apply (@analizar_entrada_por_campo ieee ieee_leyes escenario_A "total").
  - done.
  - apply list_elem_of_In. vm_compute. tauto.
  - vm_compute. done.
Defined.

Lemma ultimas_n_operaciones_testigo :
  RegistroOperaciones.obtener_ultimas_n_operaciones 1 diario_ejemplo
  = drop (length (operaciones diario_ejemplo)
          - Nat.min (Z.to_nat 1) (length (operaciones diario_ejemplo)))
         (operaciones diario_ejemplo)
  /\ length (RegistroOperaciones.obtener_ultimas_n_operaciones 1 diario_ejemplo)
     = Nat.min (Z.to_nat 1) (length (operaciones diario_ejemplo))
  /\ (forall ahora1 e1 op1 p1 r1 ahora2 e2 op2 p2 r2,
        RegistroOperaciones.obtener_ultimas_n_operaciones 1
          (RegistroOperaciones.registrar_operacion ahora2 e2 "sales" op2 p2 r2
             (RegistroOperaciones.registrar_operacion ahora1 e1 "sales" op1 p1 r1
                diario_ejemplo))
        = [ {| timestamp := ahora2; dataset := "sales"; operacion := op2;
               parametros := default [] p2; resultado := r2 |} ]).
Proof. apply (ultimas_n_operaciones 1 diario_ejemplo). lia. Defined.

Lemma ultimas_cero_operaciones_testigo :
  RegistroOperaciones.obtener_ultimas_n_operaciones 0 diario_ejemplo
  = operaciones diario_ejemplo
  /\ RegistroOperaciones.obtener_ultimas_n_operaciones 0 diario_ejemplo <> [].
Proof. apply (ultimas_cero_operaciones diario_ejemplo). vm_compute. discriminate. Defined.

(** Scenario B: of three records, two of them equal, one is removed. *)
Example escenario_B :
  Limpiador.eliminar_duplicados
    {| registros := [ {[ "id" := Some "1" ]}; {[ "id" := Some "2" ]};
                      {[ "id" := Some "1" ]} ];
       nombre := "datos" |}
  = ({| registros := [ {[ "id" := Some "1" ]}; {[ "id" := Some "2" ]} ];
        nombre := "datos" |}, 1).
Proof. vm_compute. reflexivity. Qed.

(** Scenario D: of the values "5", "15" and "25", only "15" lies between
    10 and 20. *)
Example escenario_D :
  registros
    (@Transformador.filtrar_por_rango_numerico ieee "valor" 10%float 20%float
       {| registros := [ {[ "valor" := Some "5" ]}; {[ "valor" := Some "15" ]};
                         {[ "valor" := Some "25" ]} ];
          nombre := "datos" |})
  = [ {[ "valor" := Some "15" ]} ].
Proof. vm_compute. reflexivity. Qed.

(** Scenario C: the statistics of 1, 2, 3 and 4. *)
Example escenario_C :
  @AnalizadorEstadistico.estadisticas_numericas ieee [1; 2; 3; 4]%float
  = Retorna {| AnalizadorEstadistico.num_total_valores := 4;
               AnalizadorEstadistico.suma := 10;
               AnalizadorEstadistico.promedio := 2.5;
               AnalizadorEstadistico.mediana := 2.5;
               AnalizadorEstadistico.minimo := 1;
               AnalizadorEstadistico.maximo := 4;
               AnalizadorEstadistico.desviacion_estandar := Some 1.29;
               AnalizadorEstadistico.varianza := Some 1.67;
               AnalizadorEstadistico.moda := Some 1 |}%float.
Proof. vm_compute. reflexivity. Qed.

(** The journal of scenario E: two operations for "sales"; after clearing,
    no operation is left. *)
Example escenario_E :
  RegistroOperaciones.contar_operaciones diario_ejemplo = 2
  /\ RegistroOperaciones.obtener_todas_operaciones
       (RegistroOperaciones.limpiar_historial Escrita diario_ejemplo).1 = [].
Proof. split; reflexivity. Qed.

Lemma moda_nunca_nula_testigo :
  exists m : float,
    m ∈ [1; 2]%float
    /\ AnalizadorEstadistico.calcular_moda [1; 2]%float = Retorna (Some (IEEE.round2 m))
    /\ forall e, AnalizadorEstadistico.estadisticas_numericas [1; 2]%float = Retorna e ->
                 AnalizadorEstadistico.moda e = Some (IEEE.round2 m).
Proof. apply (@moda_nunca_nula ieee ieee_leyes [1; 2]%float). discriminate. Defined.

Lemma frecuencia_cero_del_texto_vacio_testigo :
  AnalizadorEstadistico.frecuencia_mas_comun
    (AnalizadorEstadistico.estadisticas_categoricas [""; ""; "x"]) = 0
  /\ 0 < veces "" [""; ""; "x"]
  /\ forall s, veces s [""; ""; "x"] <= veces "" [""; ""; "x"].
Proof.
  apply (frecuencia_cero_del_texto_vacio [""; ""; "x"]). vm_compute. reflexivity.
Defined.

(** X3. [analizar()] lets the exceptions of the [statistics] functions
    escape, other than the [StatisticsError] of the mode: on a field with
    the values 1e308 and -1e308, [statistics.variance] raises
    [OverflowError], and so does [analizar()]. *)
Example analizar_lanza_OverflowError :
  @valores_numericos ieee "monto" datos_montos_enormes = [1e308; -1e308]%float
  /\ @stat_variance ieee [1e308; -1e308]%float = Lanza OverflowError
  /\ @AnalizadorEstadistico.analizar ieee datos_montos_enormes = Lanza OverflowError.
Proof. split_and!; vm_compute; reflexivity. Qed.

(** * Further properties of the code

    ** Sums over lists and dictionaries keyed by text *)

Lemma sum_list_with_cero {A : Type} (f : A -> nat) (l : list A) :
  (forall x, f x = 0) -> sum_list_with f l = 0.
Proof. intros Hf. induction l as [|x l IH]; simpl; [done|]. by rewrite Hf, IH. Qed.

Lemma sum_list_with_mas {A : Type} (f g : A -> nat) (l : list A) :
  sum_list_with (fun x => f x + g x) l = sum_list_with f l + sum_list_with g l.
Proof. induction l as [|x l IH]; simpl; lia. Qed.

Lemma suma_indicador_texto (x : string) (ks : list string) :
  NoDup ks ->
  sum_list_with (fun k => if decide (x = k) then 1 else 0) ks
  = if decide (x ∈ ks) then 1 else 0.
Proof.
  induction 1 as [|k ks Hk Hks IH]; [done|]. cbn [sum_list_with].
  rewrite IH. destruct (decide (x = k)) as [->|Hne].
  - rewrite (decide_False (P := k ∈ ks)) by done.
    by rewrite decide_True by apply list_elem_of_here.
  - destruct (decide (x ∈ ks)) as [Hin|Hnin].
    + by rewrite decide_True by (by apply list_elem_of_further).
    + rewrite decide_False; [done|]. by intros [?|?]%elem_of_cons.
Qed.

Lemma suma_veces (ks l : list string) :
  NoDup ks -> (forall x, x ∈ l -> x ∈ ks) ->
  sum_list_with (fun k => veces k l) ks = length l.
Proof.
  intros Hks. induction l as [|x l IH]; intros Hl.
  - apply sum_list_with_cero. done.
  - specialize (IH (fun y Hy => Hl y (list_elem_of_further _ _ _ Hy))).
    transitivity (sum_list_with (fun k => (if decide (x = k) then 1 else 0) + veces k l) ks).
    { clear. induction ks as [|k ks IHks]; [done|]. cbn [sum_list_with].
      rewrite IHks. f_equal. unfold veces. rewrite filter_cons.
      by destruct (decide (x = k)). }
    rewrite sum_list_with_mas, IH, suma_indicador_texto by done.
    rewrite decide_True by apply Hl, list_elem_of_here. done.
Qed.

Lemma claves_dict_set {V : Type} (d : list (string * V)) (k : string) (v : V) :
  (dict_set String.eqb d k v).*1 = if decide (k ∈ d.*1) then d.*1 else d.*1 ++ [k].
Proof.
  induction d as [|[k' v'] d IH]; [done|]. cbn [dict_set fmap list_fmap fst].
  destruct (String.eqb_spec k' k) as [->|Hne].
  - rewrite decide_True by apply list_elem_of_here. done.
  - cbn [fmap list_fmap fst] in *. change (list_fmap _ _ fst ?l) with (l.*1) in *.
    rewrite IH. destruct (decide (k ∈ d.*1)) as [Hin|Hnin].
    + rewrite decide_True by (by apply list_elem_of_further). done.
    + rewrite decide_False; [done|]. intros [->|?]%elem_of_cons; done.
Qed.

Lemma claves_contar_texto (l : list string) :
  (contar_elementos String.eqb l).*1 = primeras_apariciones l.
Proof.
  unfold contar_elementos.
  induction l as [|x l IH] using rev_ind; [done|].
  rewrite foldl_app. cbn [foldl]. rewrite claves_dict_set, IH, primeras_apariciones_snoc.
  destruct (decide (x ∈ primeras_apariciones l)) as [Hin|Hnin].
  - rewrite decide_True by (by apply elem_of_primeras_apariciones). by rewrite app_nil_r.
  - rewrite decide_False by (by rewrite <- elem_of_primeras_apariciones). done.
Qed.

Lemma dict_get_in {V : Type} (d : list (string * V)) (k : string) (v : V) :
  NoDup d.*1 -> (k, v) ∈ d -> dict_get String.eqb d k = Some v.
Proof.
  induction d as [|[k' v'] d IH]; [by intros _ ?%elem_of_nil|].
  cbn [fmap list_fmap fst]. change (list_fmap _ _ fst d) with (d.*1).
  intros [Hk' Hnd]%NoDup_cons [[= -> ->]|Hin]%elem_of_cons; cbn [dict_get].
  - by rewrite String.eqb_refl.
  - destruct (String.eqb_spec k' k) as [->|Hne]; [|by apply IH].
    exfalso. apply Hk'. apply list_elem_of_fmap. by exists (k, v).
Qed.

Lemma contar_texto_eq (l : list string) :
  contar_elementos String.eqb l
  = (fun s => (s, veces s l)) <$> primeras_apariciones l.
Proof.
  rewrite <- claves_contar_texto.
  assert (Hnd : NoDup (contar_elementos String.eqb l).*1).
  { rewrite claves_contar_texto. apply NoDup_primeras_apariciones. }
  assert (Hval : forall k v, (k, v) ∈ contar_elementos String.eqb l -> v = veces k l).
  { intros k v Hin. pose proof (dict_get_in _ k v Hnd Hin) as Hget.
    rewrite distribucion_lookup in Hget. destruct (decide (k ∈ l)); congruence. }
  clear Hnd. induction (contar_elementos String.eqb l) as [|[k v] d IH]; [done|].
  cbn [fmap list_fmap fst]. f_equal.
  - f_equal. apply Hval, list_elem_of_here.
  - apply IH. intros k' v' Hin. by apply Hval, list_elem_of_further.
Qed.

Lemma list_filter_idem {A : Type} (p : A -> bool) (l : list A) :
  List.filter p (List.filter p l) = List.filter p l.
Proof.
  induction l as [|x l IH]; [done|]. simpl.
  destruct (p x) eqn:Hx; simpl; [rewrite Hx|]; by rewrite IH.
Qed.

Lemma NoDup_list_filter {A : Type} (p : A -> bool) (l : list A) :
  NoDup l -> NoDup (List.filter p l).
Proof. intros Hl. exact (sublist_NoDup _ _ Hl (sublist_list_filter p l)). Qed.

Lemma es_retorna_true {A : Type} (x : ejecucion A) :
  es_retorna x = true -> exists a, x = Retorna a.
Proof. destruct x; [by eexists|done]. Qed.

(** ** Transformador: the groups part the records *)

Lemma length_con_valor_cons (campo v : string) (r : Registro) (l : list Registro) :
  length (con_valor campo v (r :: l))
  = (if decide (Registro.obtener_campo r campo = Some v) then 1 else 0)
    + length (con_valor campo v l).
Proof.
  unfold con_valor. rewrite filter_cons.
  by destruct (decide (Registro.obtener_campo r campo = Some v)).
Qed.

Lemma suma_indicador (v : string) (ks : list string) :
  NoDup ks ->
  sum_list_with (fun k => if decide (Some v = Some k :> option string) then 1 else 0) ks
  = if decide (v ∈ ks) then 1 else 0.
Proof.
  induction 1 as [|k ks Hk Hks IH]; simpl; [done|].
  rewrite IH. destruct (decide (Some v = Some k)) as [[= ->]|Hne].
  - rewrite decide_False by done. rewrite decide_True by apply list_elem_of_here. done.
  - destruct (decide (v ∈ ks)) as [Hin|Hnin].
    + rewrite decide_True by (by apply list_elem_of_further). done.
    + rewrite decide_False; [done|].
      intros [->|?]%elem_of_cons; [by apply Hne|done].
Qed.

Lemma suma_con_valor (campo : string) (ks : list string) (l : list Registro) :
  NoDup ks ->
  (forall r v, r ∈ l -> Registro.obtener_campo r campo = Some v -> v ∈ ks) ->
  sum_list_with (fun k => length (con_valor campo k l)) ks
  = length (omap (fun r => Registro.obtener_campo r campo) l).
Proof.
  intros Hks. induction l as [|r l IH]; intros Hl.
  - clear. induction ks as [|k ks IHks]; [done|]. simpl in *. done.
  - specialize (IH (fun r' v Hr' => Hl r' v (list_elem_of_further _ _ _ Hr'))).
    transitivity
      (sum_list_with
         (fun k => (if decide (Registro.obtener_campo r campo = Some k) then 1 else 0)
                   + length (con_valor campo k l)) ks).
    { clear Hks Hl IH. induction ks as [|k ks IHks]; [done|]. simpl.
      by rewrite length_con_valor_cons, IHks. }
    assert (Hsplit : forall (f g : string -> nat) (ks : list string),
               sum_list_with (fun k => f k + g k) ks
               = sum_list_with f ks + sum_list_with g ks).
    { intros f g ks'. induction ks' as [|k ks' IHks']; simpl; lia. }
    rewrite Hsplit, IH. csimpl.
    destruct (Registro.obtener_campo r campo) as [v|] eqn:Hv.
    + rewrite suma_indicador by done.
      rewrite decide_True by (eapply Hl; [apply list_elem_of_here|done]).
      done.
    + rewrite sum_list_with_cero; [done|]. intros k. by case_decide.
Qed.

Lemma agrupar_por_campo_set (campo : string) (d : Dataset) :
  Transformador.agrupar_por_campo campo d
  = set_to_map (fun v => (v, Transformador.filtrar_por_campo campo (Some v) d))
      (list_to_set (Dataset.obtener_valores_campo campo d) : gset string).
Proof.
  apply map_eq. intros v. rewrite agrupar_por_campo_lookup.
  destruct (decide (v ∈ Dataset.obtener_valores_campo campo d)) as [Hin|Hnin].
  - symmetry. apply lookup_set_to_map; [by intros ?? _ _ [= ->]|].
    exists v. split; [|done]. by apply elem_of_list_to_set.
  - symmetry. apply eq_None_not_Some. intros [g Hg].
    apply lookup_set_to_map in Hg as (v' & Hv' & [= -> _]); [|by intros ?? _ _ [= ->]].
    by apply elem_of_list_to_set in Hv'.
Qed.

Lemma obtener_valores_campo_elem (campo : string) (d : Dataset) (v : string) :
  v ∈ Dataset.obtener_valores_campo campo d
  <-> exists r, r ∈ registros d /\ Registro.obtener_campo r campo = Some v.
Proof. unfold Dataset.obtener_valores_campo. apply list_elem_of_omap. Qed.

(** X4. [agrupar_por_campo] parts the records that have a value of the
    field: every group is not empty, is named after the dataset and holds
    exactly the records with its value; every record with a value is in the
    group of that value; and the sizes of the groups add up to the number
    of records whose value is not [None], so that the records without a
    value are in no group. *)
Theorem agrupar_por_campo_particion (campo : string) (d : Dataset) :
  (forall v g, Transformador.agrupar_por_campo campo d !! v = Some g ->
     registros g <> []
     /\ nombre g = (nombre d ++ "_filtrado")%string
     /\ forall r, r ∈ registros g
                  <-> r ∈ registros d /\ Registro.obtener_campo r campo = Some v)
  /\ (forall r v, r ∈ registros d -> Registro.obtener_campo r campo = Some v ->
        exists g, Transformador.agrupar_por_campo campo d !! v = Some g)
  /\ sum_list_with (fun p => Dataset.cantidad_registros p.2)
       (map_to_list (Transformador.agrupar_por_campo campo d))
     = length (Dataset.obtener_valores_campo campo d)
  /\ length (Dataset.obtener_valores_campo campo d)
     = length (filter (fun r => is_Some (Registro.obtener_campo r campo)) (registros d)).
Proof.
  split_and!.
  - intros v g. rewrite agrupar_por_campo_lookup.
    destruct (decide (v ∈ Dataset.obtener_valores_campo campo d)) as [Hin|]; [|done].
    intros [= <-]. rewrite registros_filtrar_por_campo.
    assert (Hr : forall r, r ∈ con_valor campo v (registros d)
                           <-> r ∈ registros d /\ Registro.obtener_campo r campo = Some v).
    { intros r. unfold con_valor. rewrite list_elem_of_filter. tauto. }
    split_and!.
    + apply obtener_valores_campo_elem in Hin as (r & Hr1 & Hr2).
      intros Hnil. assert (Hin : r ∈ con_valor campo v (registros d)) by by apply Hr.
      rewrite Hnil in Hin. by apply elem_of_nil in Hin.
    + unfold Transformador.filtrar_por_campo. apply nombre_filtrar.
    + done.
  - intros r v Hr Hv. rewrite agrupar_por_campo_lookup.
    rewrite decide_True; [by eexists|].
    apply obtener_valores_campo_elem. by exists r.
  - rewrite agrupar_por_campo_set.
    rewrite (sum_list_with_Permutation_proper _ _
               ((fun v => (v, Transformador.filtrar_por_campo campo (Some v) d))
                  <$> elements (list_to_set (Dataset.obtener_valores_campo campo d)
                                : gset string))).
    2:{ apply map_to_list_to_map. rewrite <- list_fmap_compose.
        rewrite (list_fmap_ext _ id _ (fun _ _ _ => eq_refl)), list_fmap_id.
        apply NoDup_elements. }
    transitivity
      (sum_list_with (fun k => length (con_valor campo k (registros d)))
         (elements (list_to_set (Dataset.obtener_valores_campo campo d) : gset string))).
    { generalize (elements (list_to_set (Dataset.obtener_valores_campo campo d)
                            : gset string)).
      intros ks. induction ks as [|k ks IH]; [done|]. csimpl. rewrite IH. f_equal.
      unfold Dataset.cantidad_registros. by rewrite registros_filtrar_por_campo. }
    apply suma_con_valor; [apply NoDup_elements|].
    intros r v Hr Hv. apply elem_of_elements, elem_of_list_to_set.
    apply obtener_valores_campo_elem. by exists r.
  - unfold Dataset.obtener_valores_campo.
    induction (registros d) as [|r l IH]; [done|]. csimpl. rewrite filter_cons.
    destruct (Registro.obtener_campo r campo) as [v|]; case_decide as Hs; csimpl.
    + by rewrite IH.
    + exfalso. apply Hs. by eexists.
    + by destruct Hs.
    + done.
Qed.

(** ** Transformador: projection, prefix, composed filters *)

Lemma datos_filtrados_lookup (registro : Registro) (campos : list string)
    (datos0 : Registro) (k : string) :
  foldl (fun datos_filtrados campo =>
           if Registro.tiene_campo registro campo
           then <[campo := Registro.obtener_campo registro campo]> datos_filtrados
           else datos_filtrados) datos0 campos !! k
  = if decide (k ∈ campos /\ is_Some (registro !! k)) then registro !! k else datos0 !! k.
Proof.
  revert datos0. induction campos as [|c campos IH]; intros datos0.
  - cbn [foldl]. rewrite decide_False; [done|]. by intros [?%elem_of_nil _].
  - cbn [foldl]. rewrite IH. unfold Registro.tiene_campo, Registro.obtener_campo.
    destruct (decide (k ∈ campos /\ is_Some (registro !! k))) as [[Hin Hk]|Hno].
    + rewrite decide_True; [done|]. split; [by apply list_elem_of_further|done].
    + rewrite bool_decide_decide.
      destruct (decide (is_Some (registro !! c))) as [[x Hc]|Hc].
      * rewrite Hc. destruct (decide (k = c)) as [->|Hkc].
        -- rewrite lookup_insert_eq, decide_True; [done|].
           split; [apply list_elem_of_here|by eexists].
        -- rewrite lookup_insert_ne by done.
           rewrite decide_False; [done|].
           intros [[->|?]%elem_of_cons ?]; [done|]. by apply Hno.
      * rewrite decide_False; [done|].
        intros [[->|?]%elem_of_cons ?]; [done|]. by apply Hno.
Qed.

Lemma datos_filtrados_filter (registro : Registro) (campos : list string) :
  foldl (fun datos_filtrados campo =>
           if Registro.tiene_campo registro campo
           then <[campo := Registro.obtener_campo registro campo]> datos_filtrados
           else datos_filtrados) (∅ : Registro) campos
  = filter (fun p => p.1 ∈ campos) registro.
Proof.
  apply map_eq. intros k. rewrite datos_filtrados_lookup, lookup_empty.
  destruct (registro !! k) as [x|] eqn:Hk.
  - destruct (decide (k ∈ campos)) as [Hin|Hnin].
    + rewrite decide_True by (split; [done|by eexists]).
      symmetry. by apply map_lookup_filter_Some.
    + rewrite decide_False by tauto.
      symmetry. apply map_lookup_filter_None. right. intros y Hy. done.
  - rewrite decide_False by (by intros [_ [? ?]]).
    symmetry. apply map_lookup_filter_None. by left.
Qed.

Lemma seleccionar_campos_eq (campos : list string) (d : Dataset) :
  Transformador.seleccionar_campos campos d
  = {| registros := (fun r : Registro => filter (fun p => p.1 ∈ campos) r) <$> registros d;
       nombre := (nombre d ++ "_proyectado")%string |}.
Proof.
  unfold Transformador.seleccionar_campos, Dataset.obtener_registros,
    Dataset.obtener_nombre, Dataset.nuevo.
  generalize (nombre d ++ "_proyectado")%string. intros nom.
  change (@nil Registro) with (@nil Registro ++ []) at 1.
  change ((fun r : Registro => filter (fun p => p.1 ∈ campos) r) <$> registros d)
    with ([] ++ ((fun r : Registro => filter (fun p => p.1 ∈ campos) r) <$> registros d)).
  generalize (@nil Registro) at 1 3. 
  induction (registros d) as [|r l IH]; intros acc.
  - simpl. by rewrite !app_nil_r.
  - simpl. unfold Dataset.agregar_registro at 2. simpl.
    rewrite app_nil_r. rewrite datos_filtrados_filter.
    specialize (IH (acc ++ [filter (fun p => p.1 ∈ campos) r])).
    rewrite app_nil_r in IH. rewrite IH. by rewrite <- app_assoc.
Qed.

Lemma proyeccion_lookup (campos : list string) (r : Registro) (k : string) :
  filter (fun p : string * option string => p.1 ∈ campos) r !! k
  = if decide (k ∈ campos) then r !! k else None.
Proof.
  destruct (decide (k ∈ campos)) as [Hin|Hnin].
  - destruct (r !! k) as [x|] eqn:Hk.
    + by apply map_lookup_filter_Some.
    + apply map_lookup_filter_None. by left.
  - apply map_lookup_filter_None. right. by intros x _.
Qed.

(** X5. [seleccionar_campos(campos)] keeps every record, in order, with
    exactly those of its fields that [campos] names and with their values;
    the dataset is renamed with the suffix "_proyectado"; projecting twice on
    the same fields changes nothing more, and two projections commute. *)
Theorem seleccionar_campos_proyecta (campos campos' : list string) (d : Dataset) :
  nombre (Transformador.seleccionar_campos campos d) = (nombre d ++ "_proyectado")%string
  /\ length (registros (Transformador.seleccionar_campos campos d)) = length (registros d)
  /\ (forall i r, registros d !! i = Some r ->
        exists r', registros (Transformador.seleccionar_campos campos d) !! i = Some r'
                   /\ forall k, r' !! k = if decide (k ∈ campos) then r !! k else None)
  /\ registros (Transformador.seleccionar_campos campos
                  (Transformador.seleccionar_campos campos d))
     = registros (Transformador.seleccionar_campos campos d)
  /\ registros (Transformador.seleccionar_campos campos'
                  (Transformador.seleccionar_campos campos d))
     = registros (Transformador.seleccionar_campos campos
                    (Transformador.seleccionar_campos campos' d)).
Proof.
  rewrite !seleccionar_campos_eq. cbn [registros nombre]. split_and!.
  - done.
  - by rewrite length_fmap.
  - intros i r Hr. eexists. split.
    + rewrite list_lookup_fmap, Hr. done.
    + intros k. apply proyeccion_lookup.
  - rewrite <- list_fmap_compose. apply list_fmap_ext. intros _ r _. simpl.
    apply map_eq. intros k. rewrite !proyeccion_lookup. by case_decide.
  - rewrite <- !list_fmap_compose. apply list_fmap_ext. intros _ r _. simpl.
    apply map_eq. intros k. rewrite !proyeccion_lookup. by repeat case_decide.
Qed.

Lemma obtener_primeros_n_eq (n : Z) (d : Dataset) :
  Transformador.obtener_primeros_n n d
  = {| registros := py_slice_to n (registros d);
       nombre := (nombre d ++ "_top" ++ pretty n)%string |}.
Proof.
  unfold Transformador.obtener_primeros_n, Dataset.obtener_registros,
    Dataset.obtener_nombre.
  apply Dataset_eq.
  - by rewrite registros_agregar_registros.
  - by rewrite nombre_agregar_registros.
Qed.

(** X6. [obtener_primeros_n(n)] names its result with the suffix "_top"
    and [n] in decimal. For [n] of 0 or more the result holds the first [n]
    records, or all of them when there are fewer; for a negative [n] it holds
    all the records but the last [-n], and not an empty dataset. *)
Theorem obtener_primeros_n_prefijo (n : Z) (d : Dataset) :
  nombre (Transformador.obtener_primeros_n n d) = (nombre d ++ "_top" ++ pretty n)%string
  /\ ((0 <= n)%Z ->
        registros (Transformador.obtener_primeros_n n d)
        = take (Z.to_nat n) (registros d)
        /\ Dataset.cantidad_registros (Transformador.obtener_primeros_n n d)
           = Nat.min (Z.to_nat n) (length (registros d)))
  /\ ((n < 0)%Z ->
        registros (Transformador.obtener_primeros_n n d)
        = take (length (registros d) - Z.to_nat (- n)) (registros d)
        /\ Dataset.cantidad_registros (Transformador.obtener_primeros_n n d)
           = length (registros d) - Z.to_nat (- n)).
Proof.
  rewrite obtener_primeros_n_eq. unfold Dataset.cantidad_registros.
  cbn [registros nombre]. unfold py_slice_to, py_slice_bound.
  set (l := registros d). split_and!; [done| |].
  - intros Hn. rewrite (proj2 (Z.ltb_ge n 0)) by lia.
    assert (Hmin : take (Z.to_nat (Z.min n (Z.of_nat (length l)))) l = take (Z.to_nat n) l).
    { destruct (Z.le_ge_cases n (Z.of_nat (length l))).
      - by rewrite Z.min_l by lia.
      - rewrite Z.min_r by lia. rewrite Nat2Z.id.
        rewrite !take_ge by lia. done. }
    rewrite Hmin. split; [done|]. rewrite length_take. lia.
  - intros Hn. rewrite (proj2 (Z.ltb_lt n 0)) by lia.
    replace (Z.to_nat (Z.max 0 (n + Z.of_nat (length l))))
      with (length l - Z.to_nat (- n)) by lia.
    split; [done|]. rewrite length_take. lia.
Qed.

(** X7. Filters compose: filtering by [q] and then by [p] keeps, in order,
    the records that satisfy both, whichever filter comes first; a filter
    applied twice keeps what it kept the first time; and each filter adds the
    suffix "_filtrado" to the name. *)
Theorem filtros_componen (p q : Registro -> bool) (d : Dataset) :
  registros (Transformador.filtrar_por_condicion_personalizada p (Transformador.filtrar_por_condicion_personalizada q d))
  = List.filter (fun r => q r && p r) (registros d)
  /\ registros (Transformador.filtrar_por_condicion_personalizada p (Transformador.filtrar_por_condicion_personalizada q d))
     = registros (Transformador.filtrar_por_condicion_personalizada q (Transformador.filtrar_por_condicion_personalizada p d))
  /\ registros (Transformador.filtrar_por_condicion_personalizada p (Transformador.filtrar_por_condicion_personalizada p d)) = registros (Transformador.filtrar_por_condicion_personalizada p d)
  /\ nombre (Transformador.filtrar_por_condicion_personalizada p (Transformador.filtrar_por_condicion_personalizada q d))
     = ((nombre d ++ "_filtrado") ++ "_filtrado")%string.
Proof.
  unfold Transformador.filtrar_por_condicion_personalizada.
  rewrite !registros_filtrar, !nombre_filtrar.
  assert (Hpq : forall (p q : Registro -> bool) (l : list Registro),
             List.filter p (List.filter q l) = List.filter (fun r => q r && p r) l).
  { intros p' q' l. induction l as [|r l IH]; [done|]. simpl.
    destruct (q' r); simpl; [destruct (p' r)|]; by rewrite IH. }
  split_and!.
  - apply Hpq.
  - rewrite !Hpq. apply List.filter_ext. intros r. apply andb_comm.
  - rewrite Hpq. apply List.filter_ext. intros r. by destruct (p r).
  - done.
Qed.

(** ** Limpiador: empty records *)

Lemma con_dato_es_vacio (valor : option string) :
  Limpiador.con_dato valor = negb (Registro.es_vacio valor).
Proof.
  destruct valor as [s|]; [|done]. simpl.
  by destruct (String.eqb s ""), (String.eqb s "NULL").
Qed.

Lemma con_dato_true (valor : option string) :
  Limpiador.con_dato valor = true <-> exists s, valor = Some s /\ s <> "" /\ s <> "NULL".
Proof.
  destruct valor as [s|]; simpl.
  - destruct (String.eqb_spec s ""), (String.eqb_spec s "NULL"); simpl;
      split; try done; try (intros (? & [= <-] & ? & ?); done).
    intros _. by exists s.
  - split; [done|]. by intros (? & ? & _).
Qed.

Lemma tiene_datos_con_datos (r : Registro) :
  Limpiador.tiene_datos r = true <-> con_datos r.
Proof.
  unfold Limpiador.tiene_datos, con_datos, Registro.obtener_todos_campos.
  rewrite existsb_exists. split.
  - intros ([k v] & Hin & Hv). apply con_dato_true in Hv as (s & -> & ? & ?).
    exists k, s. split; [|done].
    apply list_elem_of_In in Hin. by apply elem_of_map_to_list in Hin.
  - intros (k & s & Hk & ? & ?). exists (k, Some s). split.
    + apply list_elem_of_In. by apply elem_of_map_to_list.
    + apply con_dato_true. by exists s.
Qed.

Lemma tiene_datos_es_valido (r : Registro) :
  Limpiador.tiene_datos r = true -> Registro.es_valido r = true.
Proof.
  intros (k & s & Hk & _)%tiene_datos_con_datos.
  unfold Registro.es_valido. apply bool_decide_eq_true.
  destruct (decide (size r = 0)) as [H0|]; [|lia].
  apply map_size_empty_iff in H0. subst r. by rewrite lookup_empty in Hk.
Qed.

Lemma bucle_registros_vacios (l : list Registro) :
  foldl (fun '(registros_validos, eliminados) registro =>
           if Registro.es_valido registro
           then if Limpiador.tiene_datos registro
                then (registros_validos ++ [registro], eliminados)
                else (registros_validos, eliminados + 1)
           else (registros_validos, eliminados + 1))
        ([], 0) l
  = (List.filter Limpiador.tiene_datos l,
     length l - length (List.filter Limpiador.tiene_datos l)).
Proof.
  induction l as [|r l IH] using rev_ind; [done|].
  rewrite foldl_app, IH. cbn [foldl].
  rewrite List.filter_app, !length_app. cbn [List.filter].
  pose proof (sublist_length _ _ (sublist_list_filter Limpiador.tiene_datos l)) as Hlen.
  destruct (Limpiador.tiene_datos r) eqn:Hr.
  - rewrite (tiene_datos_es_valido r Hr). simpl. f_equal. lia.
  - rewrite app_nil_r. simpl.
    destruct (Registro.es_valido r); f_equal; lia.
Qed.

Lemma eliminar_registros_vacios_eq (d : Dataset) :
  Limpiador.eliminar_registros_vacios d
  = ({| registros := List.filter Limpiador.tiene_datos (registros d);
        nombre := nombre d |},
     length (registros d) - length (List.filter Limpiador.tiene_datos (registros d))).
Proof.
  unfold Limpiador.eliminar_registros_vacios, Dataset.obtener_registros.
  rewrite bucle_registros_vacios. f_equal.
  apply Dataset_eq.
  - by rewrite registros_agregar_registros.
  - by rewrite nombre_agregar_registros.
Qed.

Lemma obtener_campos_vacios_filter (r : Registro) :
  Registro.obtener_campos_vacios r
  = (filter (fun p : string * option string => Registro.es_vacio p.2 = true)
       (map_to_list r)).*1.
Proof.
  unfold Registro.obtener_campos_vacios.
  induction (map_to_list r) as [|[k v] l IH] using rev_ind; [done|].
  rewrite foldl_app, filter_app, fmap_app, <- IH. cbn [foldl].
  rewrite filter_cons, filter_nil. cbn [snd].
  destruct (Registro.es_vacio v); simpl; [done|by rewrite app_nil_r].
Qed.

Lemma elem_of_obtener_campos_vacios (r : Registro) (k : string) :
  k ∈ Registro.obtener_campos_vacios r
  <-> exists v, r !! k = Some v /\ Registro.es_vacio v = true.
Proof.
  rewrite obtener_campos_vacios_filter, list_elem_of_fmap. split.
  - intros ([k' v] & -> & Hin). apply list_elem_of_filter in Hin as [Hv Hin].
    exists v. split; [by apply elem_of_map_to_list|done].
  - intros (v & Hk & Hv). exists (k, v). split; [done|].
    apply list_elem_of_filter. split; [done|by apply elem_of_map_to_list].
Qed.

(** X8. [eliminar_registros_vacios()] keeps, in order, the records that
    have data (a field with a text other than the empty one and "NULL") and
    removes the others, which are the records all of whose fields
    [obtener_campos_vacios] lists; it returns the number of removed records;
    a second call right after it returns 0 and leaves the dataset as it
    is. *)
Theorem eliminar_registros_vacios_exacto (d : Dataset) :
  registros (Limpiador.eliminar_registros_vacios d).1
  = List.filter Limpiador.tiene_datos (registros d)
  /\ (forall r, Limpiador.tiene_datos r = true <-> con_datos r)
  /\ (forall r, Limpiador.tiene_datos r = false
                <-> forall k, is_Some (r !! k) -> k ∈ Registro.obtener_campos_vacios r)
  /\ sublist (registros (Limpiador.eliminar_registros_vacios d).1) (registros d)
  /\ nombre (Limpiador.eliminar_registros_vacios d).1 = nombre d
  /\ (Limpiador.eliminar_registros_vacios d).2
     + length (registros (Limpiador.eliminar_registros_vacios d).1)
     = length (registros d)
  /\ Limpiador.eliminar_registros_vacios (Limpiador.eliminar_registros_vacios d).1
     = ((Limpiador.eliminar_registros_vacios d).1, 0).
Proof.
  rewrite eliminar_registros_vacios_eq. cbn [fst snd registros nombre].
  pose proof (sublist_length _ _ (sublist_list_filter Limpiador.tiene_datos (registros d))).
  split_and!.
  - done.
  - apply tiene_datos_con_datos.
  - intros r. rewrite <- not_true_iff_false, tiene_datos_con_datos. split.
    + intros Hno k [v Hk]. apply elem_of_obtener_campos_vacios. exists v. split; [done|].
      destruct (Registro.es_vacio v) eqn:Hv; [done|]. exfalso. apply Hno.
      assert (Hc : Limpiador.con_dato v = true) by (by rewrite con_dato_es_vacio, Hv).
      apply con_dato_true in Hc as (s & -> & ? & ?). by exists k, s.
    + intros Hall (k & s & Hk & Hs1 & Hs2).
      destruct (proj1 (elem_of_obtener_campos_vacios r k) (Hall k (ex_intro _ _ Hk)))
        as (v & Hk' & Hv).
      rewrite Hk in Hk'. injection Hk' as <-. simpl in Hv.
      destruct (String.eqb_spec s ""), (String.eqb_spec s "NULL"); done.
  - apply sublist_list_filter.
  - done.
  - lia.
  - rewrite eliminar_registros_vacios_eq. cbn [registros nombre].
    rewrite list_filter_idem. by rewrite Nat.sub_diag.
Qed.

(** ** Limpiador: the complete cleaning *)

Lemma limpiar_completo_eq (d : Dataset) :
  Limpiador.limpiar_completo d
  = ({| registros := List.filter Limpiador.tiene_datos (primeras_apariciones (registros d));
        nombre := nombre d |},
     {| Limpiador.duplicados_eliminados :=
          length (registros d) - length (primeras_apariciones (registros d));
        Limpiador.vacios_eliminados :=
          length (primeras_apariciones (registros d))
          - length (List.filter Limpiador.tiene_datos (primeras_apariciones (registros d)));
        Limpiador.registros_finales :=
          length (List.filter Limpiador.tiene_datos (primeras_apariciones (registros d))) |}).
Proof.
  unfold Limpiador.limpiar_completo.
  rewrite eliminar_duplicados_eq, eliminar_registros_vacios_eq. done.
Qed.

(** X9. [limpiar_completo()] leaves the first occurrence of every record
    that has data, without duplicates; the three counts it returns add up to
    the number of records before the call, and [registros_finales] is the
    number of records left; a second call right after it removes nothing. *)
Theorem limpiar_completo_cuentas (d : Dataset) :
  registros (Limpiador.limpiar_completo d).1
  = List.filter Limpiador.tiene_datos (primeras_apariciones (registros d))
  /\ NoDup (registros (Limpiador.limpiar_completo d).1)
  /\ (forall r, r ∈ registros (Limpiador.limpiar_completo d).1
                <-> r ∈ registros d /\ con_datos r)
  /\ Limpiador.duplicados_eliminados (Limpiador.limpiar_completo d).2
     + Limpiador.vacios_eliminados (Limpiador.limpiar_completo d).2
     + Limpiador.registros_finales (Limpiador.limpiar_completo d).2
     = length (registros d)
  /\ Limpiador.registros_finales (Limpiador.limpiar_completo d).2
     = length (registros (Limpiador.limpiar_completo d).1)
  /\ Limpiador.limpiar_completo (Limpiador.limpiar_completo d).1
     = ((Limpiador.limpiar_completo d).1,
        {| Limpiador.duplicados_eliminados := 0;
           Limpiador.vacios_eliminados := 0;
           Limpiador.registros_finales :=
             Limpiador.registros_finales (Limpiador.limpiar_completo d).2 |}).
Proof.
  rewrite limpiar_completo_eq.
  cbn [fst snd registros nombre Limpiador.duplicados_eliminados
       Limpiador.vacios_eliminados Limpiador.registros_finales].
  pose proof (sublist_length _ _ (sublist_primeras_apariciones (registros d))).
  pose proof (sublist_length _ _
    (sublist_list_filter Limpiador.tiene_datos (primeras_apariciones (registros d)))).
  assert (Hnd : NoDup (List.filter Limpiador.tiene_datos
                         (primeras_apariciones (registros d)))).
  { apply NoDup_list_filter, NoDup_primeras_apariciones. }
  split_and!.
  - done.
  - done.
  - intros r. rewrite elem_of_list_filter, elem_of_primeras_apariciones,
      tiene_datos_con_datos. done.
  - lia.
  - done.
  - rewrite limpiar_completo_eq. cbn [registros nombre].
    rewrite (primeras_apariciones_NoDup _ Hnd), list_filter_idem, !Nat.sub_diag. done.
Qed.

(** ** Limpiador: validation of numeric fields *)

Section Validacion.
  Context `{PF : PyFloat} `{!PyFloatLaws PF}.

Lemma errores_por_campo_claves (campos : list string) (d : Dataset) :
  (Limpiador.errores_por_campo (Limpiador.validar_tipos_numericos campos d)).*1
  = primeras_apariciones campos.
Proof.
  unfold Limpiador.validar_tipos_numericos. cbn [Limpiador.errores_por_campo].
  induction campos as [|c campos IH] using rev_ind; [done|].
  rewrite foldl_app. cbn [foldl]. rewrite claves_dict_set, IH.
  rewrite primeras_apariciones_snoc.
  destruct (decide (c ∈ primeras_apariciones campos)) as [Hin|Hnin].
  - rewrite decide_True by (by apply elem_of_primeras_apariciones). by rewrite app_nil_r.
  - rewrite decide_False by (by rewrite <- elem_of_primeras_apariciones). done.
Qed.

Lemma errores_por_campo_lookup (campos : list string) (d : Dataset) (c : string) :
  dict_get String.eqb
    (Limpiador.errores_por_campo (Limpiador.validar_tipos_numericos campos d)) c
  = if decide (c ∈ campos)
    then Some (Limpiador.contar_errores c (registros d))
    else None.
Proof.
  unfold Limpiador.validar_tipos_numericos, Dataset.obtener_registros.
  cbn [Limpiador.errores_por_campo].
  induction campos as [|c' campos IH] using rev_ind.
  - cbn [foldl dict_get]. by rewrite decide_False by apply not_elem_of_nil.
  - rewrite foldl_app. cbn [foldl]. rewrite dict_get_set, IH.
    destruct (decide (c' = c)) as [->|Hne].
    + rewrite decide_True; [done|]. apply elem_of_app. right. apply list_elem_of_here.
    + destruct (decide (c ∈ campos)) as [Hin|Hnin].
      * rewrite decide_True; [done|]. apply elem_of_app. by left.
      * rewrite decide_False; [done|].
        intros [?|Hc%list_elem_of_singleton]%elem_of_app; [done|]. by apply Hne.
Qed.

Lemma contar_errores_acum (campo : string) (l : list Registro) (n : nat) :
  foldl (fun errores registro =>
           match Registro.obtener_campo registro campo with
           | None => errores
           | Some valor =>
               if negb (String.eqb valor "")
               then match float_of_str valor with
                    | Some _ => errores
                    | None => errores + 1
                    end
               else errores
           end) n l
  = n + Limpiador.contar_errores campo l.
Proof.
  unfold Limpiador.contar_errores. revert n.
  induction l as [|r l IH]; intros n; cbn [foldl]; [lia|].
  rewrite IH. rewrite (IH (match _ with Some _ => _ | None => _ end)).
  destruct (Registro.obtener_campo r campo) as [valor|]; [|lia].
  destruct (negb (String.eqb valor "")); [|lia].
  destruct (float_of_str valor); lia.
Qed.

Lemma contar_errores_suma (campo : string) (d : Dataset) :
  Limpiador.contar_errores campo (registros d) + length (valores_numericos campo d)
  = length (filter (fun s : string => s <> "") (Dataset.obtener_valores_campo campo d)).
Proof.
  unfold valores_numericos, Dataset.obtener_valores_campo.
  induction (registros d) as [|r l IH]; [done|].
  unfold Limpiador.contar_errores. cbn [foldl]. rewrite contar_errores_acum. csimpl.
  destruct (Registro.obtener_campo r campo) as [valor|] eqn:Hr; csimpl; [|exact IH].
  rewrite filter_cons. destruct (String.eqb_spec valor "") as [->|Hne]; cbn [negb].
  - rewrite float_of_str_empty. rewrite decide_False by (by intros ?). exact IH.
  - rewrite decide_True by done. cbn [length].
    destruct (float_of_str valor); cbn [length]; lia.
Qed.

Lemma coercibles_no_vacios (l : list string) :
  length (omap float_of_str l) <= length (filter (fun s : string => s <> "") l).
Proof.
  induction l as [|s l IH]; [done|]. csimpl. rewrite filter_cons.
  destruct (decide (s <> "")) as [Hs|Hs].
  - destruct (float_of_str s); cbn [length]; lia.
  - assert (s = "") as -> by (by destruct (decide (s = "")); [|exfalso; apply Hs]).
    by rewrite float_of_str_empty.
Qed.

(** X10. [validar_tipos_numericos(campos)] counts in [campos_validados]
    every entry of [campos], repeated ones too, while [errores_por_campo] has
    one entry for each distinct name, in the order of first occurrence. The
    errors of a field and the numbers among its values add up to the number
    of its values that are not empty, and there is no error exactly when
    [float] accepts every value that is not empty. *)
Theorem validar_tipos_numericos_cuenta (campos : list string) (d : Dataset) :
  Limpiador.campos_validados (Limpiador.validar_tipos_numericos campos d) = length campos
  /\ (Limpiador.errores_por_campo (Limpiador.validar_tipos_numericos campos d)).*1
     = primeras_apariciones campos
  /\ forall c, c ∈ campos ->
       exists errores,
         dict_get String.eqb
           (Limpiador.errores_por_campo (Limpiador.validar_tipos_numericos campos d)) c
         = Some errores
         /\ errores + length (valores_numericos c d)
            = length (filter (fun s : string => s <> "")
                        (Dataset.obtener_valores_campo c d))
         /\ (errores = 0 <->
             forall s, s ∈ Dataset.obtener_valores_campo c d -> s <> "" ->
                       is_Some (float_of_str s)).
Proof.
  split_and!.
  - done.
  - apply errores_por_campo_claves.
  - intros c Hc. exists (Limpiador.contar_errores c (registros d)). split_and!.
    + rewrite errores_por_campo_lookup. by rewrite decide_True.
    + apply contar_errores_suma.
    + pose proof (contar_errores_suma c d) as Hsum.
      unfold valores_numericos in *.
      revert Hsum. generalize (Limpiador.contar_errores c (registros d)).
      generalize (Dataset.obtener_valores_campo c d). intros l n.
      revert n. induction l as [|s l IH]; intros n; csimpl.
      * intros Hsum. split; [by intros _ ? ?%elem_of_nil|]. intros _. simpl in Hsum. lia.
      * rewrite filter_cons. destruct (decide (s <> "")) as [Hs|Hs].
        -- destruct (float_of_str s) eqn:Hf; cbn [length]; intros Hsum.
           ++ rewrite (IH n) by lia. split.
              ** intros Hl s' [->|?]%elem_of_cons ?; [by eexists|by apply Hl].
              ** intros Hl s' ? ?. apply Hl; [by apply list_elem_of_further|done].
           ++ pose proof (coercibles_no_vacios l). split; [lia|]. intros Hl.
              destruct (Hl s (list_elem_of_here _ _) Hs) as [x Hx]. congruence.
        -- assert (s = "") as -> by (by destruct (decide (s = "")); [|exfalso; apply Hs]).
           rewrite float_of_str_empty. intros Hsum. rewrite (IH n) by done. split.
           ++ intros Hl s' [->|?]%elem_of_cons ?; [done|by apply Hl].
           ++ intros Hl s' ? ?. apply Hl; [by apply list_elem_of_further|done].
Qed.

End Validacion.

(** ** Limpiador: replacing empty values in place *)

Lemma establecer_campo_insert (a : nat) (campo : string) (valor : option string)
    (h : Objetos) (cur : Registro) :
  Objetos.establecer_campo a campo valor (<[a := cur]> h)
  = <[a := <[campo := valor]> cur]> h.
Proof.
  unfold Objetos.establecer_campo, Registro.establecer_campo.
  by rewrite alter_insert_eq.
Qed.

Section LimpiarNulos.
  Context (campos : option (list string)) (valor_reemplazo : option string).

Lemma bucle_campos (a : nat) (datos : Registro) (cs : list string)
    (h : Objetos) (cur : Registro) (n : nat) :
  foldl (fun '(objetos, reemplazos) campo =>
           match datos !! campo with
           | Some valor =>
               if Registro.es_vacio valor
               then (Objetos.establecer_campo a campo valor_reemplazo objetos,
                     reemplazos + 1)
               else (objetos, reemplazos)
           | None => (objetos, reemplazos)
           end)
        (<[a := cur]> h, n) cs
  = (<[a := foldl (fun cur campo =>
                     match datos !! campo with
                     | Some valor =>
                         if Registro.es_vacio valor
                         then <[campo := valor_reemplazo]> cur else cur
                     | None => cur
                     end) cur cs]> h,
     n + length (filter (fun campo => campo_vacio datos campo = true) cs)).
Proof.
  revert cur n. induction cs as [|c cs IH]; intros cur n; cbn [foldl].
  - by rewrite Nat.add_0_r.
  - rewrite filter_cons.
    destruct (datos !! c) as [valor|] eqn:Hc.
    + destruct (Registro.es_vacio valor) eqn:Hv.
      * rewrite establecer_campo_insert, IH.
        rewrite decide_True by (by unfold campo_vacio; rewrite Hc).
        cbn [length]. f_equal. lia.
      * rewrite IH. rewrite decide_False; [done|].
        unfold campo_vacio. rewrite Hc. congruence.
    + rewrite IH. rewrite decide_False; [done|]. unfold campo_vacio. by rewrite Hc.
Qed.

Lemma campos_limpiados_lookup (datos : Registro) (cs : list string) (cur : Registro)
    (k : string) :
  foldl (fun cur campo =>
           match datos !! campo with
           | Some valor =>
               if Registro.es_vacio valor then <[campo := valor_reemplazo]> cur else cur
           | None => cur
           end) cur cs !! k
  = if decide (k ∈ cs /\ campo_vacio datos k = true)
    then Some valor_reemplazo else cur !! k.
Proof.
  revert cur. induction cs as [|c cs IH]; intros cur; cbn [foldl].
  - rewrite decide_False; [done|]. by intros [?%elem_of_nil _].
  - rewrite IH.
    destruct (decide (k ∈ cs /\ _)) as [[Hin Hk]|Hno].
    + rewrite decide_True; [done|]. split; [by apply list_elem_of_further|done].
    + destruct (decide (k = c)) as [->|Hkc].
      * unfold campo_vacio in *. destruct (datos !! c) as [valor|] eqn:Hc.
        -- destruct (Registro.es_vacio valor) eqn:Hv.
           ++ rewrite lookup_insert_eq. rewrite decide_True; [done|].
              split; [apply list_elem_of_here|done].
           ++ rewrite decide_False; [done|]. by intros [_ ?].
        -- rewrite decide_False; [done|]. by intros [_ ?].
      * rewrite decide_False.
        2:{ intros [[->|?]%elem_of_cons ?]; [done|]. by apply Hno. }
        destruct (datos !! c) as [valor|]; [|done].
        destruct (Registro.es_vacio valor); [|done]. by rewrite lookup_insert_ne.
Qed.

Lemma elem_of_campos_a_limpiar (datos : Registro) (k : string) :
  is_Some (datos !! k) -> (k ∈ campos_a_limpiar campos datos <-> campo_elegido campos k).
Proof.
  intros [x Hk]. unfold campos_a_limpiar, campo_elegido.
  assert (Hkeys : k ∈ (map_to_list datos).*1).
  { apply list_elem_of_fmap. exists (k, x). split; [done|]. by apply elem_of_map_to_list. }
  destruct campos as [[|c resto]|]; tauto.
Qed.

Lemma limpiar_datos_lookup (datos : Registro) (k : string) :
  limpiar_datos campos valor_reemplazo datos !! k
  = match datos !! k with
    | Some valor =>
        Some (if decide (campo_elegido campos k /\ Registro.es_vacio valor = true)
              then valor_reemplazo else valor)
    | None => None
    end.
Proof. unfold limpiar_datos. rewrite map_lookup_imap. by destruct (datos !! k). Qed.

Lemma campos_limpiados_eq (datos : Registro) :
  foldl (fun cur campo =>
           match datos !! campo with
           | Some valor =>
               if Registro.es_vacio valor then <[campo := valor_reemplazo]> cur else cur
           | None => cur
           end) datos (campos_a_limpiar campos datos)
  = limpiar_datos campos valor_reemplazo datos.
Proof.
  apply map_eq. intros k. rewrite campos_limpiados_lookup, limpiar_datos_lookup.
  destruct (datos !! k) as [valor|] eqn:Hk.
  - pose proof (elem_of_campos_a_limpiar datos k (ex_intro _ _ Hk)) as Hel.
    assert (Hcv : campo_vacio datos k = Registro.es_vacio valor).
    { unfold campo_vacio. by rewrite Hk. }
    rewrite Hcv.
    destruct (decide (k ∈ campos_a_limpiar campos datos /\ Registro.es_vacio valor = true))
      as [[H1 H2]|Hno];
      destruct (decide (campo_elegido campos k /\ Registro.es_vacio valor = true))
      as [[H3 H4]|Hno']; try done.
    + exfalso. apply Hno'. split; [by apply Hel|done].
    + exfalso. apply Hno. split; [by apply Hel|done].
  - rewrite decide_False; [done|]. unfold campo_vacio. rewrite Hk. by intros [_ ?].
Qed.

Lemma paso_limpiar (a : nat) (h : Objetos) (n : nat) (datos : Registro) :
  h !! a = Some datos ->
  foldl (fun '(objetos, reemplazos) campo =>
           match datos !! campo with
           | Some valor =>
               if Registro.es_vacio valor
               then (Objetos.establecer_campo a campo valor_reemplazo objetos,
                     reemplazos + 1)
               else (objetos, reemplazos)
           | None => (objetos, reemplazos)
           end)
        (h, n) (campos_a_limpiar campos datos)
  = (<[a := limpiar_datos campos valor_reemplazo datos]> h,
     n + length (filter (fun campo => campo_vacio datos campo = true)
                   (campos_a_limpiar campos datos))).
Proof.
  intros Ha. rewrite <- (insert_id h a datos Ha) at 1.
  rewrite bucle_campos, campos_limpiados_eq. done.
Qed.

Lemma limpiar_valores_nulos_pasos (refs : list nat) (h : Objetos) (n : nat) :
  foldl (fun '(objetos, reemplazos) registro =>
           match objetos !! registro with
           | None => (objetos, reemplazos)
           | Some datos =>
               let campos_a_limpiar :=
                 match campos with
                 | Some (campo :: resto) => campo :: resto
                 | _ => (map_to_list datos).*1
                 end in
               foldl (fun '(objetos, reemplazos) campo =>
                        match datos !! campo with
                        | Some valor =>
                            if Registro.es_vacio valor
                            then (Objetos.establecer_campo registro campo
                                    valor_reemplazo objetos,
                                  reemplazos + 1)
                            else (objetos, reemplazos)
                        | None => (objetos, reemplazos)
                        end)
                     (objetos, reemplazos)
                     campos_a_limpiar
           end)
        (h, n) refs
  = foldl (paso_registro campos valor_reemplazo) (h, n) refs.
Proof.
  revert h n. induction refs as [|a refs IH]; intros h n; [done|]. cbn [foldl].
  unfold paso_registro at 2. destruct (h !! a) as [datos|] eqn:Ha.
  - fold (campos_a_limpiar campos datos). rewrite (paso_limpiar a h n datos Ha). apply IH.
  - apply IH.
Qed.

Lemma limpiar_datos_idem (datos : Registro) :
  limpiar_datos campos valor_reemplazo (limpiar_datos campos valor_reemplazo datos)
  = limpiar_datos campos valor_reemplazo datos.
Proof.
  apply map_eq. intros k. rewrite !limpiar_datos_lookup.
  destruct (datos !! k) as [valor|]; [|done]. f_equal.
  destruct (decide (campo_elegido campos k /\ Registro.es_vacio valor = true))
    as [[He Hv]|Hno].
  - by case_decide.
  - rewrite decide_False; [done|]. done.
Qed.

Lemma pasos_objetos (refs : list nat) (h : Objetos) (n : nat) (a : nat) :
  (foldl (paso_registro campos valor_reemplazo) (h, n) refs).1 !! a
  = if decide (a ∈ refs) then limpiar_datos campos valor_reemplazo <$> h !! a else h !! a.
Proof.
  revert h n. induction refs as [|r refs IH]; intros h n; cbn [foldl].
  - by rewrite decide_False by apply not_elem_of_nil.
  - unfold paso_registro at 2. destruct (h !! r) as [datos|] eqn:Hr.
    + rewrite IH. destruct (decide (a = r)) as [->|Hne].
      * rewrite lookup_insert_eq, Hr.
        rewrite (decide_True (P := r ∈ r :: refs)) by apply list_elem_of_here.
        destruct (decide (r ∈ refs)); simpl; [by rewrite limpiar_datos_idem|done].
      * rewrite lookup_insert_ne by done.
        destruct (decide (a ∈ refs)) as [Hin|Hnin].
        -- rewrite decide_True by (by apply list_elem_of_further). done.
        -- rewrite decide_False; [done|]. intros [?|?]%elem_of_cons; done.
    + rewrite IH. destruct (decide (a ∈ refs)) as [Hin|Hnin].
      * rewrite decide_True by (by apply list_elem_of_further). done.
      * destruct (decide (a = r)) as [->|Hne].
        -- rewrite Hr. by case_decide.
        -- rewrite decide_False; [done|]. intros [?|?]%elem_of_cons; done.
Qed.

Lemma limpiar_valores_nulos_eq (refs : list nat) (h : Objetos) :
  Limpiador.limpiar_valores_nulos campos valor_reemplazo refs h
  = foldl (paso_registro campos valor_reemplazo) (h, 0) refs.
Proof. apply limpiar_valores_nulos_pasos. Qed.

Lemma campo_vacio_elem (datos : Registro) (k : string) :
  campo_vacio datos k = true <-> k ∈ Registro.obtener_campos_vacios datos.
Proof.
  rewrite elem_of_obtener_campos_vacios. unfold campo_vacio.
  destruct (datos !! k) as [valor|]; split.
  - intros Hv. by exists valor.
  - by intros (? & [= <-] & ?).
  - done.
  - by intros (? & ? & _).
Qed.

Lemma cuenta_vacios_elegidos (datos : Registro) :
  length (filter (fun campo => campo_vacio datos campo = true) (campos_a_limpiar campos datos))
  = vacios_elegidos campos datos.
Proof.
  unfold campos_a_limpiar, vacios_elegidos.
  assert (Htodos : length (filter (fun campo => campo_vacio datos campo = true)
                             (map_to_list datos).*1)
                   = length (Registro.obtener_campos_vacios datos)).
  { rewrite obtener_campos_vacios_filter, length_fmap.
    assert (Hin : forall p, p ∈ map_to_list datos -> datos !! p.1 = Some p.2).
    { intros [k v] Hp. by apply elem_of_map_to_list. }
    induction (map_to_list datos) as [|[k v] l IH]; [done|].
    cbn [fmap list_fmap fst]. rewrite !filter_cons. cbn [snd].
    assert (Hk : campo_vacio datos k = Registro.es_vacio v).
    { unfold campo_vacio. pose proof (Hin (k, v) (list_elem_of_here _ _)) as Hkv.
      cbn [fst snd] in Hkv. by rewrite Hkv. }
    rewrite Hk. specialize (IH (fun p Hp => Hin p (list_elem_of_further _ _ _ Hp))).
    destruct (Registro.es_vacio v); repeat case_decide; try done;
      cbn [length]; by rewrite IH. }
  destruct campos as [[|c resto]|]; try exact Htodos.
  f_equal. apply list_filter_iff. intros k. apply campo_vacio_elem.
Qed.

Lemma limpiar_datos_sin_vacios (datos : Registro) :
  (forall k, campo_elegido campos k -> campo_vacio datos k = false) ->
  limpiar_datos campos valor_reemplazo datos = datos.
Proof.
  intros Hno. apply map_eq. intros k. rewrite limpiar_datos_lookup.
  destruct (datos !! k) as [valor|] eqn:Hk; [|done].
  rewrite decide_False; [done|]. intros [He Hv].
  specialize (Hno k He). unfold campo_vacio in Hno. rewrite Hk in Hno. congruence.
Qed.

Lemma pasos_sin_vacios (refs : list nat) (h : Objetos) (n : nat) :
  (forall a datos k, a ∈ refs -> h !! a = Some datos -> campo_elegido campos k ->
     campo_vacio datos k = false) ->
  foldl (paso_registro campos valor_reemplazo) (h, n) refs = (h, n).
Proof.
  induction refs as [|a refs IH]; intros Hno; [done|]. cbn [foldl].
  unfold paso_registro at 2. destruct (h !! a) as [datos|] eqn:Ha.
  - rewrite limpiar_datos_sin_vacios
      by (intros k; apply (Hno a datos k); [apply list_elem_of_here|done]).
    rewrite insert_id by done.
    rewrite (proj2 (length_zero_iff_nil _)).
    2:{ apply filter_vacio. intros k Hk Hv.
        assert (He : campo_elegido campos k).
        { apply (elem_of_campos_a_limpiar datos k); [|done].
          unfold campo_vacio in Hv. destruct (datos !! k); [by eexists|done]. }
        rewrite (Hno a datos k (list_elem_of_here _ _) Ha He) in Hv. done. }
    rewrite Nat.add_0_r. apply IH.
    intros a' datos' k Ha'. apply Hno. by apply list_elem_of_further.
  - apply IH. intros a' datos' k Ha'. apply Hno. by apply list_elem_of_further.
Qed.

Lemma pasos_cuenta (refs : list nat) (h : Objetos) (n : nat) :
  NoDup refs ->
  (foldl (paso_registro campos valor_reemplazo) (h, n) refs).2
  = n + sum_list_with (vacios_elegidos campos) (Objetos.leer h refs).
Proof.
  intros Hnd. revert h n. induction Hnd as [|a refs Ha Hnd IH]; intros h n; cbn [foldl].
  - simpl. lia.
  - unfold paso_registro at 2. unfold Objetos.leer. csimpl.
    fold (Objetos.leer h refs). destruct (h !! a) as [datos|] eqn:Hh.
    + rewrite IH, cuenta_vacios_elegidos. cbn [sum_list_with].
      assert (Hleer : Objetos.leer (<[a := limpiar_datos campos valor_reemplazo datos]> h) refs
                      = Objetos.leer h refs).
      { unfold Objetos.leer. apply omap_ext_in. intros b Hb.
        rewrite lookup_insert_ne; [done|]. by intros ->. }
      rewrite Hleer. simpl. lia.
    + rewrite IH. done.
Qed.

(** X11. [limpiar_valores_nulos(campos, valor_reemplazo)] changes the record
    objects of the dataset, however often an object stands in it, and no
    other object: in each of them the chosen fields whose value is [None],
    empty or "NULL" get the replacement value, and every other field keeps
    its value; no field is added to a record and none is removed. *)
Theorem limpiar_valores_nulos_objetos (refs : list nat) (h : Objetos) :
  (forall a, (Limpiador.limpiar_valores_nulos campos valor_reemplazo refs h).1 !! a
             = if decide (a ∈ refs)
               then limpiar_datos campos valor_reemplazo <$> h !! a
               else h !! a)
  /\ (forall datos k,
        limpiar_datos campos valor_reemplazo datos !! k
        = match datos !! k with
          | Some valor =>
              Some (if decide (campo_elegido campos k /\ Registro.es_vacio valor = true)
                    then valor_reemplazo else valor)
          | None => None
          end).
Proof.
  split.
  - intros a. rewrite limpiar_valores_nulos_eq. apply pasos_objetos.
  - apply limpiar_datos_lookup.
Qed.

(** X12. When the records of the dataset are different objects,
    [limpiar_valores_nulos] returns the number of empty fields of the
    records, or, with a list of fields, the number of entries of the list
    that name an empty field of a record, a repeated entry counting each
    time. *)
Theorem limpiar_valores_nulos_cuenta (refs : list nat) (h : Objetos) :
  NoDup refs ->
  (Limpiador.limpiar_valores_nulos campos valor_reemplazo refs h).2
  = sum_list_with (vacios_elegidos campos) (Objetos.leer h refs).
Proof.
  intros Hnd. rewrite limpiar_valores_nulos_eq. by rewrite pasos_cuenta.
Qed.

(** X13. When the replacement value is itself neither [None], empty nor
    "NULL", then after [limpiar_valores_nulos] no chosen field of a record of
    the dataset is listed by [obtener_campos_vacios], and a second call
    returns 0 and leaves every record as it is. *)
Theorem limpiar_valores_nulos_idempotente (refs : list nat) (h : Objetos) :
  Registro.es_vacio valor_reemplazo = false ->
  (forall a datos k,
     a ∈ refs ->
     (Limpiador.limpiar_valores_nulos campos valor_reemplazo refs h).1 !! a = Some datos ->
     campo_elegido campos k ->
     k ∉ Registro.obtener_campos_vacios datos)
  /\ Limpiador.limpiar_valores_nulos campos valor_reemplazo refs
       (Limpiador.limpiar_valores_nulos campos valor_reemplazo refs h).1
     = ((Limpiador.limpiar_valores_nulos campos valor_reemplazo refs h).1, 0).
Proof.
  intros Hv.
  assert (Hlimpio : forall a datos k,
             a ∈ refs ->
             (Limpiador.limpiar_valores_nulos campos valor_reemplazo refs h).1 !! a
             = Some datos ->
             campo_elegido campos k -> campo_vacio datos k = false).
  { intros a datos k Ha. rewrite limpiar_valores_nulos_eq, pasos_objetos.
    rewrite decide_True by done.
    destruct (h !! a) as [d0|]; [|done]. intros [= <-] He.
    unfold campo_vacio. rewrite limpiar_datos_lookup.
    destruct (d0 !! k) as [valor|]; [|done].
    destruct (decide (campo_elegido campos k /\ Registro.es_vacio valor = true))
      as [?|Hno]; [done|].
    destruct (Registro.es_vacio valor) eqn:Hval; [|done]. exfalso. by apply Hno. }
  split.
  - intros a datos k Ha Hd He Hin. apply campo_vacio_elem in Hin.
    by rewrite (Hlimpio a datos k Ha Hd He) in Hin.
  - rewrite (limpiar_valores_nulos_eq refs (_.1)). by apply pasos_sin_vacios.
Qed.

End LimpiarNulos.

(** ** Transformador: a computed field, in place *)

Lemma paso_campo_calculado (campo : string) (f : Registro -> option string)
    (a : nat) (h : Objetos) :
  match h !! a with
  | None => h
  | Some datos => Objetos.establecer_campo a campo (f datos) h
  end
  = alter (fun datos => <[campo := f datos]> datos) a h.
Proof.
  unfold Objetos.establecer_campo, Registro.establecer_campo.
  apply map_eq. intros b. destruct (h !! a) as [datos|] eqn:Ha.
  - destruct (decide (b = a)) as [->|Hne].
    + by rewrite !lookup_alter_eq, Ha.
    + by rewrite !lookup_alter_ne.
  - destruct (decide (b = a)) as [->|Hne].
    + by rewrite lookup_alter_eq, Ha.
    + by rewrite lookup_alter_ne.
Qed.

Lemma agregar_campo_calculado_lookup (campo : string) (f : Registro -> option string)
    (refs : list nat) (h : Objetos) (a : nat) :
  Transformador.agregar_campo_calculado campo f refs h !! a
  = Nat.iter (length (filter (fun r => r = a) refs))
      (fun datos => <[campo := f datos]> datos) <$> h !! a.
Proof.
  unfold Transformador.agregar_campo_calculado.
  revert h. induction refs as [|r refs IH]; intros h; cbn [foldl].
  - simpl. by destruct (h !! a).
  - rewrite paso_campo_calculado, IH, filter_cons.
    destruct (decide (r = a)) as [->|Hne].
    + rewrite lookup_alter_eq. cbn [length].
      destruct (h !! a) as [datos|]; [|done]. cbn [fmap option_fmap option_map].
      by rewrite Nat.iter_succ_r.
    + by rewrite lookup_alter_ne.
Qed.

Lemma iter_campo_calculado (campo : string) (f : Registro -> option string)
    (n : nat) (datos : Registro) (k : string) :
  k <> campo ->
  Nat.iter n (fun datos => <[campo := f datos]> datos) datos !! k = datos !! k.
Proof.
  intros Hk. induction n as [|n IH]; [done|]. simpl. by rewrite lookup_insert_ne.
Qed.

(** X14. [agregar_campo_calculado(campo, f)] sets the field in every record
    object of the dataset and changes no other field and no other object.
    An object that stands [n] times in the dataset gets the field set [n]
    times, each time from its fields at that moment; when the records are
    different objects the new value is [f] of the record as it was. *)
Theorem agregar_campo_calculado_objetos (campo : string) (f : Registro -> option string)
    (refs : list nat) (h : Objetos) :
  (forall a, Transformador.agregar_campo_calculado campo f refs h !! a
             = Nat.iter (length (filter (fun r => r = a) refs))
                 (fun datos => <[campo := f datos]> datos) <$> h !! a)
  /\ (forall a, a ∉ refs ->
        Transformador.agregar_campo_calculado campo f refs h !! a = h !! a)
  /\ (forall a datos, a ∈ refs -> h !! a = Some datos ->
        exists datos',
          Transformador.agregar_campo_calculado campo f refs h !! a = Some datos'
          /\ is_Some (datos' !! campo)
          /\ forall k, k <> campo -> datos' !! k = datos !! k)
  /\ (NoDup refs -> forall a datos, a ∈ refs -> h !! a = Some datos ->
        Transformador.agregar_campo_calculado campo f refs h !! a
        = Some (<[campo := f datos]> datos)).
Proof.
  split_and!.
  - apply agregar_campo_calculado_lookup.
  - intros a Ha. rewrite agregar_campo_calculado_lookup.
    rewrite (filter_vacio _ refs) by (by intros r Hr ->). simpl. by destruct (h !! a).
  - intros a datos Ha Hh. rewrite agregar_campo_calculado_lookup, Hh.
    eexists. split; [done|].
    destruct (length (filter (fun r => r = a) refs)) as [|n] eqn:Hn.
    + apply length_zero_iff_nil in Hn.
      assert (Hin : a ∈ filter (fun r => r = a) refs) by (by apply list_elem_of_filter).
      rewrite Hn in Hin. by apply elem_of_nil in Hin.
    + split.
      * simpl. rewrite lookup_insert_eq. by eexists.
      * intros k Hk. by apply iter_campo_calculado.
  - intros Hnd a datos Ha Hh. rewrite agregar_campo_calculado_lookup, Hh.
    replace (length (filter (fun r => r = a) refs)) with 1; [done|].
    clear Hh. induction Hnd as [|r refs Hr Hnd IH]; [by apply elem_of_nil in Ha|].
    rewrite filter_cons. destruct (decide (r = a)) as [->|Hne].
    + rewrite (filter_vacio _ refs); [done|]. by intros r Hr' ->.
    + apply IH. by apply elem_of_cons in Ha as [->|?].
Qed.

(** ** AnalizadorVentas: the grand total and the ranking *)

Section VentasTotales.
  Context `{PF : PyFloat} `{!PyFloatLaws PF}.

(** X15. The grand total of the sales analyzer is the sum, from the first
    record to the last and rounded to two decimals, of the values of 'total'
    that [float] accepts; [None], the empty text and text that is not a
    number add nothing. *)
Theorem ventas_totales_suma (d : Dataset) :
  AnalizadorVentas.calcular_ventas_totales d
  = round2 (suma_flotantes (valores_coercibles "total" (registros d))).
Proof.
  unfold AnalizadorVentas.calcular_ventas_totales, Dataset.obtener_registros,
    suma_flotantes, valores_coercibles.
  f_equal. generalize fzero.
  induction (registros d) as [|r l IH]; intros z; [done|]. cbn [foldl]. csimpl.
  rewrite IH. destruct (Registro.obtener_campo r "total") as [s|]; [|done]. csimpl.
  destruct (String.eqb_spec s "") as [->|Hs]; simpl.
  - by rewrite float_of_str_empty.
  - by destruct (float_of_str s).
Qed.

End VentasTotales.


(** ** AnalizadorEstadistico: the fields of the result *)

Section Campos.
  Context `{PF : PyFloat}.

Lemma iterar_campos_exacto (d : Dataset) (l : list string)
    (cs0 cs : gmap string (AnalizadorEstadistico.Estadisticas pyfloat)) (c : string) :
  iterar (fun cs campo =>
            estadisticas <-- AnalizadorEstadistico.analizar_campo campo d ;;
            Retorna (match estadisticas with
                     | Some e => <[campo := e]> cs
                     | None => cs
                     end)) l cs0 = Retorna cs ->
  c ∈ l ->
  exists est, AnalizadorEstadistico.analizar_campo c d = Retorna est
              /\ cs !! c = match est with Some e => Some e | None => cs0 !! c end.
Proof.
  revert cs0. induction l as [|x l IH]; intros cs0; simpl.
  - by intros _ ?%elem_of_nil.
  - destruct (AnalizadorEstadistico.analizar_campo x d) as [est|] eqn:Hx; simpl; [|done].
    intros Hit Hc. destruct (decide (c ∈ l)) as [Hcl|Hcl].
    + destruct (IH _ Hit Hcl) as (est' & Hest' & Hcs). exists est'. split; [done|].
      rewrite Hcs. destruct est' as [e'|]; [done|].
      destruct (decide (c = x)) as [->|Hne].
      * rewrite Hx in Hest'. injection Hest' as ->. done.
      * destruct est; [|done]. by rewrite lookup_insert_ne.
    + apply elem_of_cons in Hc as [->|?]; [|done].
      exists est. split; [done|].
      rewrite (iterar_campos_otros _ _ _ _ _ Hit Hcl).
      destruct est; [apply lookup_insert_eq|done].
Qed.

Lemma analizar_lookup (d : Dataset) (r : AnalizadorEstadistico.Resultados pyfloat)
    (c : string) :
  AnalizadorEstadistico.analizar d = Retorna r ->
  AnalizadorEstadistico.campos r !! c
  = if decide (c ∈ Dataset.obtener_campos d)
    then match AnalizadorEstadistico.analizar_campo c d with
         | Retorna est => est
         | Lanza _ => None
         end
    else None.
Proof.
  unfold AnalizadorEstadistico.analizar.
  destruct (Dataset.esta_vacio d) eqn:Hvacio.
  - intros [= <-]. cbn [AnalizadorEstadistico.campos]. rewrite lookup_empty.
    unfold Dataset.obtener_campos, Dataset.esta_vacio in *.
    destruct (registros d); [|done]. rewrite decide_False; [done|apply not_elem_of_nil].
  - cbn [AnalizadorEstadistico.campos].
    destruct (iterar _ _ _) as [cs|] eqn:Hit; cbn [ligar]; [|done].
    intros [= <-]. cbn [AnalizadorEstadistico.campos].
    destruct (decide (c ∈ Dataset.obtener_campos d)) as [Hc|Hc].
    + destruct (iterar_campos_exacto d _ _ _ c Hit Hc) as (est & -> & ->).
      by destruct est.
    + rewrite (iterar_campos_otros _ _ _ _ _ Hit Hc). apply lookup_empty.
Qed.

Lemma analizar_campo_None (c : string) (d : Dataset) :
  AnalizadorEstadistico.analizar_campo c d = Retorna None
  <-> Dataset.obtener_valores_campo c d = [].
Proof.
  unfold AnalizadorEstadistico.analizar_campo.
  destruct (Dataset.obtener_valores_campo c d) as [|v l]; [done|].
  cbn [length Nat.eqb]. split; [|done].
  destruct (Nat.leb _ _); [|done].
  by destruct (AnalizadorEstadistico.estadisticas_numericas _).
Qed.

Lemma analizar_campo_Numerico (c : string) (d : Dataset)
    (e : AnalizadorEstadistico.EstadisticasNumericas pyfloat) :
  AnalizadorEstadistico.analizar_campo c d
  = Retorna (Some (AnalizadorEstadistico.Numerico e)) ->
  2 <= length (valores_numericos c d).
Proof.
  unfold AnalizadorEstadistico.analizar_campo. fold (valores_numericos c d).
  destruct (Nat.eqb _ 0); [done|].
  destruct (Nat.leb_spec 2 (length (valores_numericos c d))); [done|]. done.
Qed.

Lemma analizar_retorna_campo (d : Dataset)
    (r : AnalizadorEstadistico.Resultados pyfloat) (c : string) :
  AnalizadorEstadistico.analizar d = Retorna r ->
  c ∈ Dataset.obtener_campos d ->
  exists est, AnalizadorEstadistico.analizar_campo c d = Retorna est.
Proof.
  intros Hr Hc. revert Hr. unfold AnalizadorEstadistico.analizar.
  destruct (Dataset.esta_vacio d) eqn:Hvacio.
  - unfold Dataset.obtener_campos, Dataset.esta_vacio in *.
    destruct (registros d); [by apply elem_of_nil in Hc|done].
  - cbn [AnalizadorEstadistico.campos].
    destruct (iterar _ _ _) as [cs|] eqn:Hit; cbn [ligar]; [|done]. intros _.
    destruct (iterar_campos_exacto d _ _ _ c Hit Hc) as (est & Hest & _).
    by exists est.
Qed.

Lemma analizar_entrada_iff (d : Dataset)
    (r : AnalizadorEstadistico.Resultados pyfloat) (c : string) :
  AnalizadorEstadistico.analizar d = Retorna r ->
  is_Some (AnalizadorEstadistico.campos r !! c)
  <-> c ∈ Dataset.obtener_campos d /\ Dataset.obtener_valores_campo c d <> [].
Proof.
  intros Hr. rewrite (analizar_lookup d r c Hr).
  destruct (decide (c ∈ Dataset.obtener_campos d)) as [Hc|Hc].
  - destruct (analizar_retorna_campo d r c Hr Hc) as [est Hest]. rewrite Hest. split.
    + intros [e ->]. split; [done|]. intros Hv. apply analizar_campo_None in Hv.
      congruence.
    + intros [_ Hv]. destruct est as [e|]; [by eexists|].
      exfalso. by apply Hv, analizar_campo_None.
  - split; [by intros [? ?]|tauto].
Qed.

Lemma analizar_numerico_iff (d : Dataset)
    (r : AnalizadorEstadistico.Resultados pyfloat) (c : string) :
  AnalizadorEstadistico.analizar d = Retorna r ->
  (exists e, AnalizadorEstadistico.campos r !! c
             = Some (AnalizadorEstadistico.Numerico e))
  <-> c ∈ Dataset.obtener_campos d /\ 2 <= length (valores_numericos c d).
Proof.
  intros Hr. rewrite (analizar_lookup d r c Hr).
  destruct (decide (c ∈ Dataset.obtener_campos d)) as [Hc|Hc].
  - destruct (analizar_retorna_campo d r c Hr Hc) as [est Hest]. rewrite Hest. split.
    + intros [e ->]. split; [done|]. by eapply analizar_campo_Numerico.
    + intros [_ Hn]. revert Hest. unfold AnalizadorEstadistico.analizar_campo.
      fold (valores_numericos c d).
      destruct (Nat.eqb _ 0) eqn:Hvacio; [intros [= <-]|].
      * exfalso. revert Hn. unfold valores_numericos.
        destruct (Dataset.obtener_valores_campo c d); [simpl; lia|done].
      * rewrite (proj2 (Nat.leb_le 2 _) Hn).
        destruct (AnalizadorEstadistico.estadisticas_numericas _) as [e|];
          cbn [ligar]; [|done]. intros [= <-]. by exists e.
  - split; [by intros [? ?]|tauto].
Qed.

Lemma analizar_totales (d : Dataset) (r : AnalizadorEstadistico.Resultados pyfloat) :
  AnalizadorEstadistico.analizar d = Retorna r ->
  AnalizadorEstadistico.total_registros r = length (registros d)
  /\ AnalizadorEstadistico.resumen_general r = ∅.
Proof.
  unfold AnalizadorEstadistico.analizar.
  destruct (Dataset.esta_vacio d); [by intros [= <-]|].
  destruct (iterar _ _ _); cbn [ligar]; [|done]. by intros [= <-].
Qed.

(** X17. When [analizar()] returns, its result has an entry for exactly the
    fields of the first record that have a value other than [None] in some
    record, and a numeric entry for exactly those with two values or more
    that [float] accepts; [total_registros] is the number of records and
    [resumen_general] is empty. *)
Theorem analizar_campos_exactos (d : Dataset)
    (r : AnalizadorEstadistico.Resultados pyfloat) (c : string) :
  AnalizadorEstadistico.analizar d = Retorna r ->
  (is_Some (AnalizadorEstadistico.campos r !! c)
   <-> c ∈ Dataset.obtener_campos d /\ Dataset.obtener_valores_campo c d <> [])
  /\ ((exists e, AnalizadorEstadistico.campos r !! c
                 = Some (AnalizadorEstadistico.Numerico e))
      <-> c ∈ Dataset.obtener_campos d /\ 2 <= length (valores_numericos c d))
  /\ AnalizadorEstadistico.total_registros r = length (registros d)
  /\ AnalizadorEstadistico.resumen_general r = ∅.
Proof.
  intros Hr. split_and!.
  - by apply analizar_entrada_iff.
  - by apply analizar_numerico_iff.
  - by apply (analizar_totales d r).
  - by apply (analizar_totales d r).
Qed.

Lemma bucle_campos_numericos
    (l : list (string * AnalizadorEstadistico.Estadisticas pyfloat)) :
  foldl (fun campos_numericos '(campo, stats) =>
           match stats with
           | AnalizadorEstadistico.Numerico _ => campos_numericos ++ [campo]
           | AnalizadorEstadistico.Categorico _ => campos_numericos
           end) [] l
  = (List.filter (fun p => match p.2 with
                           | AnalizadorEstadistico.Numerico _ => true
                           | AnalizadorEstadistico.Categorico _ => false
                           end) l).*1.
Proof.
  induction l as [|[k [e|e]] l IH] using rev_ind; [done|..];
    rewrite foldl_app, List.filter_app, fmap_app, <- IH; cbn [foldl]; simpl;
    [done|by rewrite app_nil_r].
Qed.

Lemma campos_numericos_elem
    (m : gmap string (AnalizadorEstadistico.Estadisticas pyfloat)) (c : string) :
  c ∈ (List.filter (fun p => match p.2 with
                             | AnalizadorEstadistico.Numerico _ => true
                             | AnalizadorEstadistico.Categorico _ => false
                             end) (map_to_list m)).*1
  <-> exists e, m !! c = Some (AnalizadorEstadistico.Numerico e).
Proof.
  rewrite list_elem_of_fmap. split.
  - intros ([k st] & -> & Hin). apply elem_of_list_filter in Hin as [Hin Hst].
    apply elem_of_map_to_list in Hin. simpl in *. destruct st as [e|]; [|done].
    by exists e.
  - intros [e He]. exists (c, AnalizadorEstadistico.Numerico e). split; [done|].
    apply elem_of_list_filter. split; [by apply elem_of_map_to_list|done].
Qed.

Lemma campos_numericos_NoDup
    (m : gmap string (AnalizadorEstadistico.Estadisticas pyfloat)) :
  NoDup (List.filter (fun p => match p.2 with
                               | AnalizadorEstadistico.Numerico _ => true
                               | AnalizadorEstadistico.Categorico _ => false
                               end) (map_to_list m)).*1.
Proof.
  eapply sublist_NoDup; [apply (NoDup_fst_map_to_list m)|].
  apply fmap_sublist, sublist_list_filter.
Qed.

(** X18. The first call of [obtener_campos_numericos()] analyzes the dataset
    [d]. On an empty dataset nothing is kept and the list is empty. Else the
    results are kept: the list holds, once each, the fields of the first
    record with two numeric values or more, and every later call of
    [obtener_campos_numericos()] and of [obtener_resumen_campo()] answers
    from the kept results, whatever the dataset [d'] holds by then; the
    summary of a field is empty exactly when the result has no entry for
    it. *)
Theorem campos_numericos_guardados (d d' : Dataset)
    (g : option (AnalizadorEstadistico.Resultados pyfloat)) (l : list string) :
  AnalizadorEstadistico.obtener_campos_numericos d None = Retorna (g, l) ->
  (registros d = [] -> g = None /\ l = [])
  /\ (registros d <> [] ->
      (forall c, c ∈ l
                 <-> c ∈ Dataset.obtener_campos d /\ 2 <= length (valores_numericos c d))
      /\ NoDup l
      /\ AnalizadorEstadistico.obtener_campos_numericos d' g = Retorna (g, l)
      /\ forall c, exists resumen,
           AnalizadorEstadistico.obtener_resumen_campo c d' g = Retorna (g, resumen)
           /\ (is_Some resumen
               <-> c ∈ Dataset.obtener_campos d
                   /\ Dataset.obtener_valores_campo c d <> [])).
Proof.
  unfold AnalizadorEstadistico.obtener_campos_numericos,
    AnalizadorEstadistico.obtener_resumen_campo,
    AnalizadorEstadistico.asegurar_resultados,
    AnalizadorEstadistico.analizar_y_guardar.
  destruct (AnalizadorEstadistico.analizar d) as [r|] eqn:Hr; cbn [ligar fst]; [|done].
  unfold Dataset.esta_vacio. destruct (registros d) as [|r0 regs] eqn:Hregs.
  - cbn [length Nat.eqb]. intros [= <- <-]. split; [done|]. by intros [].
  - cbn [length Nat.eqb]. intros [= <- <-]. split; [done|]. intros _.
    rewrite bucle_campos_numericos. cbn [ligar]. split_and!.
    + intros c. rewrite campos_numericos_elem. by apply analizar_numerico_iff.
    + apply campos_numericos_NoDup.
    + by rewrite bucle_campos_numericos.
    + intros c. eexists. split; [done|]. by apply analizar_entrada_iff.
Qed.

End Campos.

(** ** AnalizadorEstadistico: the frequency table *)

(** X19. In the categorical statistics, [distribucion] lists every distinct
    value once, in the order of first occurrence, with the number of its
    occurrences; the frequencies add up to [total_valores]; the table has
    [valores_unicos] entries; and [frecuencia_mas_comun] is at most
    [total_valores]. *)
Theorem estadisticas_categoricas_cuentas (valores : list string) :
  AnalizadorEstadistico.distribucion (AnalizadorEstadistico.estadisticas_categoricas valores)
  = (fun s => (s, veces s valores)) <$> primeras_apariciones valores
  /\ sum_list_with snd
       (AnalizadorEstadistico.distribucion
          (AnalizadorEstadistico.estadisticas_categoricas valores))
     = AnalizadorEstadistico.cat_total_valores
         (AnalizadorEstadistico.estadisticas_categoricas valores)
  /\ length (AnalizadorEstadistico.distribucion
               (AnalizadorEstadistico.estadisticas_categoricas valores))
     = AnalizadorEstadistico.valores_unicos
         (AnalizadorEstadistico.estadisticas_categoricas valores)
  /\ AnalizadorEstadistico.frecuencia_mas_comun
       (AnalizadorEstadistico.estadisticas_categoricas valores)
     <= AnalizadorEstadistico.cat_total_valores
          (AnalizadorEstadistico.estadisticas_categoricas valores).
Proof.
  unfold AnalizadorEstadistico.estadisticas_categoricas.
  cbn [AnalizadorEstadistico.distribucion AnalizadorEstadistico.cat_total_valores
       AnalizadorEstadistico.valores_unicos AnalizadorEstadistico.frecuencia_mas_comun].
  split_and!.
  - apply contar_texto_eq.
  - rewrite contar_texto_eq.
    rewrite <- (suma_veces (primeras_apariciones valores) valores).
    + generalize (primeras_apariciones valores). intros ks.
      induction ks as [|k ks IH]; [done|]. csimpl. by rewrite IH.
    + apply NoDup_primeras_apariciones.
    + intros x. by rewrite elem_of_primeras_apariciones.
  - rewrite contar_texto_eq, length_fmap.
    rewrite <- (length_fmap id). unfold size, set_size. simpl.
    apply Permutation_length. rewrite list_fmap_id.
    apply NoDup_Permutation.
    + apply NoDup_primeras_apariciones.
    + apply NoDup_elements.
    + intros x. rewrite elem_of_primeras_apariciones, elem_of_elements.
      by rewrite elem_of_list_to_set.
  - destruct (py_truthy _); [|lia].
    rewrite distribucion_lookup. case_decide; simpl; [|lia].
    unfold veces. apply length_filter.
Qed.

(** ** RegistroOperaciones: a sequence of registrations *)

Lemma operaciones_registrar_llamadas (lls : list Llamada) (j : RegistroOperaciones) :
  operaciones (registrar_llamadas lls j) = operaciones j ++ (operacion_de <$> lls).
Proof.
  unfold registrar_llamadas. revert j. induction lls as [|ll lls IH]; intros j; cbn [foldl].
  - by rewrite app_nil_r.
  - rewrite IH, operaciones_registrar_operacion. by rewrite <- app_assoc.
Qed.


(** X20. After a sequence of calls of [registrar_operacion], whatever the
    outcome of the writes, the journal in memory holds the operations it
    held before followed by those of the calls, in the order of the calls;
    the operations of a dataset, and those of a type, are the earlier ones
    followed by those of the calls for that dataset, or of that type. *)
Theorem registrar_llamadas_consultas (lls : list Llamada) (j : RegistroOperaciones) :
  RegistroOperaciones.obtener_todas_operaciones (registrar_llamadas lls j)
  = RegistroOperaciones.obtener_todas_operaciones j ++ (operacion_de <$> lls)
  /\ RegistroOperaciones.contar_operaciones (registrar_llamadas lls j)
     = RegistroOperaciones.contar_operaciones j + length lls
  /\ (forall ds,
        RegistroOperaciones.obtener_operaciones_por_dataset ds (registrar_llamadas lls j)
        = RegistroOperaciones.obtener_operaciones_por_dataset ds j
          ++ (operacion_de <$> filter (fun ll => ll_dataset ll = ds) lls))
  /\ (forall tipo,
        RegistroOperaciones.obtener_operaciones_por_tipo tipo (registrar_llamadas lls j)
        = RegistroOperaciones.obtener_operaciones_por_tipo tipo j
          ++ (operacion_de <$> filter (fun ll => ll_operacion ll = tipo) lls)).
Proof.
  unfold RegistroOperaciones.obtener_todas_operaciones,
    RegistroOperaciones.contar_operaciones,
    RegistroOperaciones.obtener_operaciones_por_dataset,
    RegistroOperaciones.obtener_operaciones_por_tipo.
  rewrite operaciones_registrar_llamadas. split_and!.
  - done.
  - by rewrite length_app, length_fmap.
  - intros ds. rewrite filter_app. f_equal.
    induction lls as [|ll lls IH]; [done|]. csimpl. rewrite !filter_cons. simpl.
    destruct (decide (ll_dataset ll = ds)); csimpl; by rewrite IH.
  - intros tipo. rewrite filter_app. f_equal.
    induction lls as [|ll lls IH]; [done|]. csimpl. rewrite !filter_cons. simpl.
    destruct (decide (ll_operacion ll = tipo)); csimpl; by rewrite IH.
Qed.


(** ** RegistroOperaciones: statistics *)

Lemma bucle_estadisticas (ops : list Operacion) :
  foldl (fun '(tipos, datasets) op =>
           (dict_set String.eqb tipos (operacion op)
              (default 0 (dict_get String.eqb tipos (operacion op)) + 1),
            ({[ dataset op ]} ∪ datasets : gset string)))
        ([], ∅) ops
  = (contar_elementos String.eqb (operacion <$> ops),
     list_to_set (dataset <$> ops)).
Proof.
  induction ops as [|op ops IH] using rev_ind; [done|].
  rewrite foldl_app, IH. cbn [foldl]. unfold contar_elementos.
  rewrite !fmap_app, foldl_app. cbn [fmap list_fmap foldl]. f_equal.
  rewrite list_to_set_app_L. simpl. rewrite union_empty_r_L. apply (comm_L (∪)).
Qed.

Lemma veces_fmap_operacion (tipo : string) (ops : list Operacion) :
  veces tipo (operacion <$> ops)
  = length (filter (fun op => operacion op = tipo) ops).
Proof.
  unfold veces. induction ops as [|op ops IH]; [done|]. csimpl.
  rewrite !filter_cons. destruct (decide (operacion op = tipo)); simpl; by rewrite IH.
Qed.

(** X22. [obtener_estadisticas()] agrees with the queries of the journal:
    [tipos_operaciones] lists every type once, in the order of first
    occurrence, with the number of operations of [obtener_operaciones_por_tipo];
    these numbers add up to [total_operaciones], which is
    [contar_operaciones()]; [datasets_usados] holds, once each, the datasets
    with an operation; and the two times are those of the first and of the
    last operation, or [None] in an empty journal. *)
Theorem obtener_estadisticas_coherente (j : RegistroOperaciones) :
  RegistroOperaciones.total_operaciones (RegistroOperaciones.obtener_estadisticas j)
  = RegistroOperaciones.contar_operaciones j
  /\ RegistroOperaciones.tipos_operaciones (RegistroOperaciones.obtener_estadisticas j)
     = (fun tipo =>
          (tipo, length (RegistroOperaciones.obtener_operaciones_por_tipo tipo j)))
       <$> primeras_apariciones (operacion <$> operaciones j)
  /\ sum_list_with snd
       (RegistroOperaciones.tipos_operaciones (RegistroOperaciones.obtener_estadisticas j))
     = RegistroOperaciones.total_operaciones (RegistroOperaciones.obtener_estadisticas j)
  /\ NoDup (RegistroOperaciones.datasets_usados (RegistroOperaciones.obtener_estadisticas j))
  /\ (forall ds,
        ds ∈ RegistroOperaciones.datasets_usados
               (RegistroOperaciones.obtener_estadisticas j)
        <-> RegistroOperaciones.obtener_operaciones_por_dataset ds j <> [])
  /\ RegistroOperaciones.primera_operacion (RegistroOperaciones.obtener_estadisticas j)
     = timestamp <$> head (operaciones j)
  /\ RegistroOperaciones.ultima_operacion (RegistroOperaciones.obtener_estadisticas j)
     = timestamp <$> last (operaciones j).
Proof.
  assert (Heq : RegistroOperaciones.obtener_estadisticas j
                = {| RegistroOperaciones.total_operaciones := length (operaciones j);
                     RegistroOperaciones.datasets_usados :=
                       elements (list_to_set (dataset <$> operaciones j) : gset string);
                     RegistroOperaciones.tipos_operaciones :=
                       contar_elementos String.eqb (operacion <$> operaciones j);
                     RegistroOperaciones.primera_operacion :=
                       timestamp <$> head (operaciones j);
                     RegistroOperaciones.ultima_operacion :=
                       timestamp <$> last (operaciones j) |}).
  { unfold RegistroOperaciones.obtener_estadisticas.
    destruct (operaciones j) as [|op ops] eqn:Hops.
    - simpl. by rewrite elements_empty.
    - by rewrite bucle_estadisticas. }
  rewrite Heq.
  cbn [RegistroOperaciones.total_operaciones RegistroOperaciones.datasets_usados
       RegistroOperaciones.tipos_operaciones RegistroOperaciones.primera_operacion
       RegistroOperaciones.ultima_operacion].
  unfold RegistroOperaciones.contar_operaciones,
    RegistroOperaciones.obtener_operaciones_por_tipo,
    RegistroOperaciones.obtener_operaciones_por_dataset.
  split_and!; try done.
  - rewrite contar_texto_eq. apply list_fmap_ext. intros _ tipo _.
    by rewrite veces_fmap_operacion.
  - rewrite contar_texto_eq.
    rewrite <- (length_fmap operacion (operaciones j)).
    rewrite <- (suma_veces (primeras_apariciones (operacion <$> operaciones j))
                  (operacion <$> operaciones j)).
    + generalize (primeras_apariciones (operacion <$> operaciones j)). intros ks.
      induction ks as [|k ks IH]; [done|]. csimpl. by rewrite IH.
    + apply NoDup_primeras_apariciones.
    + intros x. by rewrite elem_of_primeras_apariciones.
  - apply NoDup_elements.
  - intros ds. rewrite elem_of_elements, elem_of_list_to_set, list_elem_of_fmap. split.
    + intros (op & -> & Hop) Hnil.
      assert (Hin : op ∈ filter (fun op' => dataset op' = dataset op) (operaciones j))
        by (by apply list_elem_of_filter).
      rewrite Hnil in Hin. by apply elem_of_nil in Hin.
    + intros Hne. destruct (filter _ _) as [|op ops] eqn:Hf; [done|].
      assert (Hin : op ∈ filter (fun op' => dataset op' = ds) (operaciones j))
        by (rewrite Hf; apply list_elem_of_here).
      apply list_elem_of_filter in Hin as [Hds Hin]. by exists op.
Qed.

(** ** RegistroOperaciones: a negative count *)

(** X23. With a negative [n], [obtener_ultimas_n_operaciones(n)] returns the
    operations but the first [-n], and not the last ones. *)
Theorem ultimas_n_negativo (n : Z) (j : RegistroOperaciones) :
  (n < 0)%Z ->
  RegistroOperaciones.obtener_ultimas_n_operaciones n j
  = drop (Z.to_nat (- n)) (operaciones j)
  /\ length (RegistroOperaciones.obtener_ultimas_n_operaciones n j)
     = length (operaciones j) - Z.to_nat (- n).
Proof.
  intros Hn. unfold RegistroOperaciones.obtener_ultimas_n_operaciones.
  rewrite (proj2 (Z.leb_le n _)) by lia.
  unfold py_slice_from, py_slice_bound.
  rewrite (proj2 (Z.ltb_ge (- n) 0)) by lia.
  assert (Hdrop : drop (Z.to_nat (Z.min (- n) (Z.of_nat (length (operaciones j)))))
                    (operaciones j)
                  = drop (Z.to_nat (- n)) (operaciones j)).
  { destruct (Z.le_ge_cases (- n) (Z.of_nat (length (operaciones j)))).
    - by rewrite Z.min_l by lia.
    - rewrite Z.min_r by lia. rewrite Nat2Z.id. by rewrite !drop_ge by lia. }
  rewrite Hdrop. split; [done|]. by rewrite length_drop.
Qed.

(** ** Binary64: [<] is asymmetric *)



(** ** The further properties on concrete data *)

Lemma validar_tipos_numericos_cuenta_testigo :
  Limpiador.campos_validados
    (@Limpiador.validar_tipos_numericos ieee ["total"; "region"; "total"] escenario_A) = 3
  /\ (Limpiador.errores_por_campo
        (@Limpiador.validar_tipos_numericos ieee ["total"; "region"; "total"]
           escenario_A)).*1
     = primeras_apariciones ["total"; "region"; "total"]
  /\ forall c, c ∈ ["total"; "region"; "total"] ->
       exists errores,
         dict_get String.eqb
           (Limpiador.errores_por_campo
              (@Limpiador.validar_tipos_numericos ieee ["total"; "region"; "total"]
                 escenario_A)) c
         = Some errores
         /\ errores + length (@valores_numericos ieee c escenario_A)
            = length (filter (fun s : string => s <> "")
                        (Dataset.obtener_valores_campo c escenario_A))
         /\ (errores = 0 <->
             forall s, s ∈ Dataset.obtener_valores_campo c escenario_A -> s <> "" ->
                       is_Some (@float_of_str ieee s)).
Proof.
  exact (@validar_tipos_numericos_cuenta ieee ieee_leyes ["total"; "region"; "total"]
           escenario_A).
Defined.

Lemma limpiar_valores_nulos_cuenta_testigo :
  (Limpiador.limpiar_valores_nulos None (Some "0") [0; 1] objetos_ejemplo).2
  = sum_list_with (vacios_elegidos None) (Objetos.leer objetos_ejemplo [0; 1]).
Proof.
  apply (limpiar_valores_nulos_cuenta None (Some "0") [0; 1] objetos_ejemplo).
  apply (bool_decide_unpack _). vm_compute. reflexivity.
Defined.

Lemma limpiar_valores_nulos_idempotente_testigo :
  (forall a datos k,
     a ∈ [0; 1; 0] ->
     (Limpiador.limpiar_valores_nulos None (Some "0") [0; 1; 0] objetos_ejemplo).1 !! a
     = Some datos ->
     campo_elegido None k ->
     k ∉ Registro.obtener_campos_vacios datos)
  /\ Limpiador.limpiar_valores_nulos None (Some "0") [0; 1; 0]
       (Limpiador.limpiar_valores_nulos None (Some "0") [0; 1; 0] objetos_ejemplo).1
     = ((Limpiador.limpiar_valores_nulos None (Some "0") [0; 1; 0] objetos_ejemplo).1, 0).
Proof.
  apply (limpiar_valores_nulos_idempotente None (Some "0") [0; 1; 0] objetos_ejemplo).
  reflexivity.
Defined.

Lemma ventas_totales_suma_testigo :
  @AnalizadorVentas.calcular_ventas_totales ieee escenario_A
  = IEEE.round2 (@suma_flotantes ieee (@valores_coercibles ieee "total" (registros escenario_A))).
Proof. exact (@ventas_totales_suma ieee ieee_leyes escenario_A). Defined.


Lemma analizar_campos_exactos_testigo :
  exists r,
    @AnalizadorEstadistico.analizar ieee escenario_A = Retorna r
    /\ (is_Some (AnalizadorEstadistico.campos r !! "total")
        <-> "total" ∈ Dataset.obtener_campos escenario_A
            /\ Dataset.obtener_valores_campo "total" escenario_A <> [])
    /\ ((exists e, AnalizadorEstadistico.campos r !! "total"
                   = Some (AnalizadorEstadistico.Numerico e))
        <-> "total" ∈ Dataset.obtener_campos escenario_A
            /\ 2 <= length (@valores_numericos ieee "total" escenario_A))
    /\ AnalizadorEstadistico.total_registros r = length (registros escenario_A)
    /\ AnalizadorEstadistico.resumen_general r = ∅.
Proof.
  destruct (es_retorna_true (@AnalizadorEstadistico.analizar ieee escenario_A))
    as [r Hr]; [vm_compute; reflexivity|].
  exists r. split; [exact Hr|].
  exact (@analizar_campos_exactos ieee escenario_A r "total" Hr).
Defined.

Lemma campos_numericos_guardados_testigo :
  exists g l,
    @AnalizadorEstadistico.obtener_campos_numericos ieee escenario_A None = Retorna (g, l)
    /\ (registros escenario_A = [] -> g = None /\ l = [])
    /\ (registros escenario_A <> [] ->
        (forall c, c ∈ l
                   <-> c ∈ Dataset.obtener_campos escenario_A
                       /\ 2 <= length (@valores_numericos ieee c escenario_A))
        /\ NoDup l
        /\ AnalizadorEstadistico.obtener_campos_numericos datos_campo_nulo g
           = Retorna (g, l)
        /\ forall c, exists resumen,
             AnalizadorEstadistico.obtener_resumen_campo c datos_campo_nulo g
             = Retorna (g, resumen)
             /\ (is_Some resumen
                 <-> c ∈ Dataset.obtener_campos escenario_A
                     /\ Dataset.obtener_valores_campo c escenario_A <> [])).
Proof.
  destruct (es_retorna_true
              (@AnalizadorEstadistico.obtener_campos_numericos ieee escenario_A None))
    as [[g l] Hgl]; [vm_compute; reflexivity|].
  exists g, l. split; [exact Hgl|].
  exact (@campos_numericos_guardados ieee escenario_A datos_campo_nulo g l Hgl).
Defined.

Lemma ultimas_n_negativo_testigo :
  RegistroOperaciones.obtener_ultimas_n_operaciones (-1) diario_ejemplo
  = drop (Z.to_nat (- -1)) (operaciones diario_ejemplo)
  /\ length (RegistroOperaciones.obtener_ultimas_n_operaciones (-1) diario_ejemplo)
     = length (operaciones diario_ejemplo) - Z.to_nat (- -1).
Proof. apply (ultimas_n_negativo (-1) diario_ejemplo). lia. Defined.

(** ** Sorting again, and sorting a filtered list *)

Section OrdenFiltro.
  Context {A K : Type} (ltk : K -> K -> bool) (key : A -> K).
  Hypothesis ltk_asym : forall a b, ltk a b = true -> ltk b a = false.
  Hypothesis ltk_negtrans :
    forall a b c, ltk b a = false -> ltk c b = false -> ltk c a = false.

Lemma sort_insert_primero (x : A) (l : list A) :
  (forall z, z ∈ l -> ltk (key z) (key x) = false) ->
  sort_insert ltk key x l = x :: l.
Proof.
  destruct l as [|y l]; [done|]. intros Hl. simpl.
  by rewrite (Hl y (list_elem_of_here _ _)).
Qed.

Lemma stable_sort_ordenado (l : list A) :
  Sorted (fun x y => ltk (key y) (key x) = false) l -> stable_sort ltk key l = l.
Proof.
  induction 1 as [|x l Hl IH Hhd]; [done|]. simpl. rewrite IH.
  destruct Hhd as [|y l Hxy]; [done|]. simpl. by rewrite Hxy.
Qed.

Lemma py_sort_idem (descending : bool) (l : list A) :
  py_sort ltk key descending (py_sort ltk key descending l)
  = py_sort ltk key descending l.
Proof.
  unfold py_sort. destruct descending.
  - rewrite reverse_involutive. f_equal.
    apply stable_sort_ordenado, (stable_sort_Sorted ltk key ltk_asym).
  - apply stable_sort_ordenado, (stable_sort_Sorted ltk key ltk_asym).
Qed.

Lemma stable_sort_StronglySorted (l : list A) :
  StronglySorted (fun x y => ltk (key y) (key x) = false) (stable_sort ltk key l).
Proof.
  apply Sorted_StronglySorted.
  - intros x y z Hxy Hyz. by eapply ltk_negtrans.
  - apply (stable_sort_Sorted ltk key ltk_asym).
Qed.

Section Filtro.
  Context (p : A -> bool).

Lemma list_filter_sort_insert (x : A) (l : list A) :
  StronglySorted (fun x y => ltk (key y) (key x) = false) l ->
  List.filter p (sort_insert ltk key x l)
  = if p x then sort_insert ltk key x (List.filter p l) else List.filter p l.
Proof.
  induction 1 as [|y l Hl IH Hy]; simpl.
  - by destruct (p x).
  - destruct (ltk (key y) (key x)) eqn:Hyx; simpl.
    + rewrite IH. destruct (p y), (p x); simpl; by rewrite ?Hyx.
    + destruct (p x); [|done].
      rewrite sort_insert_primero; [done|].
      intros z Hz.
      assert (Hz' : z ∈ y :: l).
      { destruct (p y).
        - apply elem_of_cons in Hz as [->|Hz]; [apply list_elem_of_here|].
          apply list_elem_of_further. by apply elem_of_list_filter in Hz as [? _].
        - apply list_elem_of_further. by apply elem_of_list_filter in Hz as [? _]. }
      apply elem_of_cons in Hz' as [->|Hz']; [done|].
      apply (ltk_negtrans _ (key y)); [done|].
      by apply (proj1 (Forall_forall _ _) Hy).
Qed.

Lemma list_filter_stable_sort (l : list A) :
  List.filter p (stable_sort ltk key l) = stable_sort ltk key (List.filter p l).
Proof.
  induction l as [|x l IH]; [done|]. simpl.
  rewrite list_filter_sort_insert by apply stable_sort_StronglySorted.
  rewrite IH. by destruct (p x).
Qed.

Lemma list_filter_reverse (l : list A) :
  List.filter p (reverse l) = reverse (List.filter p l).
Proof.
  induction l as [|x l IH]; [done|]. simpl.
  rewrite reverse_cons, List.filter_app, IH. simpl.
  destruct (p x); [by rewrite reverse_cons|by rewrite app_nil_r].
Qed.

Lemma list_filter_py_sort (descending : bool) (l : list A) :
  List.filter p (py_sort ltk key descending l)
  = py_sort ltk key descending (List.filter p l).
Proof.
  unfold py_sort. destruct descending; [|apply list_filter_stable_sort].
  by rewrite list_filter_reverse, list_filter_stable_sort, list_filter_reverse.
Qed.

End Filtro.
End OrdenFiltro.

Lemma string_ltb_negtrans (a b c : string) :
  String.ltb b a = false -> String.ltb c b = false -> String.ltb c a = false.
Proof.
  rewrite !string_ltb_leb. apply string_leb_trans.
Qed.

(** X24. Sorting is idempotent: [ordenar(campo, reverso)] applied a second
    time leaves the dataset as the first call left it; and an ascending
    sort leaves a dataset as it is when its records are already in
    ascending order of the key. *)
Theorem ordenar_idempotente (campo : string) (reverso : bool) (d : Dataset) :
  Dataset.ordenar campo reverso (Dataset.ordenar campo reverso d)
  = Dataset.ordenar campo reverso d
  /\ (Sorted (fun r1 r2 => String.leb (Dataset.clave_orden campo r1)
                             (Dataset.clave_orden campo r2) = true) (registros d) ->
      Dataset.ordenar campo false d = d).
Proof.
  unfold Dataset.ordenar. cbn [registros nombre]. split.
  - f_equal. apply py_sort_idem. apply string_ltb_asym.
  - intros Hs. destruct d as [regs nom]. cbn [registros nombre] in *. f_equal.
    unfold py_sort. apply stable_sort_ordenado.
    eapply Sorted_mono; [|exact Hs]. intros r1 r2. apply string_ltb_leb.
Qed.

(** X25. Sorting and filtering commute: filtering the sorted dataset gives
    the same dataset, records, order and name, as sorting the filtered
    one. *)
Theorem filtrar_ordenar_conmutan (condicion : Registro -> bool) (campo : string)
    (reverso : bool) (d : Dataset) :
  Dataset.filtrar condicion (Dataset.ordenar campo reverso d)
  = Dataset.ordenar campo reverso (Dataset.filtrar condicion d).
Proof.
  apply Dataset_eq.
  - rewrite registros_filtrar. unfold Dataset.ordenar. cbn [registros].
    rewrite registros_filtrar.
    apply list_filter_py_sort; [apply string_ltb_asym|apply string_ltb_negtrans].
  - rewrite nombre_filtrar. unfold Dataset.ordenar. cbn [nombre].
    by rewrite nombre_filtrar.
Qed.
